(** * Explore Repository node: path sandbox, glob matcher, directory walkers

    A shallow embedding of [nodes/ExploreRepository/ExploreRepository.node.ts].

    Conventions of the embedding.
    - A JavaScript string is a Rocq [string]; a character stands for one
      code unit below 256 (ASCII and Latin-1).  The connectors of the tree
      view are box-drawing characters above that range; their constants
      hold the UTF-8 bytes, which keeps concatenation and prefixes as they
      are.
    - A JavaScript [number] that counts or indexes is a [Z].
    - A thrown exception is the left injection of a sum, a returned value
      the right one.
    - Node's [path] module (POSIX flavour) and the part of the regular
      expression engine that [globToRegex] can reach are modelled below,
      since the node's behaviour is defined through them.
    - The filesystem is a finite tree of nodes; [fs.readdirSync] returns
      a directory's entries in the order the tree lists them.
    - [String.prototype.localeCompare] depends on the host's collation
      data and is a parameter.
    - The external grep process is a function from the command line to
      what [execSync] did with it.
    - Presentation fields of the result records (the formatted size, the
      timestamps, the mode) are left out of the records; [formatSize] is
      modelled on its own, with exact arithmetic. *)

From Equations Require Import Equations.
From Stdlib Require Import String Ascii List ZArith Lia Bool Arith.
From Stdlib Require Import Sorting.Permutation Sorting.Sorted.
From Stdlib Require Import Numbers.DecimalString.
Import ListNotations.

Local Open Scope string_scope.
Local Open Scope list_scope.

(** String concatenation, JavaScript's [+] on strings. *)
Infix "+:+" := String.append (right associativity, at level 60).

(* ------------------------------------------------------------------ *)
(** ** JavaScript string primitives *)

Module Js.

(** [s.startsWith(p)] *)
Fixpoint startsWith (s p : string) {struct p} : bool :=
  match p with
  | EmptyString => true
  | String b p' =>
      match s with
      | EmptyString => false
      | String a s' => Ascii.eqb a b && startsWith s' p'
      end
  end.

(** [s.split(sep)] for a one-character separator. *)
Fixpoint split (sep : ascii) (s : string) : list string :=
  match s with
  | EmptyString => [EmptyString]
  | String c rest =>
      if Ascii.eqb c sep then EmptyString :: split sep rest
      else match split sep rest with
           | h :: t => String c h :: t
           | [] => [String c EmptyString]
           end
  end.

(** [l.join(sep)] *)
Definition join (sep : string) (l : list string) : string :=
  String.concat sep l.

(** [s.includes(t)]: [t] occurs somewhere in [s]. *)
Fixpoint includes (s t : string) : bool :=
  startsWith s t
  || match s with
     | EmptyString => false
     | String _ s' => includes s' t
     end.

(** Last character of a string, if any. *)
Fixpoint lastChar (s : string) : option ascii :=
  match s with
  | EmptyString => None
  | String c EmptyString => Some c
  | String _ rest => lastChar rest
  end.

(** Truthiness of a string: [!s] holds exactly for the empty string. *)
Definition truthy (s : string) : bool :=
  match s with EmptyString => false | _ => true end.

(** [a || b] on strings. *)
Definition orElse (a b : string) : string := if truthy a then a else b.

End Js.

(* ------------------------------------------------------------------ *)
(** ** Node's [path] module, POSIX flavour

    [cwd] stands for [process.cwd()], the only piece of process state the
    module reads.  No function here consults the filesystem. *)

Module Path.

Definition sep : string := "/".

Definition isAbsolute (p : string) : bool :=
  match p with String "/" _ => true | _ => false end.

(** [normalizeString]: drops empty and [.] segments, lets [..] cancel the
    segment before it; above the start, [..] is kept only when
    [allowAboveRoot].  [acc] is the result so far, last segment first. *)
Fixpoint normalizeSegments (allowAboveRoot : bool) (acc segs : list string)
  : list string :=
  match segs with
  | [] => rev acc
  | s :: rest =>
      if (s =? "") || (s =? ".") then normalizeSegments allowAboveRoot acc rest
      else if s =? ".." then
        match acc with
        | top :: acc' =>
            if top =? ".."
            then normalizeSegments allowAboveRoot
                   (if allowAboveRoot then ".." :: acc else acc) rest
            else normalizeSegments allowAboveRoot acc' rest
        | [] =>
            normalizeSegments allowAboveRoot
              (if allowAboveRoot then [".."] else []) rest
        end
      else normalizeSegments allowAboveRoot (s :: acc) rest
  end.

Definition normalizeString (p : string) (allowAboveRoot : bool) : string :=
  Js.join "/" (normalizeSegments allowAboveRoot [] (Js.split "/" p)).

(** One step of [resolve]'s right-to-left loop: [acc] is
    [(resolvedPath, resolvedAbsolute)]. *)
Definition resolveStep (p : string) (acc : string * bool) : string * bool :=
  let '(resolvedPath, resolvedAbsolute) := acc in
  if resolvedAbsolute then acc
  else if p =? "" then acc
  else (p +:+ "/" +:+ resolvedPath, isAbsolute p).

(** [path.resolve(...args)] *)
Definition resolve (cwd : string) (args : list string) : string :=
  let '(resolvedPath, resolvedAbsolute) :=
    fold_right resolveStep (EmptyString, false) (cwd :: args) in
  let normalized := normalizeString resolvedPath (negb resolvedAbsolute) in
  if resolvedAbsolute then "/" +:+ normalized
  else if normalized =? "" then "." else normalized.

(** [path.normalize(p)] *)
Definition normalize (p : string) : string :=
  if p =? "" then "."
  else
    let isAbs := isAbsolute p in
    let trailingSeparator :=
      match Js.lastChar p with Some "/"%char => true | _ => false end in
    let n := normalizeString p (negb isAbs) in
    if n =? "" then
      (if isAbs then "/" else if trailingSeparator then "./" else ".")
    else
      let n := if trailingSeparator then n +:+ "/" else n in
      if isAbs then "/" +:+ n else n.

(** [path.join(...args)] *)
Definition join (args : list string) : string :=
  let joined := Js.join "/" (filter Js.truthy args) in
  if joined =? "" then "." else normalize joined.

(** Segments of an absolute, resolved path. *)
Definition segments (p : string) : list string :=
  filter Js.truthy (Js.split "/" p).

Fixpoint dropCommon (a b : list string) : list string * list string :=
  match a, b with
  | x :: a', y :: b' => if x =? y then dropCommon a' b' else (a, b)
  | _, _ => (a, b)
  end.

(** [path.relative(from, to)] *)
Definition relative (cwd from to : string) : string :=
  if from =? to then EmptyString
  else
    let from := resolve cwd [from] in
    let to := resolve cwd [to] in
    if from =? to then EmptyString
    else
      let '(up, down) := dropCommon (segments from) (segments to) in
      Js.join "/" (map (fun _ => "..") up ++ down).

(** [path.basename(p)] *)
Definition basename (p : string) : string :=
  last (segments p) EmptyString.

End Path.

(* ------------------------------------------------------------------ *)
(** ** Errors the node raises *)

Inductive NodeError : Type :=
| RootPathRequired
| RootNotDirectory (resolvedRoot : string)
| PathTraversal (relativePath resolved resolvedRoot : string)
| SearchPatternRequired
| UnknownOperation (operation : string)
| TypeError (what : string)
| FsError (path : string).

(** Text of the exception raised by [validatePath]. *)
Definition dquote : string := String (ascii_of_nat 34) EmptyString.

Definition pathTraversalMessage (relativePath resolved resolvedRoot : string)
  : string :=
  "Path traversal detected - access denied. "
  +:+ "Attempted path: " +:+ dquote +:+ relativePath +:+ dquote
  +:+ " resolved to " +:+ dquote +:+ resolved +:+ dquote +:+ ". "
  +:+ "Path must be relative and within root: "
  +:+ dquote +:+ resolvedRoot +:+ dquote.

(* ------------------------------------------------------------------ *)
(** ** [validatePath] *)

Definition validatePath (cwd rootPath relativePath : string)
  : NodeError + string :=
  let resolvedRoot := Path.resolve cwd [rootPath] in
  let resolved := Path.resolve cwd [resolvedRoot; relativePath] in
  if negb (Js.startsWith resolved (resolvedRoot +:+ Path.sep))
     && negb (resolved =? resolvedRoot)
  then inl (PathTraversal relativePath resolved resolvedRoot)
  else inr resolved.

(* ------------------------------------------------------------------ *)
(** ** Regular expressions: the fragment [globToRegex] reaches

    [new RegExp(source, 'i')] is modelled by a parser for the part of the
    pattern syntax that the three [replace] calls of [globToRegex] can
    produce (anchors, [.], [.*], escaped syntax characters and ordinary
    characters) and by a backtracking matcher for it. *)

Module RegExp.

Inductive atom : Type :=
| Char (c : ascii)      (* a pattern character or an identity escape *)
| AnyChar.              (* [.] without the [s] flag *)

Inductive term : Type :=
| Begin                 (* [^] without the [m] flag *)
| End                   (* [$] without the [m] flag *)
| One (a : atom)
| Star (a : atom).      (* [a*] *)

Record t : Type := mk { terms : list term; ignoreCase : bool }.

(** SyntaxCharacter of the pattern grammar. *)
Definition isSyntaxChar (c : ascii) : bool :=
  existsb (Ascii.eqb c)
    ["^"; "$"; "\"; "."; "*"; "+"; "?"; "("; ")"; "["; "]"; "{"; "}"; "|"]%char.

(** LineTerminator code units (below 256): LF and CR. *)
Definition isLineTerminator (c : ascii) : bool :=
  Ascii.eqb c (ascii_of_nat 10) || Ascii.eqb c (ascii_of_nat 13).

(** The pattern parser; [None] is a [SyntaxError] or a construct outside
    the fragment. *)
Fixpoint parse (s : string) : option (list term) :=
  match s with
  | EmptyString => Some []
  | String c rest =>
      if Ascii.eqb c "^" then option_map (cons Begin) (parse rest)
      else if Ascii.eqb c "$" then option_map (cons End) (parse rest)
      else if Ascii.eqb c "\" then
        match rest with
        | String d rest' =>
            if isSyntaxChar d then
              match rest' with
              | String "*" rest'' => option_map (cons (Star (Char d))) (parse rest'')
              | _ => option_map (cons (One (Char d))) (parse rest')
              end
            else None
        | EmptyString => None
        end
      else if Ascii.eqb c "." then
        match rest with
        | String "*" rest' => option_map (cons (Star AnyChar)) (parse rest')
        | _ => option_map (cons (One AnyChar)) (parse rest)
        end
      else if isSyntaxChar c then None
      else
        match rest with
        | String "*" rest' => option_map (cons (Star (Char c))) (parse rest')
        | _ => option_map (cons (One (Char c))) (parse rest)
        end
  end.

(** [new RegExp(source, flags)] with [flags] either [''] or ['i']. *)
Definition make (source : string) (ignoreCase : bool) : option t :=
  option_map (fun ts => mk ts ignoreCase) (parse source).

(** [toUpperCase] on one code unit below 256.  The two letters whose
    upper case lies above 255 (micro sign, y with diaeresis) and sharp s,
    whose upper case is two characters, stay themselves. *)
Definition toUpper (c : ascii) : ascii :=
  let n := nat_of_ascii c in
  if (((97 <=? n) && (n <=? 122))
      || ((224 <=? n) && (n <=? 254) && negb (n =? 247)))%nat
  then ascii_of_nat (n - 32) else c.

(** Canonicalize of the matcher. *)
Definition canonicalize (ignoreCase : bool) (c : ascii) : ascii :=
  if ignoreCase then toUpper c else c.

Definition atomMatches (ignoreCase : bool) (a : atom) (c : ascii) : bool :=
  match a with
  | Char x => Ascii.eqb (canonicalize ignoreCase x) (canonicalize ignoreCase c)
  | AnyChar => negb (isLineTerminator c)
  end.

(** Does the term list match a prefix of [s]?  [atStart] tells whether
    [s] is the whole input. *)
Fixpoint matchFrom (ignoreCase : bool) (ts : list term) (atStart : bool)
         (s : string) {struct ts} : bool :=
  match ts with
  | [] => true
  | Begin :: ts' => atStart && matchFrom ignoreCase ts' atStart s
  | End :: ts' =>
      match s with
      | EmptyString => matchFrom ignoreCase ts' atStart s
      | _ => false
      end
  | One a :: ts' =>
      match s with
      | String c s' => atomMatches ignoreCase a c && matchFrom ignoreCase ts' false s'
      | EmptyString => false
      end
  | Star a :: ts' =>
      (fix star (atStart : bool) (s : string) {struct s} : bool :=
         matchFrom ignoreCase ts' atStart s
         || match s with
            | String c s' => atomMatches ignoreCase a c && star false s'
            | EmptyString => false
            end) atStart s
  end.

(** [regex.test(s)]: a match starting at some position of [s]. *)
Fixpoint search (ignoreCase : bool) (ts : list term) (atStart : bool)
         (s : string) : bool :=
  matchFrom ignoreCase ts atStart s
  || match s with
     | String _ s' => search ignoreCase ts false s'
     | EmptyString => false
     end.

Definition test (r : t) (s : string) : bool :=
  search (ignoreCase r) (terms r) true s.

End RegExp.

(* ------------------------------------------------------------------ *)
(** ** [globToRegex] *)

(** The character class [[.+^${}()|[\]\\]]. *)
Definition globEscaped (c : ascii) : bool :=
  existsb (Ascii.eqb c)
    ["."; "+"; "^"; "$"; "{"; "}"; "("; ")"; "|"; "["; "]"; "\"]%char.

(** [.replace(/[.+^${}()|[\]\\]/g, '\\$&')] *)
Fixpoint replaceEscaped (s : string) : string :=
  match s with
  | EmptyString => EmptyString
  | String c rest =>
      if globEscaped c then String "\" (String c (replaceEscaped rest))
      else String c (replaceEscaped rest)
  end.

(** [.replace(/\*/g, '.*')] *)
Fixpoint replaceStar (s : string) : string :=
  match s with
  | EmptyString => EmptyString
  | String c rest =>
      if Ascii.eqb c "*" then String "." (String "*" (replaceStar rest))
      else String c (replaceStar rest)
  end.

(** [.replace(/\?/g, '.')] *)
Fixpoint replaceQuestion (s : string) : string :=
  match s with
  | EmptyString => EmptyString
  | String c rest =>
      if Ascii.eqb c "?" then String "." (replaceQuestion rest)
      else String c (replaceQuestion rest)
  end.

Definition globToRegexSource (glob : string) : string :=
  let escaped := replaceQuestion (replaceStar (replaceEscaped glob)) in
  "^" +:+ escaped +:+ "$".

Definition globToRegex (glob : string) : option RegExp.t :=
  RegExp.make (globToRegexSource glob) true.

(* ------------------------------------------------------------------ *)
(** ** The filesystem

    A directory lists its entries in the order [fs.readdirSync] returns
    them; a listing of [None] is a directory that cannot be read, a
    content of [None] a file that cannot be read, a target of [None] a
    dangling link. *)

#[warnings="-register-all"]
Inductive node : Set :=
| File (size : Z) (content : option string)
| Dir (size : Z) (listing : option (list (string * node)))
| Symlink (target : option node)
| Other (size : Z).

(** [fs.Dirent], as [readdirSync(_, { withFileTypes: true })] yields it:
    the entry's name and the node it names (not followed when a link). *)
Module Dirent.
Definition t : Set := (string * node)%type.
Definition name (e : t) : string := fst e.
Definition isDirectory (e : t) : bool :=
  match snd e with Dir _ _ => true | _ => false end.
Definition isFile (e : t) : bool :=
  match snd e with File _ _ => true | _ => false end.
Definition isSymbolicLink (e : t) : bool :=
  match snd e with Symlink _ => true | _ => false end.
End Dirent.

(** [fs.Stats], as far as the node reads it. *)
Module Stats.
Record t : Type := mk
  { isFile : bool; isDirectory : bool; isSymbolicLink : bool; size : Z }.
End Stats.

Module Fs.

(** What a path that ends at [n] names once links are followed. *)
Fixpoint follow (n : node) : option node :=
  match n with
  | Symlink None => None
  | Symlink (Some target) => follow target
  | _ => Some n
  end.

Fixpoint child (name : string) (l : list (string * node)) : option node :=
  match l with
  | [] => None
  | (n, c) :: rest => if n =? name then Some c else child name rest
  end.

Fixpoint walk (n : node) (segs : list string) : option node :=
  match segs with
  | [] => follow n
  | s :: rest =>
      match follow n with
      | Some (Dir _ (Some l)) =>
          match child s l with
          | Some c => walk c rest
          | None => None
          end
      | _ => None
      end
  end.

(** The node an absolute path names in the tree rooted at [root]. *)
Definition nodeAt (root : node) (path : string) : option node :=
  walk root (Path.segments path).

(** [fs.readdirSync(path, { withFileTypes: true })] on the node the path
    names; [None] when it throws. *)
Definition readdir (o : option node) : option (list Dirent.t) :=
  match o with
  | Some (Dir _ (Some l)) => Some l
  | _ => None
  end.

Definition readdirSync (root : node) (path : string) : option (list Dirent.t) :=
  readdir (nodeAt root path).

(** [fs.statSync(path)]; [None] when it throws. *)
Definition statSync (root : node) (path : string) : option Stats.t :=
  match nodeAt root path with
  | Some (File sz _) => Some (Stats.mk true false false sz)
  | Some (Dir sz _) => Some (Stats.mk false true false sz)
  | Some (Other sz) => Some (Stats.mk false false false sz)
  | Some (Symlink _) | None => None
  end.

(** [fs.readFileSync(path, 'utf-8')]; [None] when it throws. *)
Definition readFileSync (root : node) (path : string) : option string :=
  match nodeAt root path with
  | Some (File _ (Some content)) => Some content
  | _ => None
  end.

End Fs.

(** [getStats]: [statSync] with the exception turned into [null]. *)
Definition getStats (root : node) (filePath : string) : option Stats.t :=
  Fs.statSync root filePath.

(* ------------------------------------------------------------------ *)
(** ** Arrays *)

Module Array.

Section Sort.
Context {A : Type} (compare : A -> A -> comparison).

Fixpoint insert (x : A) (l : list A) : list A :=
  match l with
  | [] => [x]
  | y :: l' =>
      match compare x y with
      | Gt => y :: insert x l'
      | _ => x :: l
      end
  end.

(** [Array.prototype.sort(compare)]: a stable sort.  For a consistent
    comparator every stable sort returns the same array. *)
Fixpoint sort (l : list A) : list A :=
  match l with
  | [] => []
  | x :: l' => insert x (sort l')
  end.
End Sort.

(** [l.map((x, index) => f index x)], indices counted from [i]. *)
Fixpoint mapiFrom {A B : Type} (i : nat) (f : nat -> A -> B) (l : list A)
  : list B :=
  match l with
  | [] => []
  | x :: rest => f i x :: mapiFrom (S i) f rest
  end.

Definition mapi {A B : Type} (f : nat -> A -> B) (l : list A) : list B :=
  mapiFrom 0 f l.

(** [l.slice(start)] for [start > 0] and [l.slice(0, stop)] for
    [stop > 0]. *)
Definition sliceFrom {A : Type} (start : Z) (l : list A) : list A :=
  skipn (Z.to_nat start) l.
Definition sliceTo {A : Type} (stop : Z) (l : list A) : list A :=
  firstn (Z.to_nat stop) l.

End Array.

(* ------------------------------------------------------------------ *)
(** ** The directory walkers *)

(** The filter of [buildTree] and the skip of [findFilesRecursive]. *)
Definition hidden (name : string) : bool :=
  Js.startsWith name "." || (name =? "node_modules").

Definition connectorLast : string := "└── ".
Definition connectorMid : string := "├── ".
Definition childPrefixLast : string := "    ".
Definition childPrefixMid : string := "│   ".

Section Walkers.

Variable localeCompare : string -> string -> comparison.

(** The comparator of [entries.sort] in [buildTree]. *)
Definition compareEntries (a b : Dirent.t) : comparison :=
  if Dirent.isDirectory a && negb (Dirent.isDirectory b) then Lt
  else if negb (Dirent.isDirectory a) && Dirent.isDirectory b then Gt
  else localeCompare (Dirent.name a) (Dirent.name b).

(** The entries of one level as [buildTree] renders them: sorted, then
    filtered. *)
Definition levelEntries (entries : list Dirent.t) : list Dirent.t :=
  filter (fun e => negb (Js.startsWith (Dirent.name e) ".")
                   && negb (Dirent.name e =? "node_modules"))
         (Array.sort compareEntries entries).

(** [buildTree].  [dir] is the node that [dirPath] names; [rootPath] is
    not read by the source. *)
Equations buildTree (dir : node) (currentDepth maxDepth : Z) (prefix : string)
  : list string by wf (Z.to_nat (maxDepth + 1 - currentDepth)) lt :=
buildTree dir currentDepth maxDepth prefix :=
  if (currentDepth >? maxDepth)%Z then []
  else
    match Fs.readdir (Some dir) with
    | None => [prefix +:+ "[Permission denied]"]
    | Some entries =>
        let entries := levelEntries entries in
        concat
          (Array.mapi
             (fun index entry =>
                let isLast :=
                  (Z.of_nat index =? Z.of_nat (length entries) - 1)%Z in
                let connector := if isLast then connectorLast else connectorMid in
                let childPrefix :=
                  if isLast then childPrefixLast else childPrefixMid in
                if Dirent.isDirectory entry then
                  (prefix +:+ connector +:+ Dirent.name entry +:+ "/")
                  :: match Z_lt_dec currentDepth maxDepth with
                     | left _ =>
                         buildTree (snd entry) (currentDepth + 1) maxDepth
                                   (prefix +:+ childPrefix)
                     | right _ => []
                     end
                else [prefix +:+ connector +:+ Dirent.name entry])
             entries)
    end.
Next Obligation. lia. Qed.

End Walkers.

(** [findFilesRecursive].  [dir] is the node that [dirPath] names; the
    array [results] is passed in and the extended array returned.  A
    directory that cannot be read leaves [results] as it is. *)
Fixpoint findFilesRecursive (cwd : string) (dir : node) (dirPath : string)
         (pattern : RegExp.t) (results : list string) (rootPath : string)
         (maxResults : Z) {struct dir} : list string :=
  if (Z.of_nat (length results) >=? maxResults)%Z then results
  else
    match dir with
    | Dir _ (Some entries) =>
        (fix loop (entries : list (string * node)) (results : list string)
           {struct entries} : list string :=
           match entries with
           | [] => results
           | (name, child) :: rest =>
               if (Z.of_nat (length results) >=? maxResults)%Z then results
               else if Js.startsWith name "." || (name =? "node_modules")
               then loop rest results
               else
                 let fullPath := Path.join [dirPath; name] in
                 let relativePath := Path.relative cwd rootPath fullPath in
                 match child with
                 | Dir _ _ =>
                     loop rest
                       (findFilesRecursive cwd child fullPath pattern results
                          rootPath maxResults)
                 | _ =>
                     if RegExp.test pattern name
                     then loop rest (results ++ [relativePath])
                     else loop rest results
                 end
           end) entries results
    | _ => results
    end.

(* ------------------------------------------------------------------ *)
(** ** The node's parameters, results and host *)

(** The parameters of one input item, defaults filled in by the host. *)
Module Params.
Record t : Type := mk
  { rootPath : string;
    operation : string;
    path : string;
    maxLines : Z;
    lineOffset : Z;
    searchPattern : string;
    filePattern : string;
    caseInsensitive : bool;
    contextLines : Z;
    namePattern : string;
    maxDepth : Z }.
End Params.

(** What [child_process.execSync] did: it returned the process's output,
    or threw an error object that may carry [status] and [stdout]. *)
Inductive ExecOutcome : Type :=
| Returned (stdout : string)
| Threw (status : option Z) (stdout : option string).

(** What the node reads from its host: the working directory, the
    filesystem, the outcome of running a shell command, and the collation
    of [localeCompare]. *)
Module Host.
Record t : Type := mk
  { cwd : string;
    fs : node;
    execSync : string -> ExecOutcome;
    localeCompare : string -> string -> comparison }.
End Host.

Inductive EntryType : Type := TFile | TDirectory | TSymlink | TOther.

(** One element of [entries] in a [listDirectory] result.  The formatted
    [size] string is [formatSize] of [sizeBytes] and is left out;
    [sizeBytes] is kept. *)
Record FileEntry : Type := mkFileEntry
  { fe_name : string; fe_type : EntryType; fe_sizeBytes : option Z }.

Record NumberedLine : Type := mkNumberedLine
  { lineNumber : Z; lineContent : string }.

Record GrepMatch : Type := mkGrepMatch
  { gm_file : string; gm_lineNumber : Z; gm_content : string;
    gm_isContext : bool }.

Record GroupedLine : Type := mkGroupedLine
  { gl_lineNumber : Z; gl_content : string; gl_isContext : bool }.

(** The result records, one constructor per shape.  [NotFound] is a
    record with [found: false], [NotExists] one with [exists: false];
    [ListDirectory], [ReadFile] and [Tree] carry [found: true],
    [FileInfo] carries [exists: true]; [Grep] and [FindFiles] carry
    neither field. *)
Inductive Result : Type :=
| NotFound (operation path message : string) (isFile isDirectory : option bool)
| NotExists (operation path message : string)
| ListDirectory (path : string) (totalItems directories files : Z)
                (entries : list FileEntry)
| ReadFile (path : string) (totalLines linesReturned lineOffset sizeBytes : Z)
           (content : string) (lines : list NumberedLine)
| Grep (pattern path filePattern : string) (caseInsensitive : bool)
       (totalMatches filesWithMatches : Z)
       (matchesByFile : list (string * list GroupedLine))
       (matches : list GrepMatch)
| FindFiles (pattern path : string) (totalFound : Z) (files : list string)
| FileInfo (path : string) (isFile isDirectory isSymbolicLink : bool)
           (sizeBytes : Z)
| Tree (path : string) (maxDepth : Z) (tree : string) (treeLines : list string).

(** The [found] field of a result record, when it has one. *)
Definition found (r : Result) : option bool :=
  match r with
  | NotFound _ _ _ _ _ => Some false
  | ListDirectory _ _ _ _ _ | ReadFile _ _ _ _ _ _ _ | Tree _ _ _ _ => Some true
  | _ => None
  end.

(** The [exists] field of a result record, when it has one. *)
Definition exists_ (r : Result) : option bool :=
  match r with
  | NotExists _ _ _ => Some false
  | FileInfo _ _ _ _ _ => Some true
  | _ => None
  end.

(** The [message] field of a result record, when it has one. *)
Definition message (r : Result) : option string :=
  match r with
  | NotFound _ _ m _ _ | NotExists _ _ m => Some m
  | _ => None
  end.

(* ------------------------------------------------------------------ *)
(** ** The grep case: command line, output parsing, grouping *)

Definition newline : string := String (ascii_of_nat 10) EmptyString.

(** [`${n}`] for an integer [n]. *)
Definition numberToString (n : Z) : string :=
  NilZero.string_of_int (Z.to_int n).

(** The [replace] call on [searchPattern]: a backslash before every
    double quote. *)
Fixpoint escapeQuotes (s : string) : string :=
  match s with
  | EmptyString => EmptyString
  | String c rest =>
      if Ascii.eqb c (ascii_of_nat 34)
      then String "\" (String c (escapeQuotes rest))
      else String c (escapeQuotes rest)
  end.

Definition grepCommand (caseInsensitive : bool) (contextLines : Z)
           (filePattern searchPattern fullPath : string) : string :=
  "grep -rn"
  +:+ (if caseInsensitive then " -i" else "")
  +:+ (if (contextLines >? 0)%Z then " -C " +:+ numberToString contextLines else "")
  +:+ (if Js.truthy filePattern && negb (filePattern =? "*")
       then " --include=" +:+ dquote +:+ filePattern +:+ dquote else "")
  +:+ " --exclude-dir=node_modules --exclude-dir=.git --exclude-dir=dist --exclude-dir=build"
  +:+ " -E " +:+ dquote +:+ escapeQuotes searchPattern +:+ dquote
  +:+ " " +:+ dquote +:+ fullPath +:+ dquote.

(** The [try]/[catch] around [execSync]: the text handed to the parser. *)
Definition grepOutputOf (o : ExecOutcome) : string :=
  match o with
  | Returned stdout => stdout
  | Threw (Some 1%Z) _ => EmptyString
  | Threw _ (Some stdout) => stdout
  | Threw _ None => EmptyString
  end.

(** White space of [trim], code units below 256. *)
Definition isWhiteSpace (c : ascii) : bool :=
  existsb (Nat.eqb (nat_of_ascii c)) [9; 10; 11; 12; 13; 32; 160]%nat.

(** [l.trim()] is a non-empty string. *)
Fixpoint trimTruthy (l : string) : bool :=
  match l with
  | EmptyString => false
  | String c rest => negb (isWhiteSpace c) || trimTruthy rest
  end.

Definition isDigit (c : ascii) : bool :=
  (48 <=? nat_of_ascii c)%nat && (nat_of_ascii c <=? 57)%nat.

(** Longest run of digits at the head of [s], and what follows. *)
Fixpoint takeDigits (s : string) : string * string :=
  match s with
  | String c rest =>
      if isDigit c then let '(ds, tail) := takeDigits rest in (String c ds, tail)
      else (EmptyString, s)
  | EmptyString => (EmptyString, EmptyString)
  end.

Fixpoint noLineTerminator (s : string) : bool :=
  match s with
  | EmptyString => true
  | String c rest => negb (RegExp.isLineTerminator c) && noLineTerminator rest
  end.

(** [line.match] with the two patterns of the output parser, which are
    anchored at both ends and read: a shortest non-empty first group, the
    separator [S] (colon or dash), one or more digits, [S] again, and the
    rest of the line.  No group may hold a line terminator.  The result
    is the three groups of the first way to split the line; [before] is
    the candidate first group. *)
Fixpoint matchNumbered (S : ascii) (before line : string)
  : option (string * string * string) :=
  match line with
  | EmptyString => None
  | String c rest =>
      let here :=
        if Js.truthy before && Ascii.eqb c S then
          match takeDigits rest with
          | (ds, String c2 tail) =>
              if Js.truthy ds && Ascii.eqb c2 S && noLineTerminator tail
              then Some (before, ds, tail) else None
          | _ => None
          end
        else None in
      match here with
      | Some groups => Some groups
      | None =>
          if RegExp.isLineTerminator c then None
          else matchNumbered S (before +:+ String c EmptyString) rest
      end
  end.

(** [parseInt(digits, 10)] on a string of digits. *)
Definition parseInt (digits : string) : Z :=
  fold_left (fun acc c => (10 * acc + Z.of_nat (nat_of_ascii c - 48))%Z)
            (list_ascii_of_string digits) 0%Z.

Definition parseGrepLine (cwd resolvedRoot line : string) : option GrepMatch :=
  match matchNumbered ":" EmptyString line with
  | Some (file, num, content) =>
      Some (mkGrepMatch (Path.relative cwd resolvedRoot file) (parseInt num)
                        content false)
  | None =>
      match matchNumbered "-" EmptyString line with
      | Some (file, num, content) =>
          Some (mkGrepMatch (Path.relative cwd resolvedRoot file) (parseInt num)
                            content true)
      | None => None
      end
  end.

Fixpoint filterMap {A B : Type} (f : A -> option B) (l : list A) : list B :=
  match l with
  | [] => []
  | x :: rest =>
      match f x with
      | Some y => y :: filterMap f rest
      | None => filterMap f rest
      end
  end.

Definition parseGrepOutput (cwd resolvedRoot grepOutput : string)
  : list GrepMatch :=
  if Js.truthy grepOutput then
    filterMap (parseGrepLine cwd resolvedRoot)
              (filter trimTruthy (Js.split (ascii_of_nat 10) grepOutput))
  else [].

(** Property names every plain object inherits: [byFile[name]] is truthy
    for them before anything is stored, and is not an array. *)
Definition objectPrototypeKeys : list string :=
  ["constructor"; "__defineGetter__"; "__defineSetter__"; "hasOwnProperty";
   "__lookupGetter__"; "__lookupSetter__"; "isPrototypeOf";
   "propertyIsEnumerable"; "toString"; "valueOf"; "__proto__";
   "toLocaleString"].

Fixpoint pushByFile (file : string) (line : GroupedLine)
         (byFile : list (string * list GroupedLine))
  : list (string * list GroupedLine) :=
  match byFile with
  | [] => [(file, [line])]
  | (f, ls) :: rest =>
      if f =? file then (f, ls ++ [line]) :: rest
      else (f, ls) :: pushByFile file line rest
  end.

(** The grouping loop; own keys are kept in insertion order. *)
Fixpoint groupByFile (matches : list GrepMatch)
         (byFile : list (string * list GroupedLine))
  : NodeError + list (string * list GroupedLine) :=
  match matches with
  | [] => inr byFile
  | m :: rest =>
      if existsb (String.eqb (gm_file m)) objectPrototypeKeys
      then inl (TypeError "byFile[match.file].push is not a function")
      else groupByFile rest
             (pushByFile (gm_file m)
                (mkGroupedLine (gm_lineNumber m) (gm_content m) (gm_isContext m))
                byFile)
  end.

(* ------------------------------------------------------------------ *)
(** ** [formatSize]

    [bytes] is a file size: an integer with [0 <= bytes < 2^53].  The
    loop divides by 1024, a power of two, so every intermediate [size] is
    the exact quotient [bytes / 1024^unitIndex]; it is kept as the pair of
    [bytes] and the divisor.  [toFixed] rounds the exact value to the
    nearest multiple of [10^-digits], the larger one on a tie. *)

Definition units : list string := ["B"; "KB"; "MB"; "GB"].

(** The [while] loop: [remaining] is [units.length - 1 - unitIndex], the
    number of times the second test can still hold.  Returns the divisor
    and the unit index the loop ends with. *)
Fixpoint formatSizeLoop (remaining : nat) (bytes divisor : Z) (unitIndex : nat)
  : Z * nat :=
  match remaining with
  | O => (divisor, unitIndex)
  | S remaining' =>
      if (bytes >=? 1024 * divisor)%Z
      then formatSizeLoop remaining' bytes (1024 * divisor)%Z (S unitIndex)
      else (divisor, unitIndex)
  end.

(** The integer [n] for which [n / 10^digits] is nearest to
    [num / den], the larger one of two. *)
Definition toFixedDigits (num den : Z) (digits : nat) : Z :=
  ((2 * num * 10 ^ Z.of_nat digits + den) / (2 * den))%Z.

(** [(num / den).toFixed(digits)] for [digits] 0 or 1 and a value that is
    not negative. *)
Definition toFixed (num den : Z) (digits : nat) : string :=
  let n := toFixedDigits num den digits in
  match digits with
  | O => numberToString n
  | _ => numberToString (n / 10) +:+ "." +:+ numberToString (n mod 10)
  end.

Definition formatSize (bytes : Z) : string :=
  let '(divisor, unitIndex) :=
    formatSizeLoop (length units - 1) bytes 1 0 in
  toFixed bytes divisor (match unitIndex with O => 0 | _ => 1 end)
  +:+ " " +:+ nth unitIndex units "".

(* ------------------------------------------------------------------ *)
(** ** [execute], for one input item *)

(** Sequencing of a step that may throw. *)
Notation "'try!' x ':=' e 'in' k" :=
  (match e with inl err => inl err | inr x => k end)
  (at level 10, x name, e at level 100, k at level 200,
   format "'[v' 'try!'  x  ':='  e  'in' '/' k ']'").

Section Execute.

Variable host : Host.t.
Variable params : Params.t.

Let cwd := Host.cwd host.
Let root := Host.fs host.

Definition entryType (entry : Dirent.t) : EntryType :=
  if Dirent.isDirectory entry then TDirectory
  else if Dirent.isFile entry then TFile
  else if Dirent.isSymbolicLink entry then TSymlink
  else TOther.

Definition isDirectoryType (t : EntryType) : bool :=
  match t with TDirectory => true | _ => false end.
Definition isFileType (t : EntryType) : bool :=
  match t with TFile => true | _ => false end.

(** The comparator of [files.sort] in the listDirectory case. *)
Definition compareFiles (a b : FileEntry) : comparison :=
  if isDirectoryType (fe_type a) && negb (isDirectoryType (fe_type b)) then Lt
  else if negb (isDirectoryType (fe_type a)) && isDirectoryType (fe_type b) then Gt
  else Host.localeCompare host (fe_name a) (fe_name b).

Definition listDirectoryCase (resolvedRoot : string) : NodeError + Result :=
  let targetPath := Params.path params in
  try! fullPath := validatePath cwd resolvedRoot (Js.orElse targetPath ".") in
  match getStats root fullPath with
  | None =>
      inr (NotFound "listDirectory" (Js.orElse targetPath ".")
             ("Directory not found: " +:+ Js.orElse targetPath ".") None None)
  | Some dirStats =>
      if negb (Stats.isDirectory dirStats) then
        inr (NotFound "listDirectory" (Js.orElse targetPath ".")
               ("Path exists but is not a directory: " +:+ targetPath)
               (Some (Stats.isFile dirStats)) None)
      else
        match Fs.readdirSync root fullPath with
        | None => inl (FsError fullPath)
        | Some entries =>
            let files :=
              map (fun entry =>
                     let entryPath := Path.join [fullPath; Dirent.name entry] in
                     let stats := getStats root entryPath in
                     mkFileEntry (Dirent.name entry) (entryType entry)
                       (match stats with
                        | Some st =>
                            if Dirent.isFile entry then Some (Stats.size st)
                            else None
                        | None => None
                        end))
                  entries in
            let files := Array.sort compareFiles files in
            inr (ListDirectory (Js.orElse targetPath ".")
                   (Z.of_nat (length files))
                   (Z.of_nat (length (filter (fun f => isDirectoryType (fe_type f)) files)))
                   (Z.of_nat (length (filter (fun f => isFileType (fe_type f)) files)))
                   files)
        end
  end.

Definition readFileCase (resolvedRoot : string) : NodeError + Result :=
  let targetPath := Params.path params in
  let maxLines := Params.maxLines params in
  let lineOffset := Params.lineOffset params in
  if negb (Js.truthy targetPath) then
    inr (NotFound "readFile" "" "Path is required for readFile operation"
           None None)
  else
    try! fullPath := validatePath cwd resolvedRoot targetPath in
    match getStats root fullPath with
    | None =>
        inr (NotFound "readFile" targetPath ("File not found: " +:+ targetPath)
               None None)
    | Some stats =>
        if negb (Stats.isFile stats) then
          inr (NotFound "readFile" targetPath
                 ("Path exists but is not a file: " +:+ targetPath)
                 None (Some (Stats.isDirectory stats)))
        else
          match Fs.readFileSync root fullPath with
          | None => inl (FsError fullPath)
          | Some content =>
              let lines := Js.split (ascii_of_nat 10) content in
              let totalLines := Z.of_nat (length lines) in
              let lines :=
                if (lineOffset >? 0)%Z then Array.sliceFrom lineOffset lines
                else lines in
              let lines :=
                if (maxLines >? 0)%Z then Array.sliceTo maxLines lines
                else lines in
              let numberedLines :=
                Array.mapi
                  (fun idx line =>
                     mkNumberedLine (lineOffset + Z.of_nat idx + 1)%Z line)
                  lines in
              inr (ReadFile targetPath totalLines (Z.of_nat (length lines))
                     lineOffset (Stats.size stats) (Js.join newline lines)
                     numberedLines)
          end
    end.

Definition grepCase (resolvedRoot : string) : NodeError + Result :=
  let searchPattern := Params.searchPattern params in
  let targetPath := Params.path params in
  let filePattern := Params.filePattern params in
  let caseInsensitive := Params.caseInsensitive params in
  let contextLines := Params.contextLines params in
  if negb (Js.truthy searchPattern) then inl SearchPatternRequired
  else
    try! fullPath := validatePath cwd resolvedRoot (Js.orElse targetPath ".") in
    let grepCmd :=
      grepCommand caseInsensitive contextLines filePattern searchPattern
                  fullPath in
    let grepOutput := grepOutputOf (Host.execSync host grepCmd) in
    let matches := parseGrepOutput cwd resolvedRoot grepOutput in
    try! byFile := groupByFile matches [] in
    inr (Grep searchPattern (Js.orElse targetPath ".") filePattern
           caseInsensitive
           (Z.of_nat (length (filter (fun m => negb (gm_isContext m)) matches)))
           (Z.of_nat (length byFile))
           byFile matches).

Definition findFilesCase (resolvedRoot : string) : NodeError + Result :=
  let namePattern := Params.namePattern params in
  let targetPath := Params.path params in
  try! fullPath := validatePath cwd resolvedRoot (Js.orElse targetPath ".") in
  match globToRegex namePattern with
  | None => inl (TypeError "Invalid regular expression")
  | Some regex =>
      let foundFiles :=
        match Fs.nodeAt root fullPath with
        | Some dir =>
            findFilesRecursive cwd dir fullPath regex [] resolvedRoot 1000
        | None => []
        end in
      inr (FindFiles namePattern (Js.orElse targetPath ".")
             (Z.of_nat (length foundFiles)) foundFiles)
  end.

Definition fileInfoCase (resolvedRoot : string) : NodeError + Result :=
  let targetPath := Params.path params in
  if negb (Js.truthy targetPath) then
    inr (NotExists "fileInfo" "" "Path is required for fileInfo operation")
  else
    try! fullPath := validatePath cwd resolvedRoot targetPath in
    match getStats root fullPath with
    | None =>
        inr (NotExists "fileInfo" targetPath ("Path not found: " +:+ targetPath))
    | Some stats =>
        inr (FileInfo targetPath (Stats.isFile stats) (Stats.isDirectory stats)
               (Stats.isSymbolicLink stats) (Stats.size stats))
    end.

Definition treeCase (resolvedRoot : string) : NodeError + Result :=
  let targetPath := Params.path params in
  let maxDepth := Z.max 1 (Z.min 10 (Params.maxDepth params)) in
  try! fullPath := validatePath cwd resolvedRoot (Js.orElse targetPath ".") in
  match getStats root fullPath with
  | None =>
      inr (NotFound "tree" (Js.orElse targetPath ".")
             ("Directory not found: " +:+ Js.orElse targetPath ".") None None)
  | Some stats =>
      if negb (Stats.isDirectory stats) then
        inr (NotFound "tree" (Js.orElse targetPath ".")
               ("Path exists but is not a directory: " +:+ targetPath)
               (Some (Stats.isFile stats)) None)
      else
        let treeLines :=
          match Fs.nodeAt root fullPath with
          | Some dir => buildTree (Host.localeCompare host) dir 1 maxDepth ""
          | None => ["[Permission denied]"]
          end in
        let rootName := Js.orElse targetPath (Path.basename resolvedRoot) in
        inr (Tree (Js.orElse targetPath ".") maxDepth
               (rootName +:+ "/" +:+ newline +:+ Js.join newline treeLines)
               ((rootName +:+ "/") :: treeLines))
  end.

(** The body of [execute]'s loop for one item.  An exception that
    leaves it is what the node raises (or, with continue-on-fail, turns
    into an error record). *)
Definition execute : NodeError + Result :=
  let rootPath := Params.rootPath params in
  let operation := Params.operation params in
  if negb (Js.truthy rootPath) then inl RootPathRequired
  else
    let resolvedRoot := Path.resolve cwd [rootPath] in
    match getStats root resolvedRoot with
    | None => inl (RootNotDirectory resolvedRoot)
    | Some rootStats =>
        if negb (Stats.isDirectory rootStats)
        then inl (RootNotDirectory resolvedRoot)
        else if operation =? "listDirectory" then listDirectoryCase resolvedRoot
        else if operation =? "readFile" then readFileCase resolvedRoot
        else if operation =? "grep" then grepCase resolvedRoot
        else if operation =? "findFiles" then findFilesCase resolvedRoot
        else if operation =? "fileInfo" then fileInfoCase resolvedRoot
        else if operation =? "tree" then treeCase resolvedRoot
        else inl (UnknownOperation operation)
    end.

End Execute.

(* ------------------------------------------------------------------ *)
(** ** [execute], over all input items *)

(** One element of [returnData]: the result record of an item, or, with
    continue-on-fail, the record that holds the message of the error the
    item raised and the index of the item it is paired with. *)
Inductive ItemOutput : Type :=
| ItemResult (json : Result)
| ItemError (error : NodeError) (pairedItem : nat).

(** The [for] loop of [execute] from item [itemIndex] on.  Without
    continue-on-fail the first error leaves the loop, paired with the
    index of its item, and [returnData] is not returned. *)
Fixpoint executeItems (host : Host.t) (continueOnFail : bool)
         (itemIndex : nat) (items : list Params.t)
         (returnData : list ItemOutput)
  : (nat * NodeError) + list ItemOutput :=
  match items with
  | [] => inr returnData
  | params :: rest =>
      match execute host params with
      | inr result =>
          executeItems host continueOnFail (S itemIndex) rest
                       (returnData ++ [ItemResult result])
      | inl error =>
          if continueOnFail
          then executeItems host continueOnFail (S itemIndex) rest
                            (returnData ++ [ItemError error itemIndex])
          else inl (itemIndex, error)
      end
  end.

(** The node's [execute]: all items, from an empty [returnData]. *)
Definition executeAll (host : Host.t) (continueOnFail : bool)
           (items : list Params.t) : (nat * NodeError) + list ItemOutput :=
  executeItems host continueOnFail 0 items [].

(* ================================================================== *)
(** * Specification-side notions *)

(** A resolved path lies inside the sandbox: it is the resolved root, or
    continues it after a path separator. *)
Definition insideRoot (resolvedRoot resolved : string) : Prop :=
  resolved = resolvedRoot
  \/ exists rest, resolved = (resolvedRoot +:+ Path.sep) +:+ rest.

(** Two characters are the same letter up to case. *)
Definition sameLetter (a c : ascii) : Prop :=
  RegExp.toUpper a = RegExp.toUpper c.

(** Glob matching as the interface describes it: the whole name is
    matched; a star stands for any run of characters, a question mark
    for exactly one, any other character for itself up to case. *)
Inductive GlobMatch : string -> string -> Prop :=
| GlobEnd : GlobMatch "" ""
| GlobStarNone p s :
    GlobMatch p s -> GlobMatch (String "*" p) s
| GlobStarMore p c s :
    GlobMatch (String "*" p) s -> GlobMatch (String "*" p) (String c s)
| GlobQuestion p c s :
    GlobMatch p s -> GlobMatch (String "?" p) (String c s)
| GlobChar a p c s :
    a <> "*"%char -> a <> "?"%char -> sameLetter a c ->
    GlobMatch p s -> GlobMatch (String a p) (String c s).

(** The term a glob character compiles to. *)
Definition globTerm (c : ascii) : RegExp.term :=
  if Ascii.eqb c "*" then RegExp.Star RegExp.AnyChar
  else if Ascii.eqb c "?" then RegExp.One RegExp.AnyChar
  else RegExp.One (RegExp.Char c).

Definition globTerms (glob : string) : list RegExp.term :=
  map globTerm (list_ascii_of_string glob).

(** What the three [replace] calls make of a glob. *)
Definition escapedBody (glob : string) : string :=
  replaceQuestion (replaceStar (replaceEscaped glob)).

(** ** Sample inputs

    A repository laid out like the test fixture, served under
    [/srv/repo].  The listings are in the order the directory read
    returns them, which need not be sorted. *)

Definition sampleFile (content : string) : node :=
  File (Z.of_nat (String.length content)) (Some content).

Definition sampleRepo : node :=
  Dir 4096 (Some
    [ ("package.json", sampleFile "{ }");
      ("src", Dir 4096 (Some
         [ ("index.ts", sampleFile ("import a" +:+ newline +:+ "export b" +:+ newline));
           ("utils", Dir 4096 (Some
              [ ("helpers.ts", sampleFile "export function formatDate");
                ("constants.ts", sampleFile "export const APP_NAME") ]));
           ("components", Dir 4096 (Some
              [ ("Input.ts", sampleFile "export interface InputProps");
                ("Button.ts", sampleFile "export class Button") ])) ]));
      (".git", Dir 4096 (Some [ ("HEAD", sampleFile "ref") ]));
      ("docs", Dir 4096 (Some
         [ ("api.md", sampleFile "# API"); ("README.md", sampleFile "# Mock") ]));
      ("node_modules", Dir 4096 (Some [ ("dep.ts", sampleFile "x") ]));
      ("locked", Dir 4096 None) ]).

Definition sampleFs : node :=
  Dir 4096 (Some [ ("srv", Dir 4096 (Some [ ("repo", sampleRepo) ])) ]).

(** Comparison by code units, standing in for a collation. *)
Definition codeUnitCompare (a b : string) : comparison := String.compare a b.

(** A grep process that rejects its pattern: exit status 2, the
    complaint on standard error, nothing on standard output. *)
Definition grepRejects (command : string) : ExecOutcome :=
  Threw (Some 2%Z) (Some "").

Definition sampleHost : Host.t :=
  Host.mk "/home/node" sampleFs grepRejects codeUnitCompare.

Definition sampleParams (operation path : string) : Params.t :=
  Params.mk "/srv/repo" operation path 0 0 "" "*" false 0 "*" 3.

(** A grep call whose pattern is an unbalanced parenthesis. *)
Definition malformedGrep : Params.t :=
  Params.mk "/srv/repo" "grep" "src" 0 0 "(" "*" false 0 "*" 3.

(** ** The files a search should find

    [matchingFiles] enumerates, without any cap, the files below a
    directory that [findFiles] is after: entries are taken in the order the
    directory lists them; an entry whose name starts with a dot or is
    [node_modules] is left out with all that is below it; a directory
    stands for its own enumeration, in place; any other entry stands for
    its path relative to the root when its name matches the pattern. *)
Fixpoint matchingFiles (cwd : string) (dir : node) (dirPath : string)
         (pattern : RegExp.t) (rootPath : string) {struct dir} : list string :=
  match dir with
  | Dir _ (Some entries) =>
      (fix each (entries : list (string * node)) : list string :=
         match entries with
         | [] => []
         | (name, child) :: rest =>
             (if hidden name then []
              else
                match child with
                | Dir _ _ =>
                    matchingFiles cwd child (Path.join [dirPath; name]) pattern
                                  rootPath
                | _ =>
                    if RegExp.test pattern name
                    then [Path.relative cwd rootPath (Path.join [dirPath; name])]
                    else []
                end)
             ++ each rest
         end) entries
  | _ => []
  end.

(** The same enumeration for a list of entries of the directory at
    [dirPath]. *)
Fixpoint matchingAmong (cwd : string) (entries : list (string * node))
         (dirPath : string) (pattern : RegExp.t) (rootPath : string)
  : list string :=
  match entries with
  | [] => []
  | (name, child) :: rest =>
      (if hidden name then []
       else
         match child with
         | Dir _ _ =>
             matchingFiles cwd child (Path.join [dirPath; name]) pattern rootPath
         | _ =>
             if RegExp.test pattern name
             then [Path.relative cwd rootPath (Path.join [dirPath; name])]
             else []
         end)
      ++ matchingAmong cwd rest dirPath pattern rootPath
  end.

(** The [for] loop of [findFilesRecursive] over the entries of the
    directory at [dirPath]. *)
Fixpoint findFilesLoop (cwd : string) (entries : list (string * node))
         (dirPath : string) (pattern : RegExp.t) (results : list string)
         (rootPath : string) (maxResults : Z) : list string :=
  match entries with
  | [] => results
  | (name, child) :: rest =>
      if (Z.of_nat (length results) >=? maxResults)%Z then results
      else if Js.startsWith name "." || (name =? "node_modules")
      then findFilesLoop cwd rest dirPath pattern results rootPath maxResults
      else
        let fullPath := Path.join [dirPath; name] in
        let relativePath := Path.relative cwd rootPath fullPath in
        match child with
        | Dir _ _ =>
            findFilesLoop cwd rest dirPath pattern
              (findFilesRecursive cwd child fullPath pattern results rootPath
                 maxResults)
              rootPath maxResults
        | _ =>
            if RegExp.test pattern name
            then findFilesLoop cwd rest dirPath pattern (results ++ [relativePath])
                   rootPath maxResults
            else findFilesLoop cwd rest dirPath pattern results rootPath maxResults
        end
  end.

(** Nesting depth of a node. *)
Fixpoint height (n : node) : nat :=
  match n with
  | Dir _ (Some entries) =>
      S ((fix each (entries : list (string * node)) : nat :=
            match entries with
            | [] => 0
            | (_, child) :: rest => Nat.max (height child) (each rest)
            end) entries)
  | Symlink (Some target) => S (height target)
  | _ => 0
  end.

(** A tree with every level rearranged the way the tree view orders it:
    directories first, then by name. *)
Fixpoint sortLevels (localeCompare : string -> string -> comparison)
         (n : node) : node :=
  match n with
  | Dir sz (Some entries) =>
      Dir sz
        (Some
           (Array.sort (compareEntries localeCompare)
              ((fix each (entries : list (string * node)) :=
                  match entries with
                  | [] => []
                  | (name, child) :: rest =>
                      (name, sortLevels localeCompare child) :: each rest
                  end) entries)))
  | _ => n
  end.

(** The pattern [*] compiled. *)
Definition starRegex : RegExp.t :=
  RegExp.mk [RegExp.Begin; RegExp.Star RegExp.AnyChar; RegExp.End] true.

(** A directory that holds the file [a.ts] and the subdirectory [b],
    listed by name in code-unit order, which is the order the directory
    read of a POSIX host returns: the file comes before the
    subdirectory. *)
Definition fileBeforeDir : node :=
  Dir 4096 (Some
    [ ("a.ts", sampleFile "a");
      ("b", Dir 4096 (Some [ ("x.ts", sampleFile "x") ])) ]).

(** ** Reading a rendered tree *)

(** The text that follows the connector on an entry's line. *)
Definition entryText (e : Dirent.t) : string :=
  if Dirent.isDirectory e then Dirent.name e +:+ "/" else Dirent.name e.

Definition isConnector (s : string) : Prop :=
  s = connectorMid \/ s = connectorLast.

Definition isChildPrefix (s : string) : Prop :=
  s = childPrefixMid \/ s = childPrefixLast.

(** [Indentation n s]: [s] is made of [n] continuation blocks. *)
Inductive Indentation : nat -> string -> Prop :=
| IndentNone : Indentation 0 ""
| IndentMore n block rest :
    isChildPrefix block -> Indentation n rest ->
    Indentation (S n) (block +:+ rest).

(** [EntryAt dir k e]: [e] is an entry [k] levels below [dir] (its
    children are at level 1), reached through directories that can be
    read, none of the names on the way, its own included, being hidden. *)
Inductive EntryAt : node -> nat -> Dirent.t -> Prop :=
| EntryChild dir entries e :
    Fs.readdir (Some dir) = Some entries ->
    In e entries -> hidden (Dirent.name e) = false ->
    EntryAt dir 1 e
| EntryBelow dir entries sub k e :
    Fs.readdir (Some dir) = Some entries ->
    In sub entries -> hidden (Dirent.name sub) = false ->
    Dirent.isDirectory sub = true ->
    EntryAt (snd sub) k e ->
    EntryAt dir (S k) e.

(** [line] shows the entry [e] at level [k]: [k - 1] continuation blocks,
    a connector, the entry's text. *)
Definition ShowsEntry (k : nat) (e : Dirent.t) (line : string) : Prop :=
  exists indent connector,
    Indentation (k - 1) indent /\ isConnector connector
    /\ line = indent +:+ connector +:+ entryText e.

(** [line] is the placeholder of an unreadable directory, standing at
    level [k]. *)
Definition ShowsPlaceholder (k : nat) (line : string) : Prop :=
  exists indent,
    Indentation (k - 1) indent /\ line = indent +:+ "[Permission denied]".

(** The lines of one level of a rendering made with [prefix]: those that
    continue [prefix] with a connector. *)
Definition isEntryLineAt (prefix line : string) : bool :=
  Js.startsWith line (prefix +:+ connectorMid)
  || Js.startsWith line (prefix +:+ connectorLast).

(** The line of the entry at position [index] among [count] entries. *)
Definition entryLine (prefix : string) (count index : nat) (e : Dirent.t)
  : string :=
  prefix
  +:+ (if (Z.of_nat index =? Z.of_nat count - 1)%Z then connectorLast
       else connectorMid)
  +:+ entryText e.

(** [a] does not come after [b] in the collation. *)
Definition notAfter (localeCompare : string -> string -> comparison)
           (a b : Dirent.t) : Prop :=
  localeCompare (Dirent.name a) (Dirent.name b) <> Gt.

(** The continuation block below the entry at position [index] among
    [count] entries. *)
Definition childPrefixAt (count index : nat) : string :=
  if (Z.of_nat index =? Z.of_nat count - 1)%Z then childPrefixLast
  else childPrefixMid.

(** The lines one entry contributes to [buildTree]'s output: its own
    line, then, for a directory above the depth limit, the lines of its
    subtree. *)
Definition treeBlock (localeCompare : string -> string -> comparison)
           (currentDepth maxDepth : Z) (prefix : string) (count index : nat)
           (entry : Dirent.t) : list string :=
  entryLine prefix count index entry
  :: (if Dirent.isDirectory entry && (currentDepth <? maxDepth)%Z
      then buildTree localeCompare (snd entry) (currentDepth + 1) maxDepth
                     (prefix +:+ childPrefixAt count index)
      else []).

(** How many more results the cap allows once [results] are collected. *)
Definition room (maxResults : Z) (results : list string) : nat :=
  Z.to_nat maxResults - length results.

(** The order [entries.sort] establishes in [buildTree]: [a] may stand
    before [b]. *)
Definition inOrder (localeCompare : string -> string -> comparison)
           (a b : Dirent.t) : Prop :=
  compareEntries localeCompare a b <> Gt.

(** ** Further notions *)

(** A path segment that names an entry: not empty, not [.] or [..], and
    without a separator. *)
Fixpoint noSlash (s : string) : bool :=
  match s with
  | EmptyString => true
  | String c rest => negb (Ascii.eqb c "/") && noSlash rest
  end.

Definition plainName (s : string) : bool :=
  negb (s =? "") && negb (s =? ".") && negb (s =? "..") && noSlash s.

(** [FileBelow dir dirPath name fullPath]: below the directory [dir] at
    [dirPath] there is an entry that is not a directory, called [name],
    at [fullPath], and neither its name nor the name of a directory on
    the way to it starts with a dot or is [node_modules]. *)
Inductive FileBelow : node -> string -> string -> string -> Prop :=
| FileHere sz entries dirPath name child :
    In (name, child) entries -> hidden name = false ->
    Dirent.isDirectory (name, child) = false ->
    FileBelow (Dir sz (Some entries)) dirPath name (Path.join [dirPath; name])
| FileDeeper sz entries dirPath sub child name fullPath :
    In (sub, child) entries -> hidden sub = false ->
    Dirent.isDirectory (sub, child) = true ->
    FileBelow child (Path.join [dirPath; sub]) name fullPath ->
    FileBelow (Dir sz (Some entries)) dirPath name fullPath.

(** [Subsequence a b]: [a] is [b] with some elements left out. *)
Inductive Subsequence {A : Type} : list A -> list A -> Prop :=
| SubNil : Subsequence [] []
| SubKeep x a b : Subsequence a b -> Subsequence (x :: a) (x :: b)
| SubSkip x a b : Subsequence a b -> Subsequence a (x :: b).

(** The lines of [matches] that belong to [file], as the grouping stores
    them. *)
Definition linesOfFile (file : string) (matches : list GrepMatch)
  : list GroupedLine :=
  map (fun m => mkGroupedLine (gm_lineNumber m) (gm_content m) (gm_isContext m))
      (filter (fun m => gm_file m =? file) matches).

(** What is stored under [file] in the grouping, if anything. *)
Fixpoint lookupFile (file : string) (byFile : list (string * list GroupedLine))
  : option (list GroupedLine) :=
  match byFile with
  | [] => None
  | (f, ls) :: rest => if f =? file then Some ls else lookupFile file rest
  end.

Fixpoint allDigits (s : string) : bool :=
  match s with
  | EmptyString => true
  | String c rest => isDigit c && allDigits rest
  end.

Fixpoint lacks (c : ascii) (s : string) : bool :=
  match s with
  | EmptyString => true
  | String d rest => negb (Ascii.eqb d c) && lacks c rest
  end.

(** The order [files.sort] establishes in the listDirectory case. *)
Definition filesInOrder (host : Host.t) (a b : FileEntry) : Prop :=
  compareFiles host a b <> Gt.

(** [a] does not come after [b] by name. *)
Definition nameNotAfter (host : Host.t) (a b : FileEntry) : Prop :=
  Host.localeCompare host (fe_name a) (fe_name b) <> Gt.

(** What the loop of [execute] pushes for the item at [itemIndex] when
    the node continues on failure. *)
Definition itemOutput (host : Host.t) (itemIndex : nat) (params : Params.t)
  : ItemOutput :=
  match execute host params with
  | inr result => ItemResult result
  | inl error => ItemError error itemIndex
  end.


(** A directory tree named the way a filesystem names it: within a
    directory every name is a plain segment and occurs once, and so on
    below. *)
#[warnings="-register-all"]
Inductive WellNamed : node -> Prop :=
| WellNamedFile sz content : WellNamed (File sz content)
| WellNamedLink target : WellNamed (Symlink target)
| WellNamedOther sz : WellNamed (Other sz)
| WellNamedUnreadable sz : WellNamed (Dir sz None)
| WellNamedDir sz entries :
    NoDup (map fst entries) ->
    Forall (fun e => plainName (fst e) = true /\ WellNamed (snd e)) entries ->
    WellNamed (Dir sz (Some entries)).

(** [FoundEntry dir dirPath name child fullPath]: [FileBelow] with the
    entry itself: [(name, child)] is listed in [dir] or in a directory
    reached from [dir] through listed subdirectories, none of the names on
    the way (nor [name]) starts with a dot or is [node_modules], [child]
    is not a directory, and [fullPath] is [dirPath] joined with the names
    on the way and [name]. *)
Inductive FoundEntry : node -> string -> string -> node -> string -> Prop :=
| FoundHere sz entries dirPath name child :
    In (name, child) entries -> hidden name = false ->
    Dirent.isDirectory (name, child) = false ->
    FoundEntry (Dir sz (Some entries)) dirPath name child
               (Path.join [dirPath; name])
| FoundDeeper sz entries dirPath sub subdir name child fullPath :
    In (sub, subdir) entries -> hidden sub = false ->
    Dirent.isDirectory (sub, subdir) = true ->
    FoundEntry subdir (Path.join [dirPath; sub]) name child fullPath ->
    FoundEntry (Dir sz (Some entries)) dirPath name child fullPath.

(* ================================================================== *)
(** * Properties *)

(** ** Strings *)

Lemma startsWith_iff (s p : string) :
  Js.startsWith s p = true <-> exists rest, s = p +:+ rest.
Proof.
  revert s; induction p as [|b p IH]; intros s; simpl.
  - split; [intros _; now exists s | reflexivity].
  - destruct s as [|a s].
    + split; [discriminate | intros [r Hr]; discriminate].
    + rewrite andb_true_iff, Ascii.eqb_eq, IH.
      split.
      * intros [-> [r ->]]. now exists r.
      * intros [r Hr]. injection Hr as -> ->. split; [reflexivity | now exists r].
Qed.

Lemma startsWith_own_prefix (p rest : string) :
  Js.startsWith (p +:+ rest) p = true.
Proof. apply startsWith_iff. now exists rest. Qed.

Lemma startsWith_append (p s q : string) :
  Js.startsWith (p +:+ s) (p +:+ q) = Js.startsWith s q.
Proof.
  induction p as [|c p IH]; simpl; [reflexivity|].
  now rewrite Ascii.eqb_refl, IH.
Qed.

Lemma append_assoc (a b c : string) : (a +:+ b) +:+ c = a +:+ b +:+ c.
Proof. induction a as [|x a IH]; simpl; [reflexivity | now rewrite IH]. Qed.

Lemma append_empty_r (a : string) : a +:+ "" = a.
Proof. induction a as [|x a IH]; simpl; [reflexivity | now rewrite IH]. Qed.

(** ** C1: the sandbox check *)

Lemma validatePath_decides (cwd rootPath relativePath : string) :
  let resolvedRoot := Path.resolve cwd [rootPath] in
  let resolved := Path.resolve cwd [resolvedRoot; relativePath] in
  (insideRoot resolvedRoot resolved
   /\ validatePath cwd rootPath relativePath = inr resolved)
  \/ (~ insideRoot resolvedRoot resolved
      /\ validatePath cwd rootPath relativePath
         = inl (PathTraversal relativePath resolved resolvedRoot)).
Proof.
  intros resolvedRoot resolved.
  assert (Hdec : negb (Js.startsWith resolved (resolvedRoot +:+ Path.sep))
                 && negb (resolved =? resolvedRoot) = false
                 <-> insideRoot resolvedRoot resolved).
  { unfold insideRoot.
    rewrite andb_false_iff, !negb_false_iff, startsWith_iff, String.eqb_eq.
    tauto. }
  unfold validatePath. fold resolvedRoot. fold resolved.
  destruct (negb (Js.startsWith resolved (resolvedRoot +:+ Path.sep))
            && negb (resolved =? resolvedRoot)) eqn:E.
  - right. split; [|reflexivity].
    intros Hin. apply Hdec in Hin. discriminate.
  - left. split; [now apply Hdec | reflexivity].
Qed.

(** C1.  [validatePath] returns the lexically resolved path exactly when
    that path is the resolved root or continues it after the separator,
    and otherwise fails with the path-traversal error that names the
    input, the resolved path and the root.  The function reads the
    working directory and its two arguments only, never the filesystem. *)
Theorem validatePath_accepts_iff_inside (cwd rootPath relativePath : string) :
  let resolvedRoot := Path.resolve cwd [rootPath] in
  let resolved := Path.resolve cwd [resolvedRoot; relativePath] in
  (validatePath cwd rootPath relativePath = inr resolved
   <-> insideRoot resolvedRoot resolved)
  /\ (validatePath cwd rootPath relativePath
      = inl (PathTraversal relativePath resolved resolvedRoot)
      <-> ~ insideRoot resolvedRoot resolved)
  /\ (forall p, validatePath cwd rootPath relativePath = inr p -> p = resolved).
Proof.
  intros resolvedRoot resolved.
  destruct (validatePath_decides cwd rootPath relativePath)
    as [[Hin Hv] | [Hout Hv]]; fold resolvedRoot resolved in Hin || idtac;
    rewrite Hv; repeat split; try discriminate; try tauto;
    intros p Hp; now injection Hp.
Qed.

(** The three attacks of the test suite, against the root [/srv/repo]. *)
Example validatePath_rejects_dotdot :
  validatePath "/home/node" "/srv/repo" "../../../etc/passwd"
  = inl (PathTraversal "../../../etc/passwd" "/etc/passwd" "/srv/repo").
Proof. reflexivity. Qed.

Example validatePath_rejects_absolute :
  validatePath "/home/node" "/srv/repo" "/etc/passwd"
  = inl (PathTraversal "/etc/passwd" "/etc/passwd" "/srv/repo").
Proof. reflexivity. Qed.

Example validatePath_rejects_mixed :
  validatePath "/home/node" "/srv/repo" "src/../../etc/passwd"
  = inl (PathTraversal "src/../../etc/passwd" "/srv/etc/passwd" "/srv/repo").
Proof. reflexivity. Qed.

Example validatePath_accepts_nested :
  validatePath "/home/node" "/srv/repo" "src/components/Button.ts"
  = inr "/srv/repo/src/components/Button.ts"
  /\ validatePath "/home/node" "/srv/repo" "." = inr "/srv/repo".
Proof. split; reflexivity. Qed.

(** A sibling directory whose name merely extends the root's is outside. *)
Example validatePath_rejects_sibling :
  validatePath "/home/node" "/srv/repo" "../repo2/x"
  = inl (PathTraversal "../repo2/x" "/srv/repo2/x" "/srv/repo").
Proof. reflexivity. Qed.

(** With the filesystem root as sandbox root the check admits the root
    itself only: [resolvedRoot + path.sep] is then two separators. *)
Example validatePath_filesystem_root :
  validatePath "/home/node" "/" "etc" = inl (PathTraversal "etc" "/etc" "/")
  /\ validatePath "/home/node" "/" "." = inr "/".
Proof. split; reflexivity. Qed.

Lemma split_nonempty (sep : ascii) (s : string) : Js.split sep s <> [].
Proof.
  destruct s as [|c s]; simpl; [discriminate|].
  destruct (Ascii.eqb c sep); [discriminate|].
  destruct (Js.split sep s); discriminate.
Qed.

Lemma split_append (sep : ascii) (a b : string) :
  Js.split sep (a +:+ String sep b) = Js.split sep a ++ Js.split sep b.
Proof.
  induction a as [|c a IH]; simpl.
  - now rewrite Ascii.eqb_refl.
  - destruct (Ascii.eqb c sep); [now rewrite IH|].
    rewrite IH. destruct (Js.split sep a) as [|h t] eqn:Ha; [|reflexivity].
    now elim (split_nonempty sep a).
Qed.

(** What the check lets through lies below the root segment by segment:
    the accepted path's segments continue the resolved root's. *)
Lemma validatePath_result_below_root (cwd rootPath relativePath p : string) :
  validatePath cwd rootPath relativePath = inr p ->
  exists below,
    Path.segments p = Path.segments (Path.resolve cwd [rootPath]) ++ below.
Proof.
  intros Hp.
  destruct (validatePath_decides cwd rootPath relativePath)
    as [[Hin Hv] | [_ Hv]]; rewrite Hv in Hp; [|discriminate].
  injection Hp as <-. destruct Hin as [-> | [rest ->]].
  - exists []. now rewrite app_nil_r.
  - exists (Path.segments rest). unfold Path.segments, Path.sep.
    rewrite append_assoc. simpl String.append at 2.
    now rewrite split_append, filter_app.
Qed.

Lemma includes_append_l (a s t : string) :
  Js.includes s t = true -> Js.includes (a +:+ s) t = true.
Proof.
  intros H. induction a as [|c a IH]; [exact H|].
  simpl. fold (Js.includes (a +:+ s) t). rewrite IH. apply orb_true_r.
Qed.

Lemma includes_prefix (s rest : string) : Js.includes (s +:+ rest) s = true.
Proof.
  destruct s as [|c s]; [now destruct rest|].
  simpl. rewrite Ascii.eqb_refl, startsWith_own_prefix. reflexivity.
Qed.

(** The message of the sandbox error names the attempted path, what it
    resolved to, and the root. *)
Lemma pathTraversalMessage_names_all (relativePath resolved resolvedRoot : string) :
  let text := pathTraversalMessage relativePath resolved resolvedRoot in
  Js.includes text relativePath = true
  /\ Js.includes text resolved = true
  /\ Js.includes text resolvedRoot = true.
Proof.
  unfold pathTraversalMessage. repeat split.
  - apply includes_append_l, includes_append_l.
    apply (includes_append_l dquote), includes_prefix.
  - do 6 apply includes_append_l.
    apply (includes_append_l dquote), includes_prefix.
  - do 11 apply includes_append_l.
    apply (includes_append_l dquote), includes_prefix.
Qed.

(** ** C4: the glob matcher *)

Lemma glob_char_classes (c : ascii) :
  (globEscaped c = true ->
   Ascii.eqb c "*" = false /\ Ascii.eqb c "?" = false
   /\ RegExp.isSyntaxChar c = true)
  /\ (globEscaped c = false -> Ascii.eqb c "*" = false ->
      Ascii.eqb c "?" = false ->
      Ascii.eqb c "^" = false /\ Ascii.eqb c "$" = false
      /\ Ascii.eqb c "\" = false /\ Ascii.eqb c "." = false
      /\ RegExp.isSyntaxChar c = false).
Proof.
  destruct c as [b0 b1 b2 b3 b4 b5 b6 b7].
  destruct b0, b1, b2, b3, b4, b5, b6, b7; vm_compute;
    split; intros; try discriminate; repeat split; reflexivity.
Qed.

Lemma escapedBody_cons (c : ascii) (g : string) :
  escapedBody (String c g)
  = if globEscaped c then String "\" (String c (escapedBody g))
    else if Ascii.eqb c "*" then String "." (String "*" (escapedBody g))
    else if Ascii.eqb c "?" then String "." (escapedBody g)
    else String c (escapedBody g).
Proof.
  unfold escapedBody. simpl.
  destruct (globEscaped c) eqn:He.
  - destruct (proj1 (glob_char_classes c) He) as (Hs & Hq & _).
    simpl. now rewrite Hs; simpl; rewrite Hq.
  - simpl. destruct (Ascii.eqb c "*") eqn:Hs.
    + reflexivity.
    + simpl. now destruct (Ascii.eqb c "?").
Qed.

Lemma escapedBody_no_leading_star (g tail : string) :
  (forall r, tail <> String "*" r) ->
  forall r, escapedBody g +:+ tail <> String "*" r.
Proof.
  intros Htail r. destruct g as [|c g]; [apply Htail|].
  rewrite escapedBody_cons.
  destruct (globEscaped c) eqn:He; [discriminate|].
  destruct (Ascii.eqb c "*") eqn:Hs; [discriminate|].
  destruct (Ascii.eqb c "?") eqn:Hq; [discriminate|].
  simpl. intros H. injection H as H _. subst c. discriminate.
Qed.

Lemma quantifier_absent (a : RegExp.atom) (rest : string) (ts : list RegExp.term) :
  (forall r, rest <> String "*" r) ->
  RegExp.parse rest = Some ts ->
  match rest with
  | String "*" rest' => option_map (cons (RegExp.Star a)) (RegExp.parse rest')
  | _ => option_map (cons (RegExp.One a)) (RegExp.parse rest)
  end = Some (RegExp.One a :: ts).
Proof.
  intros Hno Hp. destruct rest as [|d rest]; [now rewrite Hp|].
  destruct (Ascii.eqb d "*") eqn:Hd.
  - apply Ascii.eqb_eq in Hd. subst d. now elim (Hno rest).
  - rewrite Hp.
    destruct d as [[] [] [] [] [] [] [] []]; try reflexivity; discriminate.
Qed.

Lemma parse_escapedBody (g : string) :
  RegExp.parse (escapedBody g +:+ "$") = Some (globTerms g ++ [RegExp.End]).
Proof.
  induction g as [|c g IH]; [reflexivity|].
  assert (Hnext : forall r, escapedBody g +:+ "$" <> String "*" r)
    by (apply escapedBody_no_leading_star; discriminate).
  rewrite escapedBody_cons. unfold globTerms. simpl list_ascii_of_string.
  simpl map. fold (globTerms g). unfold globTerm at 1.
  destruct (globEscaped c) eqn:He.
  - destruct (proj1 (glob_char_classes c) He) as (Hs & Hq & Hsyn).
    rewrite Hs, Hq. simpl. rewrite Hsyn.
    now apply quantifier_absent.
  - destruct (Ascii.eqb c "*") eqn:Hs.
    + simpl. now rewrite IH.
    + destruct (Ascii.eqb c "?") eqn:Hq.
      * simpl. now apply quantifier_absent.
      * destruct (proj2 (glob_char_classes c) He Hs Hq)
          as (H1 & H2 & H3 & H4 & Hsyn).
        simpl. rewrite H1, H2, H3, H4, Hsyn.
        now apply quantifier_absent.
Qed.

(** [globToRegex] never throws: every glob compiles, to the anchored
    sequence of its characters' terms. *)
Lemma globToRegex_compiles (glob : string) :
  globToRegex glob
  = Some (RegExp.mk (RegExp.Begin :: globTerms glob ++ [RegExp.End]) true).
Proof.
  unfold globToRegex, RegExp.make, globToRegexSource. fold (escapedBody glob).
  simpl. now rewrite parse_escapedBody.
Qed.

Lemma matchFrom_star (ic : bool) (a : RegExp.atom) (ts : list RegExp.term)
      (b : bool) (s : string) :
  RegExp.matchFrom ic (RegExp.Star a :: ts) b s
  = RegExp.matchFrom ic ts b s
    || match s with
       | String c s' =>
           RegExp.atomMatches ic a c
           && RegExp.matchFrom ic (RegExp.Star a :: ts) false s'
       | EmptyString => false
       end.
Proof. destruct s; reflexivity. Qed.

Lemma search_anchored (ic : bool) (ts : list RegExp.term) (s : string) :
  RegExp.search ic (RegExp.Begin :: ts) false s = false.
Proof. induction s as [|c s IH]; simpl; [reflexivity | exact IH]. Qed.

Lemma test_anchored (ts : list RegExp.term) (s : string) :
  RegExp.test (RegExp.mk (RegExp.Begin :: ts) true) s
  = RegExp.matchFrom true ts true s.
Proof.
  unfold RegExp.test. simpl RegExp.terms. simpl RegExp.ignoreCase.
  destruct s as [|c s]; simpl.
  - now rewrite orb_false_r.
  - fold (RegExp.search true (RegExp.Begin :: ts) false s).
    now rewrite search_anchored, orb_false_r.
Qed.

Lemma globMatch_empty_inv (s : string) : GlobMatch "" s -> s = "".
Proof. now inversion 1. Qed.

(** On names without line terminators the compiled terms decide
    [GlobMatch]. *)
Lemma matchFrom_globTerms (g : string) :
  forall (b : bool) (s : string),
    noLineTerminator s = true ->
    (RegExp.matchFrom true (globTerms g ++ [RegExp.End]) b s = true
     <-> GlobMatch g s).
Proof.
  induction g as [|c g IH]; intros b s Hs.
  - simpl. destruct s; split; intros H; try constructor; try discriminate.
    apply globMatch_empty_inv in H. discriminate.
  - unfold globTerms. simpl list_ascii_of_string. simpl map.
    fold (globTerms g). unfold globTerm at 1.
    destruct (Ascii.eqb c "*") eqn:Hstar.
    + apply Ascii.eqb_eq in Hstar. subst c.
      simpl app. revert b.
      induction s as [|d s IHs]; intros b; rewrite matchFrom_star.
      * rewrite orb_false_r, (IH b "" Hs).
        split; intros H; [now constructor|].
        inversion H; subst; try assumption; congruence.
      * simpl in Hs. apply andb_true_iff in Hs as [Hd Hs'].
        simpl RegExp.atomMatches. rewrite Hd. simpl andb.
        rewrite orb_true_iff, (IH b), (IHs Hs' false) by (simpl; now rewrite Hd).
        split.
        -- intros [H|H]; [now apply GlobStarNone | now apply GlobStarMore].
        -- intros H. inversion H; subst; try congruence; tauto.
    + destruct (Ascii.eqb c "?") eqn:Hq.
      * apply Ascii.eqb_eq in Hq. subst c. simpl.
        destruct s as [|d s].
        -- split; [discriminate | intros H; inversion H; congruence].
        -- simpl in Hs. apply andb_true_iff in Hs as [Hd Hs'].
           rewrite Hd. simpl. rewrite (IH false s Hs').
           split; intros H; [now constructor|].
           inversion H; subst; congruence.
      * apply Ascii.eqb_neq in Hstar. apply Ascii.eqb_neq in Hq. simpl.
        destruct s as [|d s].
        -- split; [discriminate | intros H; inversion H; congruence].
        -- simpl in Hs. apply andb_true_iff in Hs as [Hd Hs'].
           rewrite andb_true_iff, Ascii.eqb_eq, (IH false s Hs').
           split.
           ++ intros [Hl H]. now constructor.
           ++ intros H. inversion H; subst; try congruence. now split.
Qed.

(** On names without line terminators the predicate that [globToRegex]
    compiles matches exactly the names the glob describes. *)
Lemma globToRegex_matches_glob (glob name : string) :
  noLineTerminator name = true ->
  exists regex,
    globToRegex glob = Some regex
    /\ (RegExp.test regex name = true <-> GlobMatch glob name).
Proof.
  intros Hname. eexists. split; [apply globToRegex_compiles|].
  rewrite test_anchored. now apply matchFrom_globTerms.
Qed.

Lemma globToRegex_matches_glob_witness :
  exists regex,
    globToRegex "*.ts" = Some regex
    /\ (RegExp.test regex "Button.ts" = true <-> GlobMatch "*.ts" "Button.ts").
Proof. apply (globToRegex_matches_glob "*.ts" "Button.ts"). reflexivity. Defined.

(** C4.  The glob [*], the default pattern, compiles to a predicate that
    rejects a name holding a line feed, although the glob describes every
    name: the compiled [.] stops at line terminators. *)
Theorem globToRegex_star_misses_line_feed :
  let name := "a" +:+ newline +:+ "b" in
  GlobMatch "*" name
  /\ option_map (fun regex => RegExp.test regex name) (globToRegex "*")
     = Some false.
Proof.
  split; [|reflexivity].
  repeat apply GlobStarMore. apply GlobStarNone. constructor.
Qed.

(** ** The filesystem model *)

Lemma readdirSync_stat (root : node) (path : string) (entries : list Dirent.t) :
  Fs.readdirSync root path = Some entries ->
  exists sz, getStats root path = Some (Stats.mk false true false sz).
Proof.
  unfold Fs.readdirSync, Fs.readdir, getStats, Fs.statSync.
  destruct (Fs.nodeAt root path) as [[| sz [l|] | |]|]; try discriminate.
  intros _. now exists sz.
Qed.

Lemma readFileSync_stat (root : node) (path content : string) :
  Fs.readFileSync root path = Some content ->
  exists sz, getStats root path = Some (Stats.mk true false false sz).
Proof.
  unfold Fs.readFileSync, getStats, Fs.statSync.
  destruct (Fs.nodeAt root path) as [[sz [c|] | | |]|]; try discriminate.
  intros _. now exists sz.
Qed.

(** ** Sorting *)

Lemma insert_perm {A : Type} (cmp : A -> A -> comparison) (x : A) (l : list A) :
  Permutation (Array.insert cmp x l) (x :: l).
Proof.
  induction l as [|y l IH]; simpl; [apply Permutation_refl|].
  destruct (cmp x y); try apply Permutation_refl.
  eapply perm_trans; [apply perm_skip, IH | apply perm_swap].
Qed.

Lemma sort_perm {A : Type} (cmp : A -> A -> comparison) (l : list A) :
  Permutation (Array.sort cmp l) l.
Proof.
  induction l as [|x l IH]; simpl; [constructor|].
  eapply perm_trans; [apply insert_perm | now apply perm_skip].
Qed.

(** ** C9 and C3: what a missing target and a failing grep turn into *)

(** C9.  [findFiles] on a path that does not exist inside the root
    returns its ordinary record, with no [found] flag and no message;
    the README promises a record with [found: false] for a file or
    directory that does not exist, and the sibling operations that check
    their target with [getStats] deliver it. *)
Theorem findFiles_missing_path_has_no_found_flag :
  getStats sampleFs "/srv/repo/missing" = None
  /\ execute sampleHost (sampleParams "findFiles" "missing")
     = inr (FindFiles "*" "missing" 0 [])
  /\ found (FindFiles "*" "missing" 0 []) = None
  /\ message (FindFiles "*" "missing" 0 []) = None.
Proof. repeat split. Qed.

(** The grep case behaves alike on a missing path: whatever the process
    printed is parsed into an ordinary record. *)
Example grep_missing_path_has_no_found_flag :
  execute sampleHost
    (Params.mk "/srv/repo" "grep" "missing" 0 0 "main" "*" false 0 "*" 3)
  = inr (Grep "main" "missing" "*" false 0 0 [] []).
Proof. reflexivity. Qed.

(** A directory that exists but cannot be read makes [listDirectory]
    raise: its [readdirSync] call is not guarded. *)
Example listDirectory_unreadable_raises :
  execute sampleHost (sampleParams "listDirectory" "locked")
  = inl (FsError "/srv/repo/locked").
Proof. reflexivity. Qed.

(** The not-found scenario of the README: [readFile] on a missing path. *)
Example readFile_missing_path :
  execute sampleHost (sampleParams "readFile" "missing-file.txt")
  = inr (NotFound "readFile" "missing-file.txt"
           "File not found: missing-file.txt" None None).
Proof. reflexivity. Qed.

(** C3 does not hold as stated: a grep call with the malformed pattern
    [(] returns a result record instead of failing. *)
Lemma grep_malformed_pattern_returns_record :
  Host.execSync sampleHost
    (grepCommand false 0 "*" (Params.searchPattern malformedGrep) "/srv/repo/src")
  = Threw (Some 2%Z) (Some "")
  /\ execute sampleHost malformedGrep
     = inr (Grep "(" "src" "*" false 0 0 [] [])
  /\ ~ (exists err, execute sampleHost malformedGrep = inl err).
Proof.
  repeat split. intros [err Herr]. discriminate Herr.
Qed.

(** C3, amended.  When the grep process rejects the pattern (it fails
    with some exit status and prints nothing on standard output), the
    call returns an ordinary grep record with no matches; nothing is
    raised for the pattern. *)
Theorem grep_rejected_pattern_yields_empty_record
        (host : Host.t) (params : Params.t) (rootStats : Stats.t)
        (fullPath : string) (status : option Z) :
  let cwd := Host.cwd host in
  let resolvedRoot := Path.resolve cwd [Params.rootPath params] in
  let target := Js.orElse (Params.path params) "." in
  Js.truthy (Params.rootPath params) = true ->
  getStats (Host.fs host) resolvedRoot = Some rootStats ->
  Stats.isDirectory rootStats = true ->
  Params.operation params = "grep" ->
  Js.truthy (Params.searchPattern params) = true ->
  validatePath cwd resolvedRoot target = inr fullPath ->
  Host.execSync host
    (grepCommand (Params.caseInsensitive params) (Params.contextLines params)
       (Params.filePattern params) (Params.searchPattern params) fullPath)
  = Threw status (Some "") ->
  execute host params
  = inr (Grep (Params.searchPattern params) target (Params.filePattern params)
           (Params.caseInsensitive params) 0 0 [] []).
Proof.
  intros cwd resolvedRoot target Hroot Hstat Hdir Hop Hpat Hvalid Hexec.
  unfold execute. rewrite Hroot. simpl negb. cbv iota.
  fold cwd. fold resolvedRoot. rewrite Hstat, Hdir, Hop. simpl.
  unfold grepCase. rewrite Hpat. simpl negb. cbv iota.
  fold cwd. fold target. rewrite Hvalid, Hexec.
  assert (Hout : grepOutputOf (Threw status (Some "")) = "")
    by (destruct status as [[|[]|]|]; reflexivity).
  rewrite Hout. reflexivity.
Qed.

Lemma grep_rejected_pattern_yields_empty_record_witness :
  execute sampleHost malformedGrep
  = inr (Grep "(" "src" "*" false 0 0 [] []).
Proof.
  apply (grep_rejected_pattern_yields_empty_record sampleHost malformedGrep
           (Stats.mk false true false 4096) "/srv/repo/src" (Some 2%Z));
    reflexivity.
Defined.

(** ** C10: listDirectory applies no filter *)

(** C10.  For a directory that can be read, [listDirectory] returns one
    entry per directory entry, hidden ones and [node_modules] included:
    the listed names and types are a rearrangement of the directory's,
    and [totalItems] is the raw entry count. *)
Theorem listDirectory_lists_every_entry
        (host : Host.t) (params : Params.t) (rootStats : Stats.t)
        (fullPath : string) (entries : list Dirent.t) :
  let cwd := Host.cwd host in
  let resolvedRoot := Path.resolve cwd [Params.rootPath params] in
  let target := Js.orElse (Params.path params) "." in
  Js.truthy (Params.rootPath params) = true ->
  getStats (Host.fs host) resolvedRoot = Some rootStats ->
  Stats.isDirectory rootStats = true ->
  Params.operation params = "listDirectory" ->
  validatePath cwd resolvedRoot target = inr fullPath ->
  Fs.readdirSync (Host.fs host) fullPath = Some entries ->
  exists directories files listed,
    execute host params
    = inr (ListDirectory target (Z.of_nat (length entries)) directories files
             listed)
    /\ Permutation (map (fun f => (fe_name f, fe_type f)) listed)
                   (map (fun e => (Dirent.name e, entryType e)) entries)
    /\ (forall e, In e entries ->
                  exists f, In f listed /\ fe_name f = Dirent.name e
                            /\ fe_type f = entryType e).
Proof.
  intros cwd resolvedRoot target Hroot Hstat Hdir Hop Hvalid Hread.
  destruct (readdirSync_stat _ _ _ Hread) as [sz Hdstat].
  unfold execute. rewrite Hroot. simpl negb. cbv iota.
  fold cwd. fold resolvedRoot. rewrite Hstat, Hdir, Hop. simpl.
  unfold listDirectoryCase. fold cwd. fold target.
  rewrite Hvalid, Hdstat. simpl. rewrite Hread.
  set (raw := map _ entries).
  set (listed := Array.sort (compareFiles host) raw).
  assert (Hperm : Permutation listed raw) by apply sort_perm.
  assert (Hraw : map (fun f => (fe_name f, fe_type f)) raw
                 = map (fun e => (Dirent.name e, entryType e)) entries).
  { unfold raw. rewrite map_map. reflexivity. }
  do 3 eexists. split; [|split].
  - f_equal. f_equal. f_equal.
    rewrite (Permutation_length Hperm). unfold raw. apply length_map.
  - rewrite <- Hraw. now apply Permutation_map.
  - intros e He.
    assert (Hin : In (Dirent.name e, entryType e)
                     (map (fun f => (fe_name f, fe_type f)) listed)).
    { eapply Permutation_in.
      - apply Permutation_sym, Permutation_map, Hperm.
      - rewrite Hraw. now apply (in_map (fun e => (Dirent.name e, entryType e))). }
    apply in_map_iff in Hin as [f [Hf Hfin]].
    exists f. injection Hf as Hn Ht. auto.
Qed.

Lemma listDirectory_lists_every_entry_witness :
  exists directories files listed,
    execute sampleHost (sampleParams "listDirectory" "")
    = inr (ListDirectory "." 6 directories files listed)
    /\ Permutation (map (fun f => (fe_name f, fe_type f)) listed)
         (map (fun e => (Dirent.name e, entryType e))
            [ ("package.json", sampleFile "{ }");
              ("src", Dir 4096 None); (".git", Dir 4096 None);
              ("docs", Dir 4096 None); ("node_modules", Dir 4096 None);
              ("locked", Dir 4096 None) ])
    /\ (forall e, In e [ (".git", Dir 4096 None);
                         ("node_modules", Dir 4096 None) ] ->
                  exists f, In f listed /\ fe_name f = Dirent.name e
                            /\ fe_type f = entryType e).
Proof.
  destruct (listDirectory_lists_every_entry sampleHost
              (sampleParams "listDirectory" "")
              (Stats.mk false true false 4096) "/srv/repo"
              (match sampleRepo with Dir _ (Some l) => l | _ => [] end)
              eq_refl eq_refl eq_refl eq_refl eq_refl eq_refl)
    as (d & f & listed & Hexec & Hperm & Hall).
  exists d, f, listed. split; [exact Hexec|]. split.
  - exact Hperm.
  - intros e [<-|[<-|[]]].
    + destruct (Hall _ (or_intror (or_intror (or_introl eq_refl))))
        as (x & Hx & Hn & Ht).
      exists x. repeat split; assumption.
    + destruct (Hall _ (or_intror (or_intror (or_intror (or_intror (or_introl eq_refl))))))
        as (x & Hx & Hn & Ht).
      exists x. repeat split; assumption.
Defined.

(** ** C8: the line window of readFile *)

Lemma nth_error_mapiFrom {A B : Type} (f : nat -> A -> B) (l : list A) :
  forall i j, nth_error (Array.mapiFrom i f l) j
              = option_map (f (i + j)) (nth_error l j).
Proof.
  induction l as [|x l IH]; intros i j.
  - now destruct j.
  - destruct j as [|j]; simpl.
    + now rewrite Nat.add_0_r.
    + rewrite IH. now rewrite Nat.add_succ_r.
Qed.

Lemma length_mapiFrom {A B : Type} (f : nat -> A -> B) (l : list A) :
  forall i, length (Array.mapiFrom i f l) = length l.
Proof. induction l as [|x l IH]; intros i; simpl; [reflexivity | now rewrite IH]. Qed.

Lemma map_mapiFrom {A B C : Type} (g : B -> C) (f : nat -> A -> B) (l : list A) :
  forall i, map g (Array.mapiFrom i f l) = Array.mapiFrom i (fun k x => g (f k x)) l.
Proof. induction l as [|x l IH]; intros i; simpl; [reflexivity | now rewrite IH]. Qed.

Lemma mapiFrom_const {A : Type} (l : list A) :
  forall i, Array.mapiFrom i (fun _ x => x) l = l.
Proof. induction l as [|x l IH]; intros i; simpl; [reflexivity | now rewrite IH]. Qed.

(** The window [readFile] cuts out of the file's lines. *)
Lemma readFile_lines (lineOffset maxLines : Z) (fileLines : list string) :
  (0 <= lineOffset)%Z -> (0 <= maxLines)%Z ->
  (if (maxLines >? 0)%Z
   then Array.sliceTo maxLines
          (if (lineOffset >? 0)%Z then Array.sliceFrom lineOffset fileLines
           else fileLines)
   else if (lineOffset >? 0)%Z then Array.sliceFrom lineOffset fileLines
        else fileLines)
  = if (maxLines =? 0)%Z then skipn (Z.to_nat lineOffset) fileLines
    else firstn (Z.to_nat maxLines) (skipn (Z.to_nat lineOffset) fileLines).
Proof.
  intros Hk Hm. unfold Array.sliceTo, Array.sliceFrom.
  assert (Hskip : (if (lineOffset >? 0)%Z
                   then skipn (Z.to_nat lineOffset) fileLines else fileLines)
                  = skipn (Z.to_nat lineOffset) fileLines).
  { destruct (Z.gtb_spec lineOffset 0); [reflexivity|].
    replace lineOffset with 0%Z by lia. reflexivity. }
  rewrite Hskip.
  destruct (Z.gtb_spec maxLines 0), (Z.eqb_spec maxLines 0); try lia; reflexivity.
Qed.

(** C8.  For a file that can be read, with a line offset [k >= 0] and a
    line limit [m >= 0], [readFile] reports the file's full line count,
    returns the lines [k .. k+m-1] that exist (all from [k] on when
    [m = 0]), reports how many it returned, and numbers the [i]-th of
    them [k + i + 1]. *)
Theorem readFile_returns_line_window
        (host : Host.t) (params : Params.t) (rootStats : Stats.t)
        (fullPath content : string) :
  let cwd := Host.cwd host in
  let resolvedRoot := Path.resolve cwd [Params.rootPath params] in
  let lineOffset := Params.lineOffset params in
  let maxLines := Params.maxLines params in
  let fileLines := Js.split (ascii_of_nat 10) content in
  let k := Z.to_nat lineOffset in
  let available := length fileLines - k in
  let returned :=
    if (maxLines =? 0)%Z then available
    else Nat.min (Z.to_nat maxLines) available in
  Js.truthy (Params.rootPath params) = true ->
  getStats (Host.fs host) resolvedRoot = Some rootStats ->
  Stats.isDirectory rootStats = true ->
  Params.operation params = "readFile" ->
  Js.truthy (Params.path params) = true ->
  validatePath cwd resolvedRoot (Params.path params) = inr fullPath ->
  Fs.readFileSync (Host.fs host) fullPath = Some content ->
  (0 <= lineOffset)%Z ->
  (0 <= maxLines)%Z ->
  exists sizeBytes text lines,
    execute host params
    = inr (ReadFile (Params.path params) (Z.of_nat (length fileLines))
             (Z.of_nat returned) lineOffset sizeBytes text lines)
    /\ length lines = returned
    /\ (forall i, i < returned ->
          nth_error lines i
          = Some (mkNumberedLine (lineOffset + Z.of_nat i + 1)
                                 (nth (k + i) fileLines "")))
    /\ text = Js.join newline (map lineContent lines).
Proof.
  intros cwd resolvedRoot lineOffset maxLines fileLines k available returned
         Hroot Hstat Hdir Hop Hpath Hvalid Hread Hk Hm.
  destruct (readFileSync_stat _ _ _ Hread) as [sz Hfstat].
  unfold execute. rewrite Hroot. simpl negb. cbv iota.
  fold cwd. fold resolvedRoot. rewrite Hstat, Hdir, Hop. simpl.
  unfold readFileCase. rewrite Hpath. simpl negb. cbv iota.
  fold cwd. rewrite Hvalid, Hfstat. simpl. rewrite Hread.
  fold lineOffset. fold maxLines. fold fileLines.
  rewrite (readFile_lines lineOffset maxLines fileLines Hk Hm).
  set (window := if (maxLines =? 0)%Z then skipn (Z.to_nat lineOffset) fileLines
                 else firstn (Z.to_nat maxLines)
                        (skipn (Z.to_nat lineOffset) fileLines)).
  assert (Hlen : length window = returned).
  { unfold window, returned, available, k.
    destruct (maxLines =? 0)%Z.
    - apply length_skipn.
    - rewrite length_firstn, length_skipn. reflexivity. }
  assert (Hnth : forall i, i < returned ->
                           nth_error window i = Some (nth (k + i) fileLines "")).
  { intros i Hi.
    assert (Hin : k + i < length fileLines).
    { unfold returned, available in Hi. destruct (maxLines =? 0)%Z; lia. }
    assert (Hsk : nth_error (skipn k fileLines) i = Some (nth (k + i) fileLines "")).
    { rewrite nth_error_skipn. now apply nth_error_nth'. }
    assert (Hlt : (maxLines =? 0)%Z = false -> i < Z.to_nat maxLines).
    { intros Hz. unfold returned in Hi. rewrite Hz in Hi. lia. }
    unfold window. fold k. destruct (maxLines =? 0)%Z; [exact Hsk|].
    rewrite nth_error_firstn.
    destruct (Nat.ltb_spec i (Z.to_nat maxLines)); [exact Hsk|].
    specialize (Hlt eq_refl). lia. }
  do 3 eexists. split; [|split; [|split]].
  - rewrite Hlen. reflexivity.
  - unfold Array.mapi. now rewrite length_mapiFrom.
  - intros i Hi. unfold Array.mapi.
    rewrite nth_error_mapiFrom, (Hnth i Hi). reflexivity.
  - unfold Array.mapi. rewrite map_mapiFrom. simpl.
    now rewrite mapiFrom_const.
Qed.

Lemma readFile_returns_line_window_witness :
  exists sizeBytes text lines,
    execute sampleHost
      (Params.mk "/srv/repo" "readFile" "src/index.ts" 1 1 "" "*" false 0 "*" 3)
    = inr (ReadFile "src/index.ts" 3 1 1 sizeBytes text lines)
    /\ length lines = 1
    /\ (forall i, i < 1 ->
          nth_error lines i
          = Some (mkNumberedLine (1 + Z.of_nat i + 1)
                    (nth (1 + i) ["import a"; "export b"; ""] "")))
    /\ text = Js.join newline (map lineContent lines).
Proof.
  apply (readFile_returns_line_window sampleHost
           (Params.mk "/srv/repo" "readFile" "src/index.ts" 1 1 "" "*" false 0 "*" 3)
           (Stats.mk false true false 4096) "/srv/repo/src/index.ts"
           ("import a" +:+ newline +:+ "export b" +:+ newline));
    try reflexivity; simpl; lia.
Defined.

(** ** C5 and C2: the capped, order-preserving file search *)

Ltac walk_step :=
  cbn -[Js.startsWith String.eqb Path.join Path.relative RegExp.test Z.geb
        Z.of_nat Z.to_nat length].

Lemma findFilesRecursive_unfold (cwd : string) (dir : node) (dirPath : string)
      (pattern : RegExp.t) (results : list string) (rootPath : string)
      (maxResults : Z) :
  findFilesRecursive cwd dir dirPath pattern results rootPath maxResults
  = if (Z.of_nat (length results) >=? maxResults)%Z then results
    else match dir with
         | Dir _ (Some entries) =>
             findFilesLoop cwd entries dirPath pattern results rootPath maxResults
         | _ => results
         end.
Proof.
  destruct dir as [sz c | sz [entries|] | t | sz]; walk_step; try reflexivity.
  destruct (Z.of_nat (length results) >=? maxResults)%Z; [reflexivity|].
  clear. revert results.
  induction entries as [|[name child] rest IH]; intros results; walk_step;
    [reflexivity|].
  destruct (Z.of_nat (length results) >=? maxResults)%Z; [reflexivity|].
  destruct (Js.startsWith name "." || (name =? "node_modules")); [apply IH|].
  destruct child; try apply IH;
    destruct (RegExp.test pattern name); apply IH.
Qed.

Lemma matchingFiles_unfold (cwd : string) (sz : Z) (entries : list (string * node))
      (dirPath : string) (pattern : RegExp.t) (rootPath : string) :
  matchingFiles cwd (Dir sz (Some entries)) dirPath pattern rootPath
  = matchingAmong cwd entries dirPath pattern rootPath.
Proof.
  walk_step. induction entries as [|[name child] rest IH]; walk_step;
    [reflexivity|].
  now rewrite IH.
Qed.

Lemma height_child (sz : Z) (entries : list (string * node)) (name : string)
      (child : node) :
  In (name, child) entries -> height child < height (Dir sz (Some entries)).
Proof.
  simpl. induction entries as [|[n c] rest IH]; intros Hin; [contradiction|].
  destruct Hin as [Heq|Hin].
  - injection Heq as -> ->. lia.
  - specialize (IH Hin). lia.
Qed.

Lemma firstn_app_taken {A : Type} (n : nat) (a b : list A) :
  firstn n (a ++ b) = firstn n a ++ firstn (n - length (firstn n a)) b.
Proof.
  rewrite firstn_app, length_firstn.
  destruct (Nat.le_gt_cases n (length a)) as [Hle|Hgt].
  - replace (n - length a) with 0 by lia.
    replace (n - Nat.min n (length a)) with 0 by lia. reflexivity.
  - now replace (Nat.min n (length a)) with (length a) by lia.
Qed.

Section FindFiles.

Variables (cwd : string) (pattern : RegExp.t) (rootPath : string)
          (maxResults : Z).

Lemma findFilesLoop_spec (entries : list (string * node)) (dirPath : string) :
  (forall name child p results,
      In (name, child) entries ->
      findFilesRecursive cwd child p pattern results rootPath maxResults
      = results ++ firstn (room maxResults results)
                     (matchingFiles cwd child p pattern rootPath)) ->
  forall results,
    findFilesLoop cwd entries dirPath pattern results rootPath maxResults
    = results ++ firstn (room maxResults results)
                   (matchingAmong cwd entries dirPath pattern rootPath).
Proof.
  induction entries as [|[name child] rest IH]; intros Hrec results.
  - simpl. now rewrite firstn_nil, app_nil_r.
  - assert (IHrest := IH (fun n c p r Hin => Hrec n c p r (or_intror Hin))).
    walk_step. unfold hidden.
    destruct (Z.geb_spec (Z.of_nat (length results)) maxResults) as [Hfull|Hroom].
    + unfold room. replace (Z.to_nat maxResults - length results) with 0 by lia.
      now rewrite app_nil_r.
    + destruct (Js.startsWith name "." || (name =? "node_modules")).
      * simpl. apply IHrest.
      * assert (Hfile :
          (if RegExp.test pattern name
           then findFilesLoop cwd rest dirPath pattern
                  (results ++ [Path.relative cwd rootPath (Path.join [dirPath; name])])
                  rootPath maxResults
           else findFilesLoop cwd rest dirPath pattern results rootPath maxResults)
          = results ++ firstn (room maxResults results)
              ((if RegExp.test pattern name
                then [Path.relative cwd rootPath (Path.join [dirPath; name])]
                else [])
               ++ matchingAmong cwd rest dirPath pattern rootPath)).
        { destruct (RegExp.test pattern name); [|apply IHrest].
          rewrite IHrest. unfold room. rewrite length_app. simpl length.
          destruct (Z.to_nat maxResults - length results) as [|n] eqn:Hn; [lia|].
          simpl. rewrite <- app_assoc. simpl.
          now replace (Z.to_nat maxResults - (length results + 1)) with n by lia. }
        destruct child as [fsz c | dsz listing | t | osz]; try exact Hfile.
        rewrite (Hrec name (Dir dsz listing) _ results (or_introl eq_refl)).
        rewrite IHrest, firstn_app_taken, <- app_assoc.
        f_equal. f_equal. f_equal. unfold room. rewrite length_app. lia.
Qed.

Lemma findFilesRecursive_spec (dir : node) :
  forall dirPath results,
    findFilesRecursive cwd dir dirPath pattern results rootPath maxResults
    = results ++ firstn (room maxResults results)
                   (matchingFiles cwd dir dirPath pattern rootPath).
Proof.
  induction dir as [dir IH] using (induction_ltof1 _ height).
  unfold ltof in IH. intros dirPath results.
  rewrite findFilesRecursive_unfold.
  destruct (Z.geb_spec (Z.of_nat (length results)) maxResults) as [Hfull|Hroom].
  - unfold room. replace (Z.to_nat maxResults - length results) with 0 by lia.
    now rewrite app_nil_r.
  - destruct dir as [sz c | sz [entries|] | t | sz];
      try (simpl; now rewrite firstn_nil, app_nil_r).
    rewrite matchingFiles_unfold. apply findFilesLoop_spec.
    intros name child p r Hin. apply IH. now apply (height_child sz entries name).
Qed.

End FindFiles.

(** C5.  Called with an empty result array and a bound [maxResults >= 0],
    [findFilesRecursive] returns at most [maxResults] paths; it returns
    exactly [maxResults] when that many files that are not excluded match
    the pattern; and what it returns is the beginning of the uncapped
    enumeration, so the walk stops where the cap is reached, also in the
    middle of a directory. *)
Theorem findFiles_caps_results
        (cwd : string) (dir : node) (dirPath : string) (pattern : RegExp.t)
        (rootPath : string) (maxResults : Z) :
  let found :=
    findFilesRecursive cwd dir dirPath pattern [] rootPath maxResults in
  let matching := matchingFiles cwd dir dirPath pattern rootPath in
  (0 <= maxResults)%Z ->
  (Z.of_nat (length found) <= maxResults)%Z
  /\ ((maxResults <= Z.of_nat (length matching))%Z ->
      Z.of_nat (length found) = maxResults)
  /\ (exists rest, matching = found ++ rest)
  /\ ((Z.of_nat (length found) < maxResults)%Z -> found = matching).
Proof.
  intros found matching Hmax.
  assert (Hfound : found = firstn (Z.to_nat maxResults) matching).
  { unfold found. rewrite findFilesRecursive_spec. unfold room. simpl.
    now rewrite Nat.sub_0_r. }
  assert (Hlen : length found = Nat.min (Z.to_nat maxResults) (length matching)).
  { rewrite Hfound. apply length_firstn. }
  repeat split.
  - lia.
  - intros Henough. lia.
  - exists (skipn (Z.to_nat maxResults) matching).
    rewrite Hfound. symmetry. apply firstn_skipn.
  - intros Hshort. rewrite Hfound. apply firstn_all2. lia.
Qed.

(** The find-cap scenario of the test suite: pattern [*], bound 2. *)
Lemma findFiles_caps_results_witness :
  let found :=
    findFilesRecursive "/home/node" sampleRepo "/srv/repo" starRegex []
                       "/srv/repo" 2 in
  let matching :=
    matchingFiles "/home/node" sampleRepo "/srv/repo" starRegex "/srv/repo" in
  globToRegex "*" = Some starRegex
  /\ found = ["package.json"; "src/index.ts"]
  /\ length matching = 8
  /\ (Z.of_nat (length found) <= 2)%Z
  /\ ((2 <= Z.of_nat (length matching))%Z -> Z.of_nat (length found) = 2%Z)
  /\ (exists rest, matching = found ++ rest)
  /\ ((Z.of_nat (length found) < 2)%Z -> found = matching).
Proof.
  split; [reflexivity|]. split; [reflexivity|]. split; [reflexivity|].
  apply (findFiles_caps_results "/home/node" sampleRepo "/srv/repo" starRegex
           "/srv/repo" 2).
  lia.
Defined.

(** C2 does not hold as stated: a directory that holds the file [a.ts]
    and the subdirectory [b], listed in name order, yields the file
    first, whereas the tree view's order (whatever the collation) puts
    what is below [b] first. *)
Lemma findFiles_visits_file_before_directory :
  Fs.readdir (Some fileBeforeDir)
  = Some [ ("a.ts", sampleFile "a");
           ("b", Dir 4096 (Some [ ("x.ts", sampleFile "x") ])) ]
  /\ codeUnitCompare "a.ts" "b" = Lt
  /\ findFilesRecursive "/home/node" fileBeforeDir "/srv/repo" starRegex []
                        "/srv/repo" 1000
     = ["a.ts"; "b/x.ts"]
  /\ (forall localeCompare,
        findFilesRecursive "/home/node" (sortLevels localeCompare fileBeforeDir)
                           "/srv/repo" starRegex [] "/srv/repo" 1000
        = ["b/x.ts"; "a.ts"])
  /\ ~ (exists localeCompare,
          findFilesRecursive "/home/node" fileBeforeDir "/srv/repo" starRegex []
                             "/srv/repo" 1000
          = findFilesRecursive "/home/node"
              (sortLevels localeCompare fileBeforeDir) "/srv/repo" starRegex []
              "/srv/repo" 1000).
Proof.
  assert (Hsorted : forall localeCompare,
             findFilesRecursive "/home/node"
               (sortLevels localeCompare fileBeforeDir) "/srv/repo" starRegex []
               "/srv/repo" 1000
             = ["b/x.ts"; "a.ts"]) by (intros; reflexivity).
  split; [reflexivity|]. split; [reflexivity|]. split; [reflexivity|].
  split; [exact Hsorted|].
  intros [localeCompare H]. rewrite Hsorted in H. discriminate H.
Qed.

(** C2, amended.  [findFilesRecursive] collects the matching paths in
    one depth-first walk that takes the entries of every directory in the
    order the directory read returns them: the result is the enumeration
    in listing order, cut off at the cap.  The walk does not sort, and a
    subdirectory is descended into at the place where it is listed. *)
Theorem findFiles_follows_listing_order
        (cwd : string) (dir : node) (dirPath : string) (pattern : RegExp.t)
        (rootPath : string) (maxResults : Z) :
  findFilesRecursive cwd dir dirPath pattern [] rootPath maxResults
  = firstn (Z.to_nat maxResults)
           (matchingFiles cwd dir dirPath pattern rootPath)
  /\ (forall sz before after,
        dir = Dir sz (Some (before ++ after)) ->
        matchingFiles cwd dir dirPath pattern rootPath
        = matchingAmong cwd before dirPath pattern rootPath
          ++ matchingAmong cwd after dirPath pattern rootPath).
Proof.
  split.
  - rewrite findFilesRecursive_spec. unfold room. simpl.
    now rewrite Nat.sub_0_r.
  - intros sz before after ->. rewrite matchingFiles_unfold.
    induction before as [|[name child] rest IH]; [reflexivity|].
    simpl. now rewrite IH, app_assoc.
Qed.

(** ** C6 and C7: the tree view *)

Lemma mapiFrom_ext {A B : Type} (f g : nat -> A -> B) (l : list A) :
  (forall i x, f i x = g i x) ->
  forall k, Array.mapiFrom k f l = Array.mapiFrom k g l.
Proof.
  intros Hfg. induction l as [|x l IH]; intros k; simpl; [reflexivity|].
  now rewrite Hfg, IH.
Qed.

Lemma in_concat_mapiFrom {A B : Type} (f : nat -> A -> list B) (l : list A)
      (y : B) :
  forall k,
    In y (concat (Array.mapiFrom k f l))
    <-> exists i x, nth_error l i = Some x /\ In y (f (k + i) x).
Proof.
  induction l as [|x l IH]; intros k; simpl.
  - split; [contradiction | intros (i & z & H & _); now destruct i].
  - rewrite in_app_iff, IH. split.
    + intros [H | (i & z & Hn & Hy)].
      * exists 0, x. rewrite Nat.add_0_r. now split.
      * exists (S i), z. rewrite Nat.add_succ_r. now split.
    + intros (i & z & Hn & Hy). destruct i as [|i].
      * injection Hn as ->. rewrite Nat.add_0_r in Hy. now left.
      * right. exists i, z. rewrite Nat.add_succ_r in Hy. now split.
Qed.

Lemma levelEntries_In (localeCompare : string -> string -> comparison)
      (entries : list Dirent.t) (e : Dirent.t) :
  In e (levelEntries localeCompare entries)
  <-> In e entries /\ hidden (Dirent.name e) = false.
Proof.
  unfold levelEntries, hidden. rewrite filter_In, <- negb_orb, negb_true_iff.
  split; intros [Hin Hvis]; (split; [|exact Hvis]).
  - eapply Permutation_in; [apply sort_perm | exact Hin].
  - eapply Permutation_in; [apply Permutation_sym, sort_perm | exact Hin].
Qed.

(** [buildTree], one level at a time. *)
Lemma buildTree_level (localeCompare : string -> string -> comparison)
      (dir : node) (currentDepth maxDepth : Z) (prefix : string) :
  buildTree localeCompare dir currentDepth maxDepth prefix
  = if (currentDepth >? maxDepth)%Z then []
    else match Fs.readdir (Some dir) with
         | None => [prefix +:+ "[Permission denied]"]
         | Some entries =>
             let level := levelEntries localeCompare entries in
             concat (Array.mapi
                       (treeBlock localeCompare currentDepth maxDepth prefix
                                  (length level))
                       level)
         end.
Proof.
  rewrite buildTree_equation_1.
  destruct (currentDepth >? maxDepth)%Z; [reflexivity|].
  destruct (Fs.readdir (Some dir)) as [entries|]; [|reflexivity].
  cbv zeta. f_equal. apply mapiFrom_ext. intros i e.
  unfold treeBlock, entryLine, entryText, childPrefixAt.
  destruct (Dirent.isDirectory e); simpl andb.
  - f_equal.
    destruct (Z_lt_dec currentDepth maxDepth) as [Hlt|Hge];
      destruct (Z.ltb_spec currentDepth maxDepth); try lia; reflexivity.
  - reflexivity.
Qed.

Lemma childPrefixAt_isChildPrefix (count index : nat) :
  isChildPrefix (childPrefixAt count index).
Proof.
  unfold childPrefixAt, isChildPrefix.
  destruct (Z.of_nat index =? _)%Z; [now right | now left].
Qed.

Lemma entryLine_shape (prefix : string) (count index : nat) (e : Dirent.t) :
  exists connector,
    isConnector connector
    /\ entryLine prefix count index e = prefix +:+ connector +:+ entryText e.
Proof.
  unfold entryLine, isConnector.
  destruct (Z.of_nat index =? _)%Z; eexists; split; try reflexivity; auto.
Qed.

Lemma showsEntry_deeper (k : nat) (e : Dirent.t) (block rest : string) :
  1 <= k -> isChildPrefix block -> ShowsEntry k e rest ->
  ShowsEntry (S k) e (block +:+ rest).
Proof.
  intros Hk Hb (indent & connector & Hind & Hc & ->).
  exists (block +:+ indent), connector. repeat split; try assumption.
  - replace (S k - 1) with (S (k - 1)) by lia. now constructor.
  - now rewrite append_assoc.
Qed.

Lemma showsPlaceholder_deeper (k : nat) (block rest : string) :
  1 <= k -> isChildPrefix block -> ShowsPlaceholder k rest ->
  ShowsPlaceholder (S k) (block +:+ rest).
Proof.
  intros Hk Hb (indent & Hind & ->).
  exists (block +:+ indent). split.
  - replace (S k - 1) with (S (k - 1)) by lia. now constructor.
  - now rewrite append_assoc.
Qed.

Section TreeDepth.

Variable localeCompare : string -> string -> comparison.
Variable maxDepth : Z.

(** Every line stands at a level within the limit and shows an entry of
    that level, or the placeholder. *)
Lemma buildTree_sound (n : nat) :
  forall dir currentDepth prefix line,
    Z.to_nat (maxDepth + 1 - currentDepth) <= n ->
    In line (buildTree localeCompare dir currentDepth maxDepth prefix) ->
    exists k rest,
      1 <= k /\ (Z.of_nat k + currentDepth - 1 <= maxDepth)%Z
      /\ line = prefix +:+ rest
      /\ (ShowsPlaceholder k rest
          \/ exists e, EntryAt dir k e /\ ShowsEntry k e rest).
Proof.
  induction n as [|n IH]; intros dir d prefix line Hn Hline;
    rewrite buildTree_level in Hline;
    destruct (Z.gtb_spec d maxDepth) as [Hgt|Hle]; try contradiction;
    try lia.
  destruct (Fs.readdir (Some dir)) as [entries|] eqn:Hread.
  - cbv zeta in Hline. unfold Array.mapi in Hline.
    apply in_concat_mapiFrom in Hline as (i & e & Hnth & Hin).
    apply nth_error_In, levelEntries_In in Hnth as [He Hvis].
    unfold treeBlock in Hin. destruct Hin as [Hown | Hsub].
    + destruct (entryLine_shape prefix
                  (length (levelEntries localeCompare entries)) (0 + i) e)
        as (connector & Hc & Heq).
      exists 1, (connector +:+ entryText e). repeat split; try lia.
      * now rewrite <- Hown.
      * right. exists e. split; [now apply (EntryChild dir entries)|].
        exists "", connector. repeat split; [constructor | assumption].
    + destruct (Dirent.isDirectory e) eqn:Hdir; [|contradiction].
      destruct (Z.ltb_spec d maxDepth) as [Hlt|Hge]; [|contradiction].
      simpl andb in Hsub. cbv iota in Hsub.
      apply IH in Hsub as (k & rest & Hk & Hbound & -> & Hshape); [|lia].
      set (block := childPrefixAt _ _).
      assert (Hblock : isChildPrefix block) by apply childPrefixAt_isChildPrefix.
      exists (S k), (block +:+ rest). repeat split; try lia.
      * now rewrite append_assoc.
      * destruct Hshape as [Hp | (e' & Hat & Hshow)].
        -- left. now apply showsPlaceholder_deeper.
        -- right. exists e'. split.
           ++ now apply (EntryBelow dir entries e).
           ++ now apply showsEntry_deeper.
  - destruct Hline as [<-|[]].
    exists 1, "[Permission denied]". repeat split; try lia.
    left. exists "". split; [constructor | reflexivity].
Qed.

(** Every entry of a level within the limit has its line. *)
Lemma buildTree_complete (dir : node) (k : nat) (e : Dirent.t) :
  EntryAt dir k e ->
  forall currentDepth prefix,
    (Z.of_nat k + currentDepth - 1 <= maxDepth)%Z ->
    exists rest,
      In (prefix +:+ rest)
         (buildTree localeCompare dir currentDepth maxDepth prefix)
      /\ ShowsEntry k e rest.
Proof.
  induction 1 as [dir entries e Hread He Hvis
                 | dir entries sub k e Hread Hsub Hvis Hdir Hat IH];
    intros d prefix Hbound; rewrite buildTree_level;
    (destruct (Z.gtb_spec d maxDepth) as [Hgt|Hle]; [lia|]);
    rewrite Hread; cbv zeta; unfold Array.mapi.
  - assert (Hin : In e (levelEntries localeCompare entries))
      by now apply levelEntries_In.
    apply In_nth_error in Hin as [i Hi].
    destruct (entryLine_shape prefix
                (length (levelEntries localeCompare entries)) (0 + i) e)
      as (connector & Hc & Heq).
    exists (connector +:+ entryText e). split.
    + apply in_concat_mapiFrom. exists i, e. split; [exact Hi|].
      left. exact Heq.
    + exists "", connector. repeat split; [constructor | assumption].
  - assert (Hin : In sub (levelEntries localeCompare entries))
      by now apply levelEntries_In.
    apply In_nth_error in Hin as [i Hi].
    set (count := length (levelEntries localeCompare entries)).
    destruct (IH (d + 1)%Z (prefix +:+ childPrefixAt count (0 + i)))
      as (rest & Hrest & Hshow); [lia|].
    assert (Hk : 1 <= k) by (inversion Hat; lia).
    exists (childPrefixAt count (0 + i) +:+ rest). split.
    + apply in_concat_mapiFrom. exists i, sub. split; [exact Hi|].
      right. rewrite Hdir.
      destruct (Z.ltb_spec d maxDepth) as [Hlt|Hge]; [|lia].
      simpl andb. cbv iota. now rewrite <- append_assoc.
    + apply showsEntry_deeper; try assumption.
      apply childPrefixAt_isChildPrefix.
Qed.

End TreeDepth.

(** C6.  In the tree built from depth 1 with limit [maxDepth], every line
    stands at a level [k] between 1 and [maxDepth] and shows an entry
    that lies [k] levels below the starting directory (or the
    placeholder of a directory that cannot be read); and every entry
    that lies at most [maxDepth] levels below has its line.  So limit 1
    gives the immediate children only, limit 2 adds the grandchildren,
    and nothing deeper than the limit is ever shown. *)
Theorem buildTree_depth_bounded
        (localeCompare : string -> string -> comparison) (dir : node)
        (maxDepth : Z) :
  let tree := buildTree localeCompare dir 1 maxDepth "" in
  (forall line,
      In line tree ->
      exists k,
        1 <= k /\ (Z.of_nat k <= maxDepth)%Z
        /\ (ShowsPlaceholder k line
            \/ exists e, EntryAt dir k e /\ ShowsEntry k e line))
  /\ (forall k e,
        EntryAt dir k e -> (Z.of_nat k <= maxDepth)%Z ->
        exists line, In line tree /\ ShowsEntry k e line).
Proof.
  intros tree. split.
  - intros line Hline.
    destruct (buildTree_sound localeCompare maxDepth _ dir 1%Z "" line
                (Nat.le_refl _) Hline)
      as (k & rest & Hk & Hbound & Heq & Hshape).
    simpl in Heq. subst rest. exists k. repeat split; [lia | lia | exact Hshape].
  - intros k e Hat Hbound.
    destruct (buildTree_complete localeCompare maxDepth dir k e Hat 1%Z "")
      as (rest & Hin & Hshow); [lia|].
    now exists rest.
Qed.

(** The depth scenarios of the test suite on the sample repository:
    limit 1 shows the children, limit 2 adds the grandchildren, and the
    files of [src/components], three levels down, appear with limit 3
    only. *)
Example buildTree_sample_depths :
  buildTree codeUnitCompare sampleRepo 1 1 ""
  = [ "├── docs/"; "├── locked/"; "├── src/"; "└── package.json" ]
  /\ buildTree codeUnitCompare sampleRepo 1 2 ""
     = [ "├── docs/"; "│   ├── README.md"; "│   └── api.md";
         "├── locked/"; "│   [Permission denied]";
         "├── src/"; "│   ├── components/"; "│   ├── utils/";
         "│   └── index.ts";
         "└── package.json" ]
  /\ In "│   │   ├── Button.ts" (buildTree codeUnitCompare sampleRepo 1 3 "").
Proof.
  split; [reflexivity|]. split; [reflexivity|].
  vm_compute. tauto.
Qed.

(** *** Sorted levels *)

Lemma StronglySorted_filter {A : Type} (R : A -> A -> Prop) (f : A -> bool)
      (l : list A) :
  StronglySorted R l -> StronglySorted R (filter f l).
Proof.
  induction 1 as [|x l Hl IH Hx]; simpl; [constructor|].
  destruct (f x); [|exact IH].
  constructor; [exact IH|].
  rewrite Forall_forall in *. intros y Hy. apply Hx.
  now apply filter_In in Hy.
Qed.

Lemma StronglySorted_weaken {A : Type} (R R' : A -> A -> Prop) (P : A -> Prop)
      (l : list A) :
  (forall a b, P a -> P b -> R a b -> R' a b) ->
  Forall P l -> StronglySorted R l -> StronglySorted R' l.
Proof.
  intros Himp HP. induction 1 as [|x l Hl IH Hx]; [constructor|].
  inversion HP as [|? ? Px Pl]; subst.
  constructor; [now apply IH|].
  rewrite Forall_forall in *. intros y Hy. apply Himp; auto.
Qed.

Section TreeOrder.

Variable localeCompare : string -> string -> comparison.

Hypothesis localeCompare_total :
  forall a b, localeCompare a b = Gt -> localeCompare b a <> Gt.

Hypothesis localeCompare_trans :
  forall a b c,
    localeCompare a b <> Gt -> localeCompare b c <> Gt ->
    localeCompare a c <> Gt.

Lemma inOrder_total (a b : Dirent.t) :
  compareEntries localeCompare a b = Gt -> inOrder localeCompare b a.
Proof.
  unfold inOrder, compareEntries.
  destruct (Dirent.isDirectory a), (Dirent.isDirectory b); simpl;
    try discriminate; auto.
Qed.

Lemma inOrder_trans (a b c : Dirent.t) :
  inOrder localeCompare a b -> inOrder localeCompare b c ->
  inOrder localeCompare a c.
Proof.
  unfold inOrder, compareEntries.
  destruct (Dirent.isDirectory a), (Dirent.isDirectory b),
    (Dirent.isDirectory c); simpl; try congruence; eauto.
Qed.

Lemma insert_sorted (x : Dirent.t) (l : list Dirent.t) :
  StronglySorted (inOrder localeCompare) l ->
  StronglySorted (inOrder localeCompare)
                 (Array.insert (compareEntries localeCompare) x l).
Proof.
  induction 1 as [|y l Hl IH Hy]; simpl.
  - repeat constructor.
  - destruct (compareEntries localeCompare x y) eqn:Hxy.
    + constructor; [now constructor|].
      assert (Hle : inOrder localeCompare x y) by (unfold inOrder; congruence).
      constructor; [exact Hle|].
      rewrite Forall_forall in *. intros z Hz.
      eapply inOrder_trans; [exact Hle | now apply Hy].
    + constructor; [now constructor|].
      assert (Hle : inOrder localeCompare x y) by (unfold inOrder; congruence).
      constructor; [exact Hle|].
      rewrite Forall_forall in *. intros z Hz.
      eapply inOrder_trans; [exact Hle | now apply Hy].
    + constructor; [exact IH|].
      rewrite Forall_forall in *. intros z Hz.
      apply (Permutation_in _ (insert_perm _ x l)) in Hz.
      destruct Hz as [<-|Hz]; [now apply inOrder_total | now apply Hy].
Qed.

Lemma sort_sorted (l : list Dirent.t) :
  StronglySorted (inOrder localeCompare)
                 (Array.sort (compareEntries localeCompare) l).
Proof.
  induction l as [|x l IH]; simpl; [constructor | now apply insert_sorted].
Qed.

Lemma levelEntries_sorted (entries : list Dirent.t) :
  StronglySorted (inOrder localeCompare) (levelEntries localeCompare entries).
Proof. apply StronglySorted_filter, sort_sorted. Qed.

(** In a sorted level the directories come first. *)
Lemma sorted_directories_first (l : list Dirent.t) :
  StronglySorted (inOrder localeCompare) l ->
  l = filter Dirent.isDirectory l
      ++ filter (fun e => negb (Dirent.isDirectory e)) l.
Proof.
  induction 1 as [|x l Hl IH Hx]; [reflexivity|]. simpl.
  destruct (Dirent.isDirectory x) eqn:Hdir; simpl.
  - now rewrite <- IH.
  - assert (Hnone : forall y, In y l -> Dirent.isDirectory y = false).
    { rewrite Forall_forall in Hx. intros y Hy. specialize (Hx y Hy).
      unfold inOrder, compareEntries in Hx. rewrite Hdir in Hx.
      destruct (Dirent.isDirectory y); [now elim Hx | reflexivity]. }
    assert (Hd : filter Dirent.isDirectory l = []).
    { clear -Hnone. induction l as [|y l IH]; [reflexivity|]. simpl.
      rewrite (Hnone y (or_introl eq_refl)). apply IH.
      intros z Hz. apply Hnone. now right. }
    assert (Hf : filter (fun e => negb (Dirent.isDirectory e)) l = l).
    { clear -Hnone. induction l as [|y l IH]; [reflexivity|]. simpl.
      rewrite (Hnone y (or_introl eq_refl)). simpl. f_equal. apply IH.
      intros z Hz. apply Hnone. now right. }
    now rewrite Hd, Hf.
Qed.

Lemma sorted_names_ascending (kind : bool) (l : list Dirent.t) :
  Forall (fun e => Dirent.isDirectory e = kind) l ->
  StronglySorted (inOrder localeCompare) l ->
  StronglySorted (notAfter localeCompare) l.
Proof.
  apply StronglySorted_weaken. intros a b Ha Hb.
  unfold inOrder, notAfter, compareEntries. rewrite Ha, Hb.
  now destruct kind.
Qed.

(** The lines of one level, picked out of the output. *)
Lemma level_lines (currentDepth maxDepth : Z) (prefix : string) (count : nat)
      (level : list Dirent.t) :
  forall k,
    filter (isEntryLineAt prefix)
           (concat (Array.mapiFrom k
                      (treeBlock localeCompare currentDepth maxDepth prefix count)
                      level))
    = Array.mapiFrom k (entryLine prefix count) level.
Proof.
  induction level as [|e level IH]; intros k; [reflexivity|].
  simpl Array.mapiFrom. simpl concat.
  assert (Hown : isEntryLineAt prefix (entryLine prefix count k e) = true).
  { unfold isEntryLineAt, entryLine.
    destruct (Z.of_nat k =? _)%Z; rewrite !startsWith_append,
      startsWith_own_prefix; [apply orb_true_r | reflexivity]. }
  cbn [filter]. rewrite Hown, filter_app, IH. f_equal.
  match goal with
  | |- filter _ ?sub ++ _ = _ =>
      assert (Hsub : filter (isEntryLineAt prefix) sub = [])
  end.
  { destruct (Dirent.isDirectory e && (currentDepth <? maxDepth)%Z);
      [|reflexivity].
    match goal with
    | |- filter _ ?sub = _ =>
        assert (Hall : forall line,
                   In line sub -> isEntryLineAt prefix line = false)
    end.
    { intros line Hline.
      apply (buildTree_sound localeCompare maxDepth _ _ _ _ _ (Nat.le_refl _))
        in Hline as (j & rest & _ & _ & -> & _).
      unfold isEntryLineAt. rewrite append_assoc, !startsWith_append.
      unfold childPrefixAt. now destruct (Z.of_nat k =? _)%Z. }
    revert Hall. generalize (buildTree localeCompare (snd e) (currentDepth + 1)
                               maxDepth (prefix +:+ childPrefixAt count k)).
    intros sub Hall. induction sub as [|line sub IHsub]; [reflexivity|].
    simpl. rewrite (Hall line (or_introl eq_refl)). apply IHsub.
    intros l Hl. apply Hall. now right. }
  now rewrite Hsub.
Qed.

(** C7.  For a directory that can be read, the lines of its level in the
    built tree are the lines of its directories followed by the lines of
    its other entries; within each group the names ascend in the
    collation; and the entries shown are exactly those whose name neither
    starts with a dot nor is [node_modules]. *)
Theorem buildTree_level_order
        (dir : node) (entries : list Dirent.t) (currentDepth maxDepth : Z)
        (prefix : string) :
  Fs.readdir (Some dir) = Some entries ->
  (currentDepth <= maxDepth)%Z ->
  exists directories others : list Dirent.t,
    filter (isEntryLineAt prefix)
           (buildTree localeCompare dir currentDepth maxDepth prefix)
    = Array.mapi (entryLine prefix (length (directories ++ others)))
                 (directories ++ others)
    /\ Forall (fun e => Dirent.isDirectory e = true) directories
    /\ Forall (fun e => Dirent.isDirectory e = false) others
    /\ StronglySorted (notAfter localeCompare) directories
    /\ StronglySorted (notAfter localeCompare) others
    /\ (forall e, In e (directories ++ others)
                  <-> In e entries /\ hidden (Dirent.name e) = false).
Proof.
  intros Hread Hdepth.
  set (level := levelEntries localeCompare entries).
  assert (Hsorted : StronglySorted (inOrder localeCompare) level)
    by apply levelEntries_sorted.
  assert (Hsplit := sorted_directories_first level Hsorted).
  set (directories := filter Dirent.isDirectory level) in *.
  set (others := filter (fun e => negb (Dirent.isDirectory e)) level) in *.
  assert (Hd : Forall (fun e => Dirent.isDirectory e = true) directories).
  { apply Forall_forall. intros e He. now apply filter_In in He. }
  assert (Ho : Forall (fun e => Dirent.isDirectory e = false) others).
  { apply Forall_forall. intros e He. apply filter_In in He as [_ He].
    now apply negb_true_iff. }
  exists directories, others. rewrite <- Hsplit.
  split; [|split; [exact Hd|split; [exact Ho|split; [|split]]]].
  - rewrite buildTree_level, Hread.
    destruct (Z.gtb_spec currentDepth maxDepth); [lia|].
    cbv zeta. apply level_lines.
  - apply (sorted_names_ascending true); [exact Hd|].
    now apply StronglySorted_filter.
  - apply (sorted_names_ascending false); [exact Ho|].
    now apply StronglySorted_filter.
  - intros e. apply levelEntries_In.
Qed.

End TreeOrder.

(** *** A collation to instantiate with: comparison by code units *)

Lemma codeUnitCompare_total (a b : string) :
  codeUnitCompare a b = Gt -> codeUnitCompare b a <> Gt.
Proof.
  unfold codeUnitCompare. intros H.
  rewrite String.compare_antisym, H. discriminate.
Qed.

Lemma ascii_compare_lt_trans (x y z : ascii) :
  Ascii.compare x y = Lt -> Ascii.compare y z = Lt -> Ascii.compare x z = Lt.
Proof.
  unfold Ascii.compare. rewrite !N.compare_lt_iff. apply N.lt_trans.
Qed.

Lemma codeUnitCompare_trans (a b c : string) :
  codeUnitCompare a b <> Gt -> codeUnitCompare b c <> Gt ->
  codeUnitCompare a c <> Gt.
Proof.
  unfold codeUnitCompare. revert b c.
  induction a as [|x a IH]; intros b c Hab Hbc.
  - destruct c; discriminate.
  - destruct b as [|y b]; [now elim Hab|].
    destruct c as [|z c]; [now elim Hbc|].
    simpl in *.
    destruct (Ascii.compare x y) eqn:Hxy; [| |now elim Hab].
    + apply Ascii.compare_eq_iff in Hxy. subst y.
      destruct (Ascii.compare x z); [now apply (IH b) | discriminate | exact Hbc].
    + destruct (Ascii.compare y z) eqn:Hyz; [| |now elim Hbc].
      * apply Ascii.compare_eq_iff in Hyz. subst z. rewrite Hxy. discriminate.
      * rewrite (ascii_compare_lt_trans x y z Hxy Hyz). discriminate.
Qed.

Lemma buildTree_level_order_witness :
  exists directories others : list Dirent.t,
    filter (isEntryLineAt "") (buildTree codeUnitCompare sampleRepo 1 2 "")
    = Array.mapi (entryLine "" (length (directories ++ others)))
                 (directories ++ others)
    /\ Forall (fun e => Dirent.isDirectory e = true) directories
    /\ Forall (fun e => Dirent.isDirectory e = false) others
    /\ StronglySorted (notAfter codeUnitCompare) directories
    /\ StronglySorted (notAfter codeUnitCompare) others
    /\ (forall e, In e (directories ++ others)
                  <-> In e (match sampleRepo with
                            | Dir _ (Some l) => l
                            | _ => []
                            end)
                      /\ hidden (Dirent.name e) = false).
Proof.
  apply (buildTree_level_order codeUnitCompare codeUnitCompare_total
           codeUnitCompare_trans sampleRepo _ 1 2 "");
    [reflexivity | lia].
Defined.

(** ** The operations around the sandbox check *)

Lemma includes_suffix (a b : string) : Js.includes (a +:+ b) b = true.
Proof.
  induction a as [|c a IH]; simpl.
  - destruct b as [|d b]; [reflexivity|].
    simpl. rewrite Ascii.eqb_refl.
    replace (Js.startsWith b b) with true; [reflexivity|].
    symmetry. apply startsWith_iff. exists "". now rewrite append_empty_r.
  - fold (Js.includes (a +:+ b) b). rewrite IH. apply orb_true_r.
Qed.

Lemma orElse_truthy (a b : string) : Js.truthy a = true -> Js.orElse a b = a.
Proof. unfold Js.orElse. now intros ->. Qed.

(** An operation that takes a path raises the sandbox error as soon as
    the path resolves outside the root, whatever the filesystem holds
    there: the target is not looked at. *)
Lemma execute_rejects_traversal
      (host : Host.t) (params : Params.t) (rootStats : Stats.t)
      (err : NodeError) :
  let cwd := Host.cwd host in
  let resolvedRoot := Path.resolve cwd [Params.rootPath params] in
  let operation := Params.operation params in
  Js.truthy (Params.rootPath params) = true ->
  getStats (Host.fs host) resolvedRoot = Some rootStats ->
  Stats.isDirectory rootStats = true ->
  validatePath cwd resolvedRoot (Js.orElse (Params.path params) ".") = inl err ->
  operation = "listDirectory" \/ operation = "findFiles" \/ operation = "tree"
  \/ (operation = "readFile" /\ Js.truthy (Params.path params) = true)
  \/ (operation = "fileInfo" /\ Js.truthy (Params.path params) = true)
  \/ (operation = "grep" /\ Js.truthy (Params.searchPattern params) = true) ->
  execute host params = inl err.
Proof.
  intros cwd resolvedRoot operation Hroot Hstat Hdir Hvalid Hop.
  unfold execute. rewrite Hroot. simpl negb. cbv iota.
  fold cwd. fold resolvedRoot. rewrite Hstat, Hdir. simpl negb. cbv iota.
  fold operation.
  destruct Hop as [-> | [-> | [-> | [[-> Hp] | [[-> Hp] | [-> Hp]]]]]]; simpl.
  - unfold listDirectoryCase. fold cwd. now rewrite Hvalid.
  - unfold findFilesCase. fold cwd. now rewrite Hvalid.
  - unfold treeCase. fold cwd. now rewrite Hvalid.
  - unfold readFileCase. rewrite Hp. simpl. fold cwd.
    rewrite (orElse_truthy _ "." Hp) in Hvalid. now rewrite Hvalid.
  - unfold fileInfoCase. rewrite Hp. simpl. fold cwd.
    rewrite (orElse_truthy _ "." Hp) in Hvalid. now rewrite Hvalid.
  - unfold grepCase. rewrite Hp. simpl. fold cwd. now rewrite Hvalid.
Qed.

(** The four operations that check their target with [getStats] report
    a missing target as data: a record with [found: false] (for
    [fileInfo], [exists: false]) and a message that holds the path. *)
Lemma missing_target_is_reported
      (host : Host.t) (params : Params.t) (rootStats : Stats.t)
      (fullPath : string) :
  let cwd := Host.cwd host in
  let resolvedRoot := Path.resolve cwd [Params.rootPath params] in
  let operation := Params.operation params in
  let target := Js.orElse (Params.path params) "." in
  Js.truthy (Params.rootPath params) = true ->
  getStats (Host.fs host) resolvedRoot = Some rootStats ->
  Stats.isDirectory rootStats = true ->
  validatePath cwd resolvedRoot target = inr fullPath ->
  getStats (Host.fs host) fullPath = None ->
  operation = "listDirectory" \/ operation = "tree"
  \/ (operation = "readFile" /\ Js.truthy (Params.path params) = true)
  \/ (operation = "fileInfo" /\ Js.truthy (Params.path params) = true) ->
  exists record text,
    execute host params = inr record
    /\ (if operation =? "fileInfo" then exists_ record else found record)
       = Some false
    /\ message record = Some text
    /\ Js.includes text target = true.
Proof.
  intros cwd resolvedRoot operation target Hroot Hstat Hdir Hvalid Hmiss Hop.
  unfold execute. rewrite Hroot. simpl negb. cbv iota.
  fold cwd. fold resolvedRoot. rewrite Hstat, Hdir. simpl negb. cbv iota.
  fold operation.
  destruct Hop as [-> | [-> | [[-> Hp] | [-> Hp]]]]; simpl.
  - unfold listDirectoryCase. fold cwd. fold target. rewrite Hvalid, Hmiss.
    do 2 eexists. repeat split. apply (includes_suffix "Directory not found: ").
  - unfold treeCase. fold cwd. fold target. rewrite Hvalid, Hmiss.
    do 2 eexists. repeat split. apply (includes_suffix "Directory not found: ").
  - unfold readFileCase. rewrite Hp. simpl. fold cwd.
    unfold target in *. rewrite (orElse_truthy _ "." Hp) in *.
    rewrite Hvalid, Hmiss.
    do 2 eexists. repeat split. apply (includes_suffix "File not found: ").
  - unfold fileInfoCase. rewrite Hp. simpl. fold cwd.
    unfold target in *. rewrite (orElse_truthy _ "." Hp) in *.
    rewrite Hvalid, Hmiss.
    do 2 eexists. repeat split. apply (includes_suffix "Path not found: ").
Qed.

(** ** The walkers behind their operations *)

(** The findFiles operation runs the walker from the validated path with
    the compiled glob and the bound 1000. *)
Lemma findFiles_operation
      (host : Host.t) (params : Params.t) (rootStats : Stats.t)
      (fullPath : string) (dir : node) :
  let cwd := Host.cwd host in
  let resolvedRoot := Path.resolve cwd [Params.rootPath params] in
  let target := Js.orElse (Params.path params) "." in
  let regex :=
    RegExp.mk (RegExp.Begin :: globTerms (Params.namePattern params)
                 ++ [RegExp.End]) true in
  let files :=
    firstn 1000 (matchingFiles cwd dir fullPath regex resolvedRoot) in
  Js.truthy (Params.rootPath params) = true ->
  getStats (Host.fs host) resolvedRoot = Some rootStats ->
  Stats.isDirectory rootStats = true ->
  Params.operation params = "findFiles" ->
  validatePath cwd resolvedRoot target = inr fullPath ->
  Fs.nodeAt (Host.fs host) fullPath = Some dir ->
  execute host params
  = inr (FindFiles (Params.namePattern params) target
           (Z.of_nat (length files)) files).
Proof.
  intros cwd resolvedRoot target regex files Hroot Hstat Hdir Hop Hvalid Hnode.
  unfold execute. rewrite Hroot. simpl negb. cbv iota.
  fold cwd. fold resolvedRoot. rewrite Hstat, Hdir, Hop. simpl.
  unfold findFilesCase. fold cwd. fold target.
  rewrite Hvalid, globToRegex_compiles, Hnode. fold regex.
  rewrite findFilesRecursive_spec.
  change (room 1000 []) with 1000. reflexivity.
Qed.

(** The tree operation clamps the depth limit to 1..10 and puts the
    root's own line before the walker's. *)
Lemma tree_operation
      (host : Host.t) (params : Params.t) (rootStats : Stats.t)
      (fullPath : string) (entries : list Dirent.t) :
  let cwd := Host.cwd host in
  let resolvedRoot := Path.resolve cwd [Params.rootPath params] in
  let target := Js.orElse (Params.path params) "." in
  let limit := Z.max 1 (Z.min 10 (Params.maxDepth params)) in
  Js.truthy (Params.rootPath params) = true ->
  getStats (Host.fs host) resolvedRoot = Some rootStats ->
  Stats.isDirectory rootStats = true ->
  Params.operation params = "tree" ->
  validatePath cwd resolvedRoot target = inr fullPath ->
  Fs.readdirSync (Host.fs host) fullPath = Some entries ->
  exists dir text rootLine,
    Fs.nodeAt (Host.fs host) fullPath = Some dir
    /\ (1 <= limit <= 10)%Z
    /\ execute host params
       = inr (Tree target limit text
                (rootLine
                 :: buildTree (Host.localeCompare host) dir 1 limit "")).
Proof.
  intros cwd resolvedRoot target limit Hroot Hstat Hdir Hop Hvalid Hread.
  destruct (readdirSync_stat _ _ _ Hread) as [sz Hdstat].
  unfold Fs.readdirSync in Hread.
  destruct (Fs.nodeAt (Host.fs host) fullPath) as [dir|] eqn:Hnode;
    [|discriminate].
  exists dir. do 2 eexists. split; [reflexivity|]. split; [unfold limit; lia|].
  unfold execute. rewrite Hroot. simpl negb. cbv iota.
  fold cwd. fold resolvedRoot. rewrite Hstat, Hdir, Hop. simpl.
  unfold treeCase. fold cwd. fold target. fold limit.
  rewrite Hvalid, Hdstat. simpl. rewrite Hnode. reflexivity.
Qed.

(* ================================================================== *)
(** * Further properties *)

(** ** What the sandbox check lets through *)

Lemma plainName_facts (s : string) :
  plainName s = true ->
  (s =? "") = false /\ (s =? ".") = false /\ (s =? "..") = false
  /\ noSlash s = true.
Proof.
  unfold plainName. rewrite !andb_true_iff, !negb_true_iff. tauto.
Qed.

Lemma split_of_noSlash (s : string) :
  noSlash s = true -> Js.split "/" s = [s].
Proof.
  induction s as [|c s IH]; [reflexivity|]. simpl.
  rewrite andb_true_iff, negb_true_iff. intros [Hc Hs].
  now rewrite Hc, (IH Hs).
Qed.

Lemma split_all_noSlash (s : string) :
  Forall (fun x => noSlash x = true) (Js.split "/" s).
Proof.
  induction s as [|c s IH]; simpl; [now repeat constructor|].
  destruct (Ascii.eqb c "/") eqn:Hc; [now constructor|].
  destruct (Js.split "/" s) as [|h t] eqn:Hsplit;
    [now elim (split_nonempty "/" s)|].
  inversion IH; subst. constructor; [|assumption].
  simpl. now rewrite Hc.
Qed.

Lemma split_join (l : list string) :
  l <> [] -> Forall (fun x => noSlash x = true) l ->
  Js.split "/" (Js.join "/" l) = l.
Proof.
  unfold Js.join. induction l as [|x l IH]; [congruence|].
  intros _ Hl. inversion Hl as [|? ? Hx Hrest]; subst.
  destruct l as [|y l]; [now apply split_of_noSlash|].
  change (String.concat "/" (x :: y :: l))
    with (x +:+ String "/" (String.concat "/" (y :: l))).
  rewrite split_append, (split_of_noSlash x Hx), IH; [reflexivity | discriminate | assumption].
Qed.

Lemma join_app (l1 l2 : list string) :
  l1 <> [] -> l2 <> [] ->
  Js.join "/" (l1 ++ l2) = Js.join "/" l1 +:+ "/" +:+ Js.join "/" l2.
Proof.
  unfold Js.join. induction l1 as [|x l1 IH]; [congruence|].
  intros _ H2. destruct l1 as [|y l1].
  - destruct l2 as [|z l2]; [congruence | reflexivity].
  - change (String.concat "/" ((x :: y :: l1) ++ l2))
      with (x +:+ "/" +:+ String.concat "/" ((y :: l1) ++ l2)).
    rewrite IH by (discriminate || assumption).
    change (String.concat "/" (x :: y :: l1))
      with (x +:+ "/" +:+ String.concat "/" (y :: l1)).
    now rewrite !append_assoc.
Qed.

Lemma normalizeSegments_app (allow : bool) (l1 l2 : list string) :
  forall acc,
    Path.normalizeSegments allow acc (l1 ++ l2)
    = Path.normalizeSegments allow
        (rev (Path.normalizeSegments allow acc l1)) l2.
Proof.
  induction l1 as [|s l1 IH]; intros acc; simpl.
  - now rewrite rev_involutive.
  - destruct ((s =? "") || (s =? ".")); [apply IH|].
    destruct (s =? ".."); [|apply IH].
    destruct acc as [|top acc']; [apply IH|].
    destruct (top =? ".."); apply IH.
Qed.

Lemma normalizeSegments_plain (allow : bool) (l : list string) :
  Forall (fun x => plainName x = true) l ->
  forall acc, Path.normalizeSegments allow acc l = rev acc ++ l.
Proof.
  induction 1 as [|s l Hs Hl IH]; intros acc; simpl.
  - now rewrite app_nil_r.
  - destruct (plainName_facts s Hs) as (H1 & H2 & H3 & _).
    rewrite H1, H2, H3. simpl. rewrite IH. simpl.
    now rewrite <- app_assoc.
Qed.

Lemma normalizeSegments_yields_plain (segs : list string) :
  Forall (fun x => noSlash x = true) segs ->
  forall acc,
    Forall (fun x => plainName x = true) acc ->
    Forall (fun x => plainName x = true)
           (Path.normalizeSegments false acc segs).
Proof.
  induction 1 as [|s segs Hs Hsegs IH]; intros acc Hacc; simpl.
  - now apply Forall_rev.
  - destruct (s =? "") eqn:H1; [now apply IH|].
    destruct (s =? ".") eqn:H2; [now apply IH|]. simpl.
    destruct (s =? "..") eqn:H3.
    + destruct acc as [|top acc']; [now apply IH|].
      inversion Hacc; subst.
      destruct (top =? ".."); now apply IH.
    + apply IH. constructor; [|assumption].
      unfold plainName. now rewrite H1, H2, H3, Hs.
Qed.

Lemma normalize_join (segs : list string) :
  Forall (fun x => plainName x = true) segs ->
  Path.normalizeSegments false [] (Js.split "/" (Js.join "/" segs)) = segs.
Proof.
  intros Hsegs. destruct segs as [|x segs]; [reflexivity|].
  rewrite split_join.
  - now rewrite normalizeSegments_plain.
  - discriminate.
  - eapply Forall_impl; [|exact Hsegs].
    intros a Ha. now apply plainName_facts in Ha.
Qed.

(** With an absolute working directory every resolved path is a
    separator followed by plain segments joined by separators. *)
Lemma resolve_shape (cwd : string) (args : list string) :
  Path.isAbsolute cwd = true ->
  exists segs,
    Path.resolve cwd args = "/" +:+ Js.join "/" segs
    /\ Forall (fun x => plainName x = true) segs.
Proof.
  intros Hcwd. unfold Path.resolve. simpl fold_right.
  destruct (fold_right Path.resolveStep ("", false) args) as [p abs].
  assert (Habs : exists q, Path.resolveStep cwd (p, abs) = (q, true)).
  { unfold Path.resolveStep. destruct abs; [now exists p|].
    destruct cwd as [|c cwd]; [discriminate|]. simpl String.eqb.
    cbv iota. rewrite Hcwd. eexists. reflexivity. }
  destruct Habs as [q ->]. simpl negb. cbv iota.
  eexists. split; [reflexivity|].
  apply normalizeSegments_yields_plain; [apply split_all_noSlash | constructor].
Qed.

(** Resolving a relative continuation against a resolved root. *)
Lemma resolve_below (cwd : string) (segs : list string) (rel : string) :
  Path.isAbsolute cwd = true ->
  Forall (fun x => plainName x = true) segs ->
  Path.isAbsolute rel = false ->
  Path.resolve cwd ["/" +:+ Js.join "/" segs; rel]
  = "/" +:+ Js.join "/"
              (Path.normalizeSegments false (rev segs)
                 (if rel =? "" then [""] else Js.split "/" rel ++ [""])).
Proof.
  intros Hcwd Hsegs Hrel.
  set (root := "/" +:+ Js.join "/" segs).
  unfold Path.resolve. cbn [fold_right].
  assert (Hgather :
    Path.resolveStep cwd
      (Path.resolveStep root (Path.resolveStep rel ("", false)))
    = (root +:+ "/" +:+ (if rel =? "" then "" else rel +:+ "/"), true)).
  { unfold Path.resolveStep at 3. simpl.
    destruct (rel =? "") eqn:Hempty.
    - unfold Path.resolveStep. reflexivity.
    - rewrite Hrel. unfold Path.resolveStep. reflexivity. }
  rewrite Hgather. simpl negb. cbv iota. f_equal. f_equal.
  unfold Path.normalizeString, root.
  change (("/" +:+ Js.join "/" segs) +:+ "/" +:+
          (if rel =? "" then "" else rel +:+ "/"))
    with (String "/" (Js.join "/" segs +:+
                      String "/" (if rel =? "" then "" else rel +:+ "/"))).
  change (Js.split "/" (String "/" ?x)) with ("" :: Js.split "/" x).
  simpl Js.split. rewrite split_append. simpl Path.normalizeSegments.
  rewrite normalizeSegments_app, (normalize_join segs Hsegs).
  destruct (rel =? ""); [reflexivity|].
  change (rel +:+ "/") with (rel +:+ String "/" "").
  now rewrite split_append.
Qed.

Lemma join_plain_head (names : list string) :
  names <> [] -> Forall (fun x => plainName x = true) names ->
  exists c s, Js.join "/" names = String c s /\ Ascii.eqb c "/" = false.
Proof.
  intros Hne Hnames. destruct names as [|x names]; [congruence|].
  inversion Hnames as [|? ? Hx _]; subst.
  destruct (plainName_facts x Hx) as (Hempty & _ & _ & Hslash).
  destruct x as [|c x]; [discriminate|].
  simpl in Hslash. apply andb_true_iff in Hslash as [Hc _].
  apply negb_true_iff in Hc.
  destruct names as [|y names]; [now exists c, x|].
  unfold Js.join.
  change (String.concat "/" (String c x :: y :: names))
    with (String c (x +:+ "/" +:+ String.concat "/" (y :: names))).
  now eexists _, _.
Qed.

Lemma resolve_names (cwd : string) (segs names : list string) :
  Path.isAbsolute cwd = true ->
  Forall (fun x => plainName x = true) segs ->
  names <> [] -> Forall (fun x => plainName x = true) names ->
  Path.resolve cwd ["/" +:+ Js.join "/" segs; Js.join "/" names]
  = "/" +:+ Js.join "/" (segs ++ names).
Proof.
  intros Hcwd Hsegs Hne Hnames.
  destruct (join_plain_head names Hne Hnames) as (c & s & Hjoin & Hc).
  rewrite resolve_below; try assumption.
  2:{ rewrite Hjoin.
      destruct c as [[] [] [] [] [] [] [] []]; try reflexivity; discriminate. }
  replace (Js.join "/" names =? "") with false by now rewrite Hjoin.
  rewrite split_join; [|assumption|].
  2:{ eapply Forall_impl; [|exact Hnames].
      intros a Ha. now apply plainName_facts in Ha. }
  rewrite normalizeSegments_app, (normalizeSegments_plain false names Hnames).
  simpl. now rewrite !rev_involutive.
Qed.

(** The root itself passes the sandbox check: the path [.], which
    [execute] substitutes for an empty path, and the empty path both
    resolve to the resolved root and are accepted. *)
Theorem validatePath_accepts_root (cwd rootPath : string) :
  Path.isAbsolute cwd = true ->
  validatePath cwd rootPath "." = inr (Path.resolve cwd [rootPath])
  /\ validatePath cwd rootPath "" = inr (Path.resolve cwd [rootPath]).
Proof.
  intros Hcwd.
  destruct (resolve_shape cwd [rootPath] Hcwd) as (segs & Hroot & Hsegs).
  unfold validatePath. rewrite Hroot.
  rewrite !resolve_below by (assumption || reflexivity).
  simpl. rewrite rev_involutive, String.eqb_refl, andb_false_r. now split.
Qed.

Lemma validatePath_accepts_root_witness :
  validatePath "/home/node" "/srv/repo" "." = inr "/srv/repo"
  /\ validatePath "/home/node" "/srv/repo" "" = inr "/srv/repo".
Proof.
  exact (validatePath_accepts_root "/home/node" "/srv/repo" eq_refl).
Defined.

(** Below a root other than the filesystem root, every path made of
    plain names (no separator inside, not empty, not [.] or [..]) joined by
    separators is accepted, and resolves to the root followed by that
    path. *)
Theorem validatePath_accepts_names
        (cwd rootPath : string) (names : list string) :
  Path.isAbsolute cwd = true ->
  Path.resolve cwd [rootPath] <> "/" ->
  names <> [] ->
  Forall (fun x => plainName x = true) names ->
  validatePath cwd rootPath (Js.join "/" names)
  = inr (Path.resolve cwd [rootPath] +:+ "/" +:+ Js.join "/" names).
Proof.
  intros Hcwd Hroot Hne Hnames.
  destruct (resolve_shape cwd [rootPath] Hcwd) as (segs & Hshape & Hsegs).
  assert (Hsegs_ne : segs <> []) by (intros ->; now apply Hroot).
  destruct (validatePath_decides cwd rootPath (Js.join "/" names))
    as [[_ Hv] | [Hout _]].
  - rewrite Hv, Hshape, resolve_names, join_app by assumption.
    now rewrite !append_assoc.
  - exfalso. apply Hout. right. exists (Js.join "/" names).
    rewrite Hshape, resolve_names, join_app by assumption.
    unfold Path.sep. now rewrite !append_assoc.
Qed.

Lemma validatePath_accepts_names_witness :
  validatePath "/home/node" "/srv/repo" "src/utils/helpers.ts"
  = inr "/srv/repo/src/utils/helpers.ts".
Proof.
  apply (validatePath_accepts_names "/home/node" "/srv/repo"
           ["src"; "utils"; "helpers.ts"]).
  - reflexivity.
  - vm_compute. discriminate.
  - discriminate.
  - repeat constructor.
Defined.

(** When the root resolves to the filesystem root, the check rejects
    every path of plain names: the resolved path starts with one
    separator, the prefix asked for is two. *)
Theorem validatePath_root_slash_rejects_names
        (cwd rootPath : string) (names : list string) :
  Path.isAbsolute cwd = true ->
  Path.resolve cwd [rootPath] = "/" ->
  names <> [] ->
  Forall (fun x => plainName x = true) names ->
  validatePath cwd rootPath (Js.join "/" names)
  = inl (PathTraversal (Js.join "/" names) ("/" +:+ Js.join "/" names) "/").
Proof.
  intros Hcwd Hroot Hne Hnames.
  destruct (join_plain_head names Hne Hnames) as (c & s & Hjoin & Hc).
  pose proof (resolve_names cwd [] names Hcwd (Forall_nil _) Hne Hnames)
    as Hres.
  change ("/" +:+ Js.join "/" []) with "/"%string in Hres.
  unfold validatePath. rewrite Hroot, Hres.
  simpl app. rewrite Hjoin. simpl. now rewrite Hc.
Qed.

Lemma validatePath_root_slash_rejects_names_witness :
  validatePath "/home/node" "/" "etc/passwd"
  = inl (PathTraversal "etc/passwd" "/etc/passwd" "/").
Proof.
  apply (validatePath_root_slash_rejects_names "/home/node" "/"
           ["etc"; "passwd"]).
  - reflexivity.
  - reflexivity.
  - discriminate.
  - repeat constructor.
Defined.

(** ** What [execute] raises and what it reports *)

Lemma execute_rejects_traversal_witness :
  execute sampleHost (sampleParams "readFile" "../../etc/passwd")
  = inl (PathTraversal "../../etc/passwd" "/etc/passwd" "/srv/repo").
Proof.
  apply (execute_rejects_traversal sampleHost
           (sampleParams "readFile" "../../etc/passwd")
           (Stats.mk false true false 4096)).
  - reflexivity.
  - reflexivity.
  - reflexivity.
  - reflexivity.
  - right; right; right; left. split; reflexivity.
Defined.

Lemma missing_target_is_reported_witness :
  exists record text,
    execute sampleHost (sampleParams "tree" "missing") = inr record
    /\ found record = Some false
    /\ message record = Some text
    /\ Js.includes text "missing" = true.
Proof.
  apply (missing_target_is_reported sampleHost (sampleParams "tree" "missing")
           (Stats.mk false true false 4096) "/srv/repo/missing").
  - reflexivity.
  - reflexivity.
  - reflexivity.
  - reflexivity.
  - reflexivity.
  - right; left. reflexivity.
Defined.

(** A target of the wrong kind is reported as data, like a missing one:
    listDirectory and tree on something that is not a directory, and
    readFile on something that is not a file, return a record with
    [found: false], a message that holds the path as given, and the flag
    that tells what the target is instead. *)
Theorem wrong_kind_target_is_reported
      (host : Host.t) (params : Params.t) (rootStats stats : Stats.t)
      (fullPath : string) :
  let cwd := Host.cwd host in
  let resolvedRoot := Path.resolve cwd [Params.rootPath params] in
  let operation := Params.operation params in
  let target := Js.orElse (Params.path params) "." in
  Js.truthy (Params.rootPath params) = true ->
  getStats (Host.fs host) resolvedRoot = Some rootStats ->
  Stats.isDirectory rootStats = true ->
  validatePath cwd resolvedRoot target = inr fullPath ->
  getStats (Host.fs host) fullPath = Some stats ->
  ((operation = "listDirectory" \/ operation = "tree")
   /\ Stats.isDirectory stats = false)
  \/ (operation = "readFile" /\ Js.truthy (Params.path params) = true
      /\ Stats.isFile stats = false) ->
  exists text isFile isDirectory,
    execute host params = inr (NotFound operation target text isFile isDirectory)
    /\ Js.includes text (Params.path params) = true
    /\ (if operation =? "readFile"
        then isFile = None /\ isDirectory = Some (Stats.isDirectory stats)
        else isFile = Some (Stats.isFile stats) /\ isDirectory = None).
Proof.
  intros cwd resolvedRoot operation target Hroot Hstat Hdir Hvalid Hthere Hop.
  unfold execute. rewrite Hroot. simpl negb. cbv iota.
  fold cwd. fold resolvedRoot. rewrite Hstat, Hdir. simpl negb. cbv iota.
  fold operation.
  destruct Hop as [[[-> | ->] Hkind] | (-> & Hp & Hkind)]; simpl.
  - unfold listDirectoryCase. fold cwd. fold target.
    rewrite Hvalid, Hthere, Hkind. simpl. do 3 eexists.
    split; [reflexivity|]. split; [|now split].
    apply (includes_suffix "Path exists but is not a directory: ").
  - unfold treeCase. fold cwd. fold target.
    rewrite Hvalid, Hthere, Hkind. simpl. do 3 eexists.
    split; [reflexivity|]. split; [|now split].
    apply (includes_suffix "Path exists but is not a directory: ").
  - unfold readFileCase. rewrite Hp. simpl. fold cwd.
    unfold target in *. rewrite (orElse_truthy _ "." Hp) in *.
    rewrite Hvalid, Hthere, Hkind. simpl. do 3 eexists.
    split; [reflexivity|]. split; [|now split].
    apply (includes_suffix "Path exists but is not a file: ").
Qed.

Lemma wrong_kind_target_is_reported_witness :
  exists text isFile isDirectory,
    execute sampleHost (sampleParams "listDirectory" "package.json")
    = inr (NotFound "listDirectory" "package.json" text isFile isDirectory)
    /\ Js.includes text "package.json" = true
    /\ isFile = Some true /\ isDirectory = None.
Proof.
  apply (wrong_kind_target_is_reported sampleHost
           (sampleParams "listDirectory" "package.json")
           (Stats.mk false true false 4096) (Stats.mk true false false 3)
           "/srv/repo/package.json").
  - reflexivity.
  - reflexivity.
  - reflexivity.
  - reflexivity.
  - reflexivity.
  - left. split; [now left | reflexivity].
Defined.





(** The fileInfo operation never reports a symbolic link, and never
    reports a target as both file and directory: its flags come from
    [getStats], which follows links. *)
Theorem fileInfo_never_reports_link
      (host : Host.t) (params : Params.t) (path : string)
      (isFile isDirectory isSymbolicLink : bool) (sizeBytes : Z) :
  execute host params
  = inr (FileInfo path isFile isDirectory isSymbolicLink sizeBytes) ->
  isSymbolicLink = false /\ isFile && isDirectory = false
  /\ path = Params.path params /\ Params.operation params = "fileInfo".
Proof.
  unfold execute.
  destruct (negb (Js.truthy (Params.rootPath params))); [discriminate|].
  destruct (getStats _ _) as [rootStats|]; [|discriminate].
  destruct (negb (Stats.isDirectory rootStats)); [discriminate|].
  destruct (Params.operation params =? "listDirectory") eqn:E1.
  { unfold listDirectoryCase. destruct (validatePath _ _ _); [discriminate|].
    destruct (getStats _ _) as [stats|]; [|discriminate].
    destruct (negb (Stats.isDirectory stats)); [discriminate|].
    destruct (Fs.readdirSync _ _); discriminate. }
  destruct (Params.operation params =? "readFile") eqn:E2.
  { unfold readFileCase.
    destruct (negb (Js.truthy (Params.path params))); [discriminate|].
    destruct (validatePath _ _ _); [discriminate|].
    destruct (getStats _ _) as [stats|]; [|discriminate].
    destruct (negb (Stats.isFile stats)); [discriminate|].
    destruct (Fs.readFileSync _ _); discriminate. }
  destruct (Params.operation params =? "grep") eqn:E3.
  { unfold grepCase.
    destruct (negb (Js.truthy (Params.searchPattern params))); [discriminate|].
    destruct (validatePath _ _ _); [discriminate|].
    destruct (groupByFile _ _); discriminate. }
  destruct (Params.operation params =? "findFiles") eqn:E4.
  { unfold findFilesCase. destruct (validatePath _ _ _); [discriminate|].
    destruct (globToRegex _); discriminate. }
  destruct (Params.operation params =? "fileInfo") eqn:E5.
  { apply String.eqb_eq in E5. unfold fileInfoCase.
    destruct (negb (Js.truthy (Params.path params))); [discriminate|].
    destruct (validatePath _ _ _) as [e|fullPath]; [discriminate|].
    unfold getStats, Fs.statSync.
    destruct (Fs.nodeAt _ fullPath) as [[sz c|sz l|t|sz]|];
      try discriminate; intros [= <- <- <- <- <-]; now repeat split. }
  destruct (Params.operation params =? "tree") eqn:E6; [|discriminate].
  unfold treeCase. destruct (validatePath _ _ _); [discriminate|].
  destruct (getStats _ _) as [stats|]; [|discriminate].
  destruct (negb (Stats.isDirectory stats)); discriminate.
Qed.

Lemma fileInfo_never_reports_link_witness :
  false = false /\ true && false = false
  /\ "src/index.ts"%string = Params.path (sampleParams "fileInfo" "src/index.ts")
  /\ Params.operation (sampleParams "fileInfo" "src/index.ts") = "fileInfo".
Proof.
  apply (fileInfo_never_reports_link sampleHost
           (sampleParams "fileInfo" "src/index.ts") "src/index.ts"
           true false false 18).
  reflexivity.
Defined.

(** ** All input items *)

Lemma executeItems_continue (host : Host.t) (items : list Params.t) :
  forall itemIndex returnData,
    executeItems host true itemIndex items returnData
    = inr (returnData ++ Array.mapiFrom itemIndex (itemOutput host) items).
Proof.
  induction items as [|params items IH]; intros itemIndex returnData; simpl.
  - now rewrite app_nil_r.
  - unfold itemOutput at 1.
    destruct (execute host params) as [error|result];
      rewrite IH, <- app_assoc; reflexivity.
Qed.

(** With continue-on-fail the node never raises: it returns one output
    per input item, in the order of the items, the item's result record
    or the error it raised paired with the item's index. *)
Theorem executeAll_continue_on_fail (host : Host.t) (items : list Params.t) :
  exists outputs,
    executeAll host true items = inr outputs
    /\ length outputs = length items
    /\ forall itemIndex params,
         nth_error items itemIndex = Some params ->
         nth_error outputs itemIndex
         = Some (match execute host params with
                 | inr result => ItemResult result
                 | inl error => ItemError error itemIndex
                 end).
Proof.
  exists (Array.mapi (itemOutput host) items). split; [|split].
  - unfold executeAll. now rewrite executeItems_continue.
  - apply length_mapiFrom.
  - intros itemIndex params Hitem. unfold Array.mapi.
    rewrite nth_error_mapiFrom, Hitem. reflexivity.
Qed.

Lemma executeItems_fail_fast (host : Host.t) (items : list Params.t) :
  forall itemIndex returnData,
    match executeItems host false itemIndex items returnData with
    | inl (failed, error) =>
        exists before params after,
          items = before ++ params :: after
          /\ failed = itemIndex + length before
          /\ execute host params = inl error
          /\ Forall (fun p => exists result, execute host p = inr result) before
    | inr outputs =>
        exists results,
          outputs = returnData ++ map ItemResult results
          /\ map (execute host) items = map inr results
    end.
Proof.
  induction items as [|params items IH]; intros itemIndex returnData; simpl.
  - exists []. now rewrite app_nil_r.
  - destruct (execute host params) as [error|result] eqn:Hitem.
    + exists [], params, items. simpl. repeat split; [lia | assumption | constructor].
    + specialize (IH (S itemIndex) (returnData ++ [ItemResult result])).
      destruct (executeItems host false (S itemIndex) items _)
        as [[failed error]|outputs].
      * destruct IH as (before & p & after & -> & -> & Hp & Hbefore).
        exists (params :: before), p, after. simpl.
        repeat split; [lia | assumption|].
        constructor; [now exists result | assumption].
      * destruct IH as (results & -> & Hresults).
        exists (result :: results). simpl.
        now rewrite <- app_assoc, Hresults.
Qed.

(** Without continue-on-fail the node stops at the first item that
    raises and raises its error with that item's index, the items before
    it all having succeeded; when no item raises it returns the result
    records of all items in order. *)
Theorem executeAll_fail_fast (host : Host.t) (items : list Params.t) :
  match executeAll host false items with
  | inl (failed, error) =>
      exists before params after,
        items = before ++ params :: after
        /\ failed = length before
        /\ execute host params = inl error
        /\ Forall (fun p => exists result, execute host p = inr result) before
  | inr outputs =>
      exists results,
        outputs = map ItemResult results
        /\ map (execute host) items = map inr results
  end.
Proof.
  exact (executeItems_fail_fast host items 0 []).
Qed.

(** ** [formatSize] *)

Lemma formatSizeLoop_cases (bytes : Z) :
  formatSizeLoop (length units - 1) bytes 1 0
  = if (bytes >=? 1024)%Z then
      if (bytes >=? 1048576)%Z then
        if (bytes >=? 1073741824)%Z then (1073741824%Z, 3) else (1048576%Z, 2)
      else (1024%Z, 1)
    else (1%Z, 0).
Proof. reflexivity. Qed.

Lemma toFixedDigits_near (num den : Z) :
  (0 < den)%Z ->
  (2 * Z.abs (10 * num - toFixedDigits num den 1 * den) <= den)%Z.
Proof.
  intros Hden. unfold toFixedDigits. change (10 ^ Z.of_nat 1)%Z with 10%Z.
  pose proof (Z.mul_div_le (2 * num * 10 + den) (2 * den)) as Hlow.
  pose proof (Z.mul_succ_div_gt (2 * num * 10 + den) (2 * den)) as Hhigh.
  set (q := ((2 * num * 10 + den) / (2 * den))%Z) in *.
  lia.
Qed.

(** The size text names the largest of the units B, KB, MB and GB that
    does not exceed the size (B below 1024, GB from 1024^3 on without
    limit); in B the number is the size itself, in the other units it has
    one decimal and differs from the exact quotient by at most a
    twentieth. *)
Theorem formatSize_unit_and_rounding (bytes : Z) :
  (0 <= bytes < 2 ^ 53)%Z ->
  exists (unitIndex : nat) (n : Z),
    unitIndex <= 3
    /\ formatSize bytes
       = (match unitIndex with
          | O => numberToString n
          | _ => numberToString (n / 10) +:+ "." +:+ numberToString (n mod 10)
          end) +:+ " " +:+ nth unitIndex units ""
    /\ (unitIndex = 0 -> n = bytes)
    /\ (0 < unitIndex ->
        (1024 ^ Z.of_nat unitIndex <= bytes)%Z
        /\ (2 * Z.abs (10 * bytes - n * 1024 ^ Z.of_nat unitIndex)
            <= 1024 ^ Z.of_nat unitIndex)%Z)
    /\ (unitIndex < 3 -> (bytes < 1024 ^ Z.of_nat (S unitIndex))%Z).
Proof.
  intros Hbytes. unfold formatSize. rewrite formatSizeLoop_cases.
  destruct (Z.geb_spec bytes 1024) as [H1|H1];
    [destruct (Z.geb_spec bytes 1048576) as [H2|H2];
     [destruct (Z.geb_spec bytes 1073741824) as [H3|H3]|]|].
  - exists 3, (toFixedDigits bytes 1073741824 1).
    split; [lia|]. split; [reflexivity|]. split; [discriminate|].
    split; [|lia]. intros _. change (1024 ^ Z.of_nat 3)%Z with 1073741824%Z.
    split; [lia|]. apply toFixedDigits_near. lia.
  - exists 2, (toFixedDigits bytes 1048576 1).
    split; [lia|]. split; [reflexivity|]. split; [discriminate|].
    change (1024 ^ Z.of_nat 2)%Z with 1048576%Z.
    change (1024 ^ Z.of_nat 3)%Z with 1073741824%Z.
    split; [|lia]. intros _. split; [lia|].
    apply toFixedDigits_near. lia.
  - exists 1, (toFixedDigits bytes 1024 1).
    split; [lia|]. split; [reflexivity|]. split; [discriminate|].
    change (1024 ^ Z.of_nat 1)%Z with 1024%Z.
    change (1024 ^ Z.of_nat 2)%Z with 1048576%Z.
    split; [|lia]. intros _. split; [lia|].
    apply toFixedDigits_near. lia.
  - exists 0, bytes.
    split; [lia|]. split; [|split; [reflexivity|split; [lia|]]].
    + unfold toFixed, toFixedDigits. change (10 ^ Z.of_nat 0)%Z with 1%Z.
      do 3 f_equal. change (2 * 1)%Z with 2%Z.
      replace (2 * bytes * 1 + 1)%Z with (bytes * 2 + 1)%Z by lia.
      rewrite Z.div_add_l by discriminate.
      change (1 / 2)%Z with 0%Z. apply Z.add_0_r.
    + intros _. change (1024 ^ Z.of_nat 1)%Z with 1024%Z. lia.
Qed.

Lemma formatSize_unit_and_rounding_witness :
  exists (unitIndex : nat) (n : Z),
    unitIndex <= 3
    /\ formatSize 1536
       = (match unitIndex with
          | O => numberToString n
          | _ => numberToString (n / 10) +:+ "." +:+ numberToString (n mod 10)
          end) +:+ " " +:+ nth unitIndex units ""
    /\ (unitIndex = 0 -> n = 1536%Z)
    /\ (0 < unitIndex ->
        (1024 ^ Z.of_nat unitIndex <= 1536)%Z
        /\ (2 * Z.abs (10 * 1536 - n * 1024 ^ Z.of_nat unitIndex)
            <= 1024 ^ Z.of_nat unitIndex)%Z)
    /\ (unitIndex < 3 -> (1536 < 1024 ^ Z.of_nat (S unitIndex))%Z).
Proof.
  apply (formatSize_unit_and_rounding 1536). lia.
Defined.

(** ** Reading a whole file *)

(** Joining the pieces of a split with the separator gives the string
    back. *)
Lemma join_split (sep : ascii) (s : string) :
  Js.join (String sep "") (Js.split sep s) = s.
Proof.
  unfold Js.join. induction s as [|c s IH]; [reflexivity|].
  simpl Js.split. destruct (Ascii.eqb_spec c sep) as [->|Hc].
  - destruct (Js.split sep s) as [|h t] eqn:Hsplit;
      [now elim (split_nonempty sep s)|].
    change (String.concat (String sep "") ("" :: h :: t))
      with (String sep (String.concat (String sep "") (h :: t))).
    now rewrite IH.
  - destruct (Js.split sep s) as [|h t] eqn:Hsplit;
      [now elim (split_nonempty sep s)|].
    rewrite <- IH. now destruct t.
Qed.

(** Without a positive line limit and a positive line offset, readFile
    returns the file as it is: the content is the file's text, character
    for character, every line is returned, and line [i] (from 0) carries
    the number [lineOffset + i + 1], which is [i + 1] only for offset 0. *)
Theorem readFile_whole_file
        (host : Host.t) (params : Params.t) (rootStats : Stats.t)
        (fullPath content : string) :
  let cwd := Host.cwd host in
  let resolvedRoot := Path.resolve cwd [Params.rootPath params] in
  let lineOffset := Params.lineOffset params in
  let fileLines := Js.split (ascii_of_nat 10) content in
  Js.truthy (Params.rootPath params) = true ->
  getStats (Host.fs host) resolvedRoot = Some rootStats ->
  Stats.isDirectory rootStats = true ->
  Params.operation params = "readFile" ->
  Js.truthy (Params.path params) = true ->
  validatePath cwd resolvedRoot (Params.path params) = inr fullPath ->
  Fs.readFileSync (Host.fs host) fullPath = Some content ->
  (lineOffset <= 0)%Z ->
  (Params.maxLines params <= 0)%Z ->
  exists sizeBytes lines,
    execute host params
    = inr (ReadFile (Params.path params) (Z.of_nat (length fileLines))
             (Z.of_nat (length fileLines)) lineOffset sizeBytes content lines)
    /\ getStats (Host.fs host) fullPath
       = Some (Stats.mk true false false sizeBytes)
    /\ map lineContent lines = fileLines
    /\ forall i, i < length fileLines ->
         option_map lineNumber (nth_error lines i)
         = Some (lineOffset + Z.of_nat i + 1)%Z.
Proof.
  intros cwd resolvedRoot lineOffset fileLines
         Hroot Hstat Hdir Hop Hpath Hvalid Hread Hk Hm.
  destruct (readFileSync_stat _ _ _ Hread) as [sz Hfstat].
  unfold execute. rewrite Hroot. simpl negb. cbv iota.
  fold cwd. fold resolvedRoot. rewrite Hstat, Hdir, Hop. simpl.
  unfold readFileCase. rewrite Hpath. simpl negb. cbv iota.
  fold cwd. rewrite Hvalid, Hfstat. simpl. rewrite Hread.
  fold lineOffset. fold fileLines.
  replace (lineOffset >? 0)%Z with false
    by (symmetry; rewrite Z.gtb_ltb; now apply Z.ltb_ge).
  replace (Params.maxLines params >? 0)%Z with false
    by (symmetry; rewrite Z.gtb_ltb; now apply Z.ltb_ge).
  exists sz. eexists. split; [|split; [reflexivity|split]].
  - f_equal. f_equal. unfold fileLines, newline. apply join_split.
  - unfold Array.mapi. rewrite map_mapiFrom. simpl. apply mapiFrom_const.
  - intros i Hi. unfold Array.mapi. rewrite nth_error_mapiFrom.
    destruct (nth_error fileLines i) eqn:Hnth; [reflexivity|].
    apply nth_error_None in Hnth. lia.
Qed.

Lemma readFile_whole_file_witness :
  exists sizeBytes lines,
    execute sampleHost (sampleParams "readFile" "src/index.ts")
    = inr (ReadFile "src/index.ts" 3 3 0 sizeBytes
             ("import a" +:+ newline +:+ "export b" +:+ newline) lines)
    /\ getStats sampleFs "/srv/repo/src/index.ts"
       = Some (Stats.mk true false false sizeBytes)
    /\ map lineContent lines = ["import a"; "export b"; ""]
    /\ forall i, i < 3 ->
         option_map lineNumber (nth_error lines i)
         = Some (0 + Z.of_nat i + 1)%Z.
Proof.
  apply (readFile_whole_file sampleHost (sampleParams "readFile" "src/index.ts")
           (Stats.mk false true false 4096) "/srv/repo/src/index.ts"
           ("import a" +:+ newline +:+ "export b" +:+ newline));
    try reflexivity; simpl; lia.
Defined.

(** ** What the file search finds *)

Section FindFilesContents.

Variables (cwd : string) (pattern : RegExp.t) (rootPath : string).

Lemma matchingAmong_In (entries : list (string * node)) (dirPath rel : string) :
  In rel (matchingAmong cwd entries dirPath pattern rootPath)
  <-> exists name child,
        In (name, child) entries /\ hidden name = false
        /\ ((Dirent.isDirectory (name, child) = true
             /\ In rel (matchingFiles cwd child (Path.join [dirPath; name])
                          pattern rootPath))
            \/ (Dirent.isDirectory (name, child) = false
                /\ RegExp.test pattern name = true
                /\ rel = Path.relative cwd rootPath (Path.join [dirPath; name]))).
Proof.
  induction entries as [|[name child] rest IH].
  - simpl. split; [contradiction | now intros (n & c & [] & _)].
  - cbn [matchingAmong]. rewrite in_app_iff, IH. clear IH. split.
    + intros [Hhere | (n & c & Hin & Hrest)].
      * exists name, child. split; [now left|].
        destruct (hidden name); [contradiction|]. split; [reflexivity|].
        destruct child as [fsz fc | dsz listing | t | osz];
          try (right; split; [reflexivity|];
               destruct (RegExp.test pattern name); [|contradiction];
               destruct Hhere as [<- | []]; now split).
        left. now split.
      * exists n, c. split; [now right | exact Hrest].
    + intros (n & c & [Heq | Hin] & Hhidden & Hcase).
      * injection Heq as -> ->. left. rewrite Hhidden.
        destruct Hcase as [[Hdir Hrel] | (Hdir & Htest & ->)].
        -- destruct c; try discriminate. exact Hrel.
        -- destruct c; try discriminate; rewrite Htest; now left.
      * right. now exists n, c.
Qed.

Lemma fileBelow_matching (dir : node) (dirPath name fullPath : string) :
  FileBelow dir dirPath name fullPath ->
  RegExp.test pattern name = true ->
  In (Path.relative cwd rootPath fullPath)
     (matchingFiles cwd dir dirPath pattern rootPath).
Proof.
  intros Hbelow Htest.
  induction Hbelow as [sz entries dirPath name child Hin Hhidden Hdir
                      |sz entries dirPath sub child name fullPath
                         Hin Hhidden Hdir Hbelow IH];
    rewrite matchingFiles_unfold; apply matchingAmong_In.
  - exists name, child. split; [assumption|]. split; [assumption|].
    right. now repeat split.
  - exists sub, child. split; [assumption|]. split; [assumption|].
    left. split; [assumption | now apply IH].
Qed.

Lemma matching_fileBelow (dir : node) :
  forall dirPath rel,
    In rel (matchingFiles cwd dir dirPath pattern rootPath) ->
    exists name fullPath,
      FileBelow dir dirPath name fullPath
      /\ RegExp.test pattern name = true
      /\ rel = Path.relative cwd rootPath fullPath.
Proof.
  induction dir as [dir IH] using (induction_ltof1 _ height).
  unfold ltof in IH. intros dirPath rel.
  destruct dir as [sz c | sz [entries|] | t | sz]; try contradiction.
  rewrite matchingFiles_unfold, matchingAmong_In.
  intros (name & child & Hin & Hhidden & [[Hdir Hrel] | (Hdir & Htest & ->)]).
  - destruct (IH child (height_child sz entries name child Hin) _ _ Hrel)
      as (n & fullPath & Hbelow & Htest & ->).
    exists n, fullPath. split; [|now split].
    now apply (FileDeeper sz entries dirPath name child).
  - exists name, (Path.join [dirPath; name]). split; [|now split].
    now apply (FileHere sz entries dirPath name child).
Qed.

End FindFilesContents.

(** Every path the file search returns is that of an entry below the
    start directory which is not a directory, whose name matches the
    pattern, and which is not reached through (and is not itself) a name
    that starts with a dot or is [node_modules]; and when fewer than
    [maxResults] paths come back, every such entry is among them. *)
Theorem findFiles_finds_exactly
        (cwd : string) (dir : node) (dirPath : string) (pattern : RegExp.t)
        (rootPath : string) (maxResults : Z) :
  let found :=
    findFilesRecursive cwd dir dirPath pattern [] rootPath maxResults in
  (forall rel,
      In rel found ->
      exists name fullPath,
        FileBelow dir dirPath name fullPath
        /\ RegExp.test pattern name = true
        /\ rel = Path.relative cwd rootPath fullPath)
  /\ ((Z.of_nat (length found) < maxResults)%Z ->
      forall name fullPath,
        FileBelow dir dirPath name fullPath ->
        RegExp.test pattern name = true ->
        In (Path.relative cwd rootPath fullPath) found).
Proof.
  intros found.
  assert (Hfound : found
                   = firstn (Z.to_nat maxResults)
                       (matchingFiles cwd dir dirPath pattern rootPath)).
  { unfold found. rewrite findFilesRecursive_spec. unfold room. simpl.
    now rewrite Nat.sub_0_r. }
  split.
  - intros rel Hrel. apply (matching_fileBelow cwd pattern rootPath dir).
    rewrite Hfound in Hrel. rewrite <- (firstn_skipn (Z.to_nat maxResults)).
    apply in_or_app. now left.
  - intros Hfew name fullPath Hbelow Htest.
    rewrite Hfound, firstn_all2.
    + now apply fileBelow_matching with (name := name).
    + rewrite Hfound, length_firstn in Hfew. lia.
Qed.

(** ** The order of a directory listing *)

Section SortedBy.

Context {A : Type} (compare : A -> A -> comparison).

Hypothesis compare_total :
  forall a b, compare a b = Gt -> compare b a <> Gt.

Hypothesis compare_trans :
  forall a b c, compare a b <> Gt -> compare b c <> Gt -> compare a c <> Gt.

Lemma insert_sortedBy (x : A) (l : list A) :
  StronglySorted (fun a b => compare a b <> Gt) l ->
  StronglySorted (fun a b => compare a b <> Gt) (Array.insert compare x l).
Proof.
  induction 1 as [|y l Hl IH Hy]; simpl.
  - repeat constructor.
  - destruct (compare x y) eqn:Hxy.
    + constructor; [now constructor|].
      assert (Hle : compare x y <> Gt) by congruence.
      constructor; [exact Hle|].
      rewrite Forall_forall in *. intros z Hz.
      eapply compare_trans; [exact Hle | now apply Hy].
    + constructor; [now constructor|].
      assert (Hle : compare x y <> Gt) by congruence.
      constructor; [exact Hle|].
      rewrite Forall_forall in *. intros z Hz.
      eapply compare_trans; [exact Hle | now apply Hy].
    + constructor; [exact IH|].
      rewrite Forall_forall in *. intros z Hz.
      apply (Permutation_in _ (insert_perm _ x l)) in Hz.
      destruct Hz as [<-|Hz]; [now apply compare_total | now apply Hy].
Qed.

Lemma sort_sortedBy (l : list A) :
  StronglySorted (fun a b => compare a b <> Gt) (Array.sort compare l).
Proof.
  induction l as [|x l IH]; simpl; [constructor | now apply insert_sortedBy].
Qed.

End SortedBy.

Lemma filter_none {A : Type} (f : A -> bool) (l : list A) :
  Forall (fun x => f x = false) l -> filter f l = [].
Proof.
  induction 1 as [|x l Hx Hl IH]; [reflexivity|]. simpl. now rewrite Hx.
Qed.

Lemma filter_every {A : Type} (f : A -> bool) (l : list A) :
  Forall (fun x => f x = true) l -> filter f l = l.
Proof.
  induction 1 as [|x l Hx Hl IH]; [reflexivity|]. simpl.
  now rewrite Hx, IH.
Qed.

Lemma Forall_filter_holds {A : Type} (f : A -> bool) (l : list A) :
  Forall (fun x => f x = true) (filter f l).
Proof.
  apply Forall_forall. intros x Hx. now apply filter_In in Hx.
Qed.

Section ListingOrder.

Variable host : Host.t.

Hypothesis localeCompare_total :
  forall a b, Host.localeCompare host a b = Gt ->
              Host.localeCompare host b a <> Gt.

Hypothesis localeCompare_trans :
  forall a b c,
    Host.localeCompare host a b <> Gt -> Host.localeCompare host b c <> Gt ->
    Host.localeCompare host a c <> Gt.

Lemma compareFiles_total (a b : FileEntry) :
  compareFiles host a b = Gt -> compareFiles host b a <> Gt.
Proof.
  unfold compareFiles.
  destruct (isDirectoryType (fe_type a)), (isDirectoryType (fe_type b));
    simpl; try discriminate; auto.
Qed.

Lemma compareFiles_trans (a b c : FileEntry) :
  compareFiles host a b <> Gt -> compareFiles host b c <> Gt ->
  compareFiles host a c <> Gt.
Proof.
  unfold compareFiles.
  destruct (isDirectoryType (fe_type a)), (isDirectoryType (fe_type b)),
    (isDirectoryType (fe_type c)); simpl; try congruence; eauto.
Qed.

Lemma listing_directories_first (l : list FileEntry) :
  StronglySorted (filesInOrder host) l ->
  l = filter (fun f => isDirectoryType (fe_type f)) l
      ++ filter (fun f => negb (isDirectoryType (fe_type f))) l.
Proof.
  induction 1 as [|x l Hl IH Hx]; [reflexivity|]. simpl.
  destruct (isDirectoryType (fe_type x)) eqn:Hdir; simpl.
  - now rewrite <- IH.
  - assert (Hnone : Forall (fun y => isDirectoryType (fe_type y) = false) l).
    { eapply Forall_impl; [|exact Hx]. intros y Hy.
      unfold filesInOrder, compareFiles in Hy. rewrite Hdir in Hy.
      destruct (isDirectoryType (fe_type y)); [now elim Hy | reflexivity]. }
    rewrite (filter_none _ l Hnone), filter_every; [reflexivity|].
    eapply Forall_impl; [|exact Hnone]. now intros y ->.
Qed.

Lemma listing_names_ascending (kind : bool) (l : list FileEntry) :
  Forall (fun f => isDirectoryType (fe_type f) = kind) l ->
  StronglySorted (filesInOrder host) l ->
  StronglySorted (nameNotAfter host) l.
Proof.
  apply StronglySorted_weaken. intros a b Ha Hb.
  unfold filesInOrder, nameNotAfter, compareFiles. rewrite Ha, Hb.
  now destruct kind.
Qed.

(** For a directory that can be read, and a collation that is a total
    preorder, the listing is the directories followed by all other
    entries, the names ascending within each group; the directory count
    is the size of the first group, the file count that of the regular
    files in the second, and only regular files carry a size. *)
Theorem listDirectory_directories_first
        (params : Params.t) (rootStats : Stats.t)
        (fullPath : string) (entries : list Dirent.t) :
  let cwd := Host.cwd host in
  let resolvedRoot := Path.resolve cwd [Params.rootPath params] in
  let target := Js.orElse (Params.path params) "." in
  Js.truthy (Params.rootPath params) = true ->
  getStats (Host.fs host) resolvedRoot = Some rootStats ->
  Stats.isDirectory rootStats = true ->
  Params.operation params = "listDirectory" ->
  validatePath cwd resolvedRoot target = inr fullPath ->
  Fs.readdirSync (Host.fs host) fullPath = Some entries ->
  exists directories others : list FileEntry,
    execute host params
    = inr (ListDirectory target (Z.of_nat (length entries))
             (Z.of_nat (length directories))
             (Z.of_nat (length (filter (fun f => isFileType (fe_type f)) others)))
             (directories ++ others))
    /\ Forall (fun f => fe_type f = TDirectory) directories
    /\ Forall (fun f => fe_type f <> TDirectory) others
    /\ StronglySorted (nameNotAfter host) directories
    /\ StronglySorted (nameNotAfter host) others
    /\ Forall (fun f => fe_sizeBytes f <> None -> fe_type f = TFile)
              (directories ++ others).
Proof.
  intros cwd resolvedRoot target Hroot Hstat Hdir Hop Hvalid Hread.
  destruct (readdirSync_stat _ _ _ Hread) as [sz Hdstat].
  unfold execute. rewrite Hroot. simpl negb. cbv iota.
  fold cwd. fold resolvedRoot. rewrite Hstat, Hdir, Hop. simpl.
  unfold listDirectoryCase. fold cwd. fold target.
  rewrite Hvalid, Hdstat. simpl. rewrite Hread.
  set (raw := map _ entries).
  set (listed := Array.sort (compareFiles host) raw).
  assert (Hperm : Permutation listed raw) by apply sort_perm.
  assert (Hsorted : StronglySorted (filesInOrder host) listed).
  { apply (sort_sortedBy (compareFiles host));
      [apply compareFiles_total | apply compareFiles_trans]. }
  set (isDir := fun f : FileEntry => isDirectoryType (fe_type f)) in *.
  set (directories := filter isDir listed).
  set (others := filter (fun f => negb (isDir f)) listed).
  assert (Hsplit : listed = directories ++ others)
    by now apply listing_directories_first.
  assert (Hdirs : Forall (fun f => isDir f = true) directories)
    by apply Forall_filter_holds.
  assert (Hothers : Forall (fun f => isDir f = false) others).
  { eapply Forall_impl; [|apply (Forall_filter_holds (fun f => negb (isDir f)))].
    intros f Hf. now apply negb_true_iff. }
  exists directories, others. split; [|split; [|split; [|split; [|split]]]].
  - f_equal. f_equal.
    + rewrite (Permutation_length Hperm). unfold raw. now rewrite length_map.
    + rewrite Hsplit, filter_app, (filter_none _ directories); [reflexivity|].
      eapply Forall_impl; [|exact Hdirs]. unfold isDir. intros f Hf.
      now destruct (fe_type f).
    + exact Hsplit.
  - eapply Forall_impl; [|exact Hdirs]. unfold isDir. intros f Hf.
    now destruct (fe_type f).
  - eapply Forall_impl; [|exact Hothers]. unfold isDir. intros f Hf Heq.
    now rewrite Heq in Hf.
  - apply (listing_names_ascending true); [exact Hdirs|].
    now apply StronglySorted_filter.
  - apply (listing_names_ascending false); [exact Hothers|].
    now apply StronglySorted_filter.
  - rewrite <- Hsplit. apply Forall_forall. intros f Hf.
    apply (Permutation_in _ Hperm) in Hf. unfold raw in Hf.
    apply in_map_iff in Hf as (e & <- & _). simpl. unfold entryType.
    destruct e as [name [fsz c | dsz l | t | osz]]; simpl;
      try reflexivity;
      destruct (getStats (Host.fs host) (Path.join [fullPath; name]));
      intros H; now elim H.
Qed.

End ListingOrder.

Lemma listDirectory_directories_first_witness :
  exists directories others : list FileEntry,
    execute sampleHost (sampleParams "listDirectory" "src")
    = inr (ListDirectory "src" 3
             (Z.of_nat (length directories))
             (Z.of_nat (length (filter (fun f => isFileType (fe_type f)) others)))
             (directories ++ others))
    /\ Forall (fun f => fe_type f = TDirectory) directories
    /\ Forall (fun f => fe_type f <> TDirectory) others
    /\ StronglySorted (nameNotAfter sampleHost) directories
    /\ StronglySorted (nameNotAfter sampleHost) others
    /\ Forall (fun f => fe_sizeBytes f <> None -> fe_type f = TFile)
              (directories ++ others).
Proof.
  apply (listDirectory_directories_first sampleHost codeUnitCompare_total
           codeUnitCompare_trans (sampleParams "listDirectory" "src")
           (Stats.mk false true false 4096) "/srv/repo/src"
           (match Fs.readdirSync sampleFs "/srv/repo/src" with
            | Some l => l
            | None => []
            end));
    reflexivity.
Defined.

(** ** Reading grep's output *)

Lemma matchNumbered_lacking (S : ascii) (line : string) :
  lacks S line = true ->
  forall before, matchNumbered S before line = None.
Proof.
  induction line as [|c line IH]; intros Hline before; [reflexivity|].
  simpl in Hline. apply andb_true_iff in Hline as [Hc Hrest].
  apply negb_true_iff in Hc. cbn [matchNumbered].
  rewrite Hc, andb_false_r.
  destruct (RegExp.isLineTerminator c); [reflexivity | now apply IH].
Qed.

Lemma takeDigits_all (S : ascii) (num tail : string) :
  allDigits num = true -> isDigit S = false ->
  takeDigits (num +:+ String S tail) = (num, String S tail).
Proof.
  intros Hnum HS. induction num as [|c num IH]; simpl.
  - now rewrite HS.
  - simpl in Hnum. apply andb_true_iff in Hnum as [Hc Hrest].
    now rewrite Hc, (IH Hrest).
Qed.

Lemma truthy_append (a b : string) :
  Js.truthy b = true -> Js.truthy (a +:+ b) = true.
Proof. destruct a; [now simpl | reflexivity]. Qed.

Lemma matchNumbered_splits (S : ascii) (file num content : string) :
  isDigit S = false ->
  lacks S file = true -> noLineTerminator file = true ->
  Js.truthy num = true -> allDigits num = true ->
  noLineTerminator content = true ->
  forall before,
    Js.truthy (before +:+ file) = true ->
    matchNumbered S before (file +:+ String S (num +:+ String S content))
    = Some (before +:+ file, num, content).
Proof.
  intros HS Hfile Hterm Hnum Hdigits Hcontent.
  induction file as [|c file IH]; intros before Hbefore.
  - rewrite append_empty_r in *. cbn [String.append matchNumbered].
    rewrite Hbefore, Ascii.eqb_refl, (takeDigits_all S num content Hdigits HS).
    cbn [andb]. now rewrite Hnum, Ascii.eqb_refl, Hcontent.
  - simpl in Hfile, Hterm.
    apply andb_true_iff in Hfile as [Hc Hfile].
    apply andb_true_iff in Hterm as [Hlt Hterm].
    apply negb_true_iff in Hc, Hlt.
    cbn [String.append matchNumbered]. rewrite Hc, andb_false_r, Hlt.
    rewrite (IH Hfile Hterm (before +:+ String c "")).
    + now rewrite append_assoc.
    + rewrite append_assoc. exact Hbefore.
Qed.

Lemma allDigits_lacks (S : ascii) (num : string) :
  isDigit S = false -> allDigits num = true -> lacks S num = true.
Proof.
  intros HS. induction num as [|c num IH]; [reflexivity|]. simpl.
  intros Hnum. apply andb_true_iff in Hnum as [Hc Hrest].
  rewrite (IH Hrest), andb_true_r. apply negb_true_iff.
  destruct (Ascii.eqb_spec c S) as [->|]; [congruence | reflexivity].
Qed.

Lemma lacks_append (S : ascii) (a b : string) :
  lacks S (a +:+ b) = lacks S a && lacks S b.
Proof.
  induction a as [|c a IH]; [reflexivity|]. simpl.
  now rewrite IH, andb_assoc.
Qed.

(** A line of grep's output is taken apart into the parts it was put
    together from: the file, the line number and the text, with a colon
    after file and number for a matching line and a dash for a context
    line.  This holds when the file has none of that separator and no line
    terminator, the number is digits, the text has no line terminator, and,
    for a context line, neither file nor text holds a colon. *)
Theorem parseGrepLine_round_trip
        (cwd resolvedRoot file num content : string) (isContext : bool) :
  let S := (if isContext then "-" else ":")%char in
  Js.truthy file = true ->
  lacks S file = true ->
  noLineTerminator file = true ->
  Js.truthy num = true ->
  allDigits num = true ->
  noLineTerminator content = true ->
  (isContext = true -> lacks ":" file = true /\ lacks ":" content = true) ->
  parseGrepLine cwd resolvedRoot
    (file +:+ String S (num +:+ String S content))
  = Some (mkGrepMatch (Path.relative cwd resolvedRoot file) (parseInt num)
            content isContext).
Proof.
  intros S Hfile Hlacks Hterm Hnum Hdigits Hcontent Hcolon.
  unfold parseGrepLine. destruct isContext.
  - destruct (Hcolon eq_refl) as [Hfc Hcc].
    rewrite matchNumbered_lacking.
    2:{ unfold S. rewrite lacks_append. cbn [lacks].
        rewrite lacks_append. cbn [lacks].
        rewrite Hfc, Hcc, (allDigits_lacks ":" num eq_refl Hdigits).
        reflexivity. }
    rewrite (matchNumbered_splits S file num content);
      try assumption; reflexivity.
  - rewrite (matchNumbered_splits S file num content);
      try assumption; reflexivity.
Qed.

Lemma parseGrepLine_round_trip_witness :
  parseGrepLine "/home/node" "/srv/repo"
    ("/srv/repo/src/my-file.ts" +:+ String ":" ("12" +:+ String ":" "a: b"))
  = Some (mkGrepMatch "src/my-file.ts" 12 "a: b" false).
Proof.
  apply (parseGrepLine_round_trip "/home/node" "/srv/repo"
           "/srv/repo/src/my-file.ts" "12" "a: b" false);
    try reflexivity.
  discriminate.
Defined.

(** ** Grouping the matches by file *)

Lemma pushByFile_lookup (file : string) (line : GroupedLine)
      (byFile : list (string * list GroupedLine)) (f : string) :
  lookupFile f (pushByFile file line byFile)
  = if file =? f
    then Some (match lookupFile f byFile with
               | Some ls => ls ++ [line]
               | None => [line]
               end)
    else lookupFile f byFile.
Proof.
  induction byFile as [|[g ls] rest IH]; simpl.
  - rewrite String.eqb_sym. reflexivity.
  - destruct (String.eqb_spec g file) as [->|Hg]; simpl.
    + now destruct (file =? f).
    + rewrite IH. destruct (String.eqb_spec file f) as [Heq|Hf];
        [|reflexivity].
      rewrite <- Heq.
      now replace (g =? file) with false by (symmetry; now apply String.eqb_neq).
Qed.

Lemma pushByFile_keys (file : string) (line : GroupedLine)
      (byFile : list (string * list GroupedLine)) (k : string) :
  In k (map fst (pushByFile file line byFile))
  <-> k = file \/ In k (map fst byFile).
Proof.
  induction byFile as [|[g ls] rest IH]; simpl.
  - intuition congruence.
  - destruct (String.eqb_spec g file) as [->|Hg]; simpl.
    + intuition congruence.
    + rewrite IH. intuition congruence.
Qed.

Lemma pushByFile_NoDup (file : string) (line : GroupedLine)
      (byFile : list (string * list GroupedLine)) :
  NoDup (map fst byFile) -> NoDup (map fst (pushByFile file line byFile)).
Proof.
  induction byFile as [|[g ls] rest IH]; simpl; intros Hnodup.
  - repeat constructor. intros [].
  - inversion Hnodup as [|? ? Hg Hrest]; subst.
    destruct (String.eqb_spec g file) as [->|Hne]; simpl.
    + now constructor.
    + constructor; [|now apply IH].
      rewrite pushByFile_keys. intros [->|Hin]; [now apply Hne | now apply Hg].
Qed.

Lemma groupByFile_spec (matches : list GrepMatch) :
  forall acc,
    NoDup (map fst acc) ->
    match groupByFile matches acc with
    | inl err =>
        err = TypeError "byFile[match.file].push is not a function"
        /\ Exists (fun m => In (gm_file m) objectPrototypeKeys) matches
    | inr byFile =>
        Forall (fun m => ~ In (gm_file m) objectPrototypeKeys) matches
        /\ NoDup (map fst byFile)
        /\ forall file,
             lookupFile file byFile
             = match lookupFile file acc, linesOfFile file matches with
               | Some ls, more => Some (ls ++ more)
               | None, [] => None
               | None, more => Some more
               end
    end.
Proof.
  induction matches as [|m matches IH]; intros acc Hacc; cbn [groupByFile].
  - split; [constructor|]. split; [assumption|]. intros file.
    unfold linesOfFile. simpl.
    destruct (lookupFile file acc); [now rewrite app_nil_r | reflexivity].
  - destruct (existsb (String.eqb (gm_file m)) objectPrototypeKeys) eqn:Hproto.
    + split; [reflexivity|]. constructor.
      apply existsb_exists in Hproto as (k & Hk & Heq).
      apply String.eqb_eq in Heq. now rewrite Heq.
    + set (line := mkGroupedLine (gm_lineNumber m) (gm_content m)
                     (gm_isContext m)).
      specialize (IH (pushByFile (gm_file m) line acc)
                     (pushByFile_NoDup _ _ _ Hacc)).
      destruct (groupByFile matches _) as [err|byFile].
      * destruct IH as [-> Hex]. split; [reflexivity | now constructor].
      * destruct IH as (Hall & Hnodup & Hlookup).
        split; [|split; [assumption|]].
        -- constructor; [|assumption]. intros Hin.
           assert (Htrue : existsb (String.eqb (gm_file m)) objectPrototypeKeys
                           = true).
           { apply existsb_exists. exists (gm_file m).
             split; [assumption | apply String.eqb_refl]. }
           congruence.
        -- intros file. rewrite Hlookup, pushByFile_lookup.
           unfold linesOfFile. cbn [filter map]. fold line.
           destruct (gm_file m =? file); cbn [map]; [|reflexivity].
           destruct (lookupFile file acc) as [ls|].
           ++ now rewrite <- app_assoc.
           ++ reflexivity.
Qed.

(** Grouping the parsed lines by file either stores, under each file
    that has lines, exactly that file's lines in their order, each file
    once; or it raises a type error, which happens exactly when some
    line's relative path is the name of a property every object inherits
    (a file called [constructor] or [toString] in the root, say). *)
Theorem groupByFile_groups (matches : list GrepMatch) :
  match groupByFile matches [] with
  | inl err =>
      err = TypeError "byFile[match.file].push is not a function"
      /\ Exists (fun m => In (gm_file m) objectPrototypeKeys) matches
  | inr byFile =>
      Forall (fun m => ~ In (gm_file m) objectPrototypeKeys) matches
      /\ NoDup (map fst byFile)
      /\ forall file,
           lookupFile file byFile
           = match linesOfFile file matches with
             | [] => None
             | ls => Some ls
             end
  end.
Proof.
  exact (groupByFile_spec matches [] (NoDup_nil _)).
Qed.

(** ** A deeper tree extends a shallower one *)

Lemma Subsequence_nil {A : Type} (l : list A) : Subsequence [] l.
Proof. induction l; constructor; assumption. Qed.

Lemma Subsequence_refl {A : Type} (l : list A) : Subsequence l l.
Proof. induction l; constructor; assumption. Qed.

Lemma Subsequence_app {A : Type} (a b c d : list A) :
  Subsequence a b -> Subsequence c d -> Subsequence (a ++ c) (b ++ d).
Proof.
  induction 1; intros Hcd; simpl; try constructor; auto.
Qed.

Lemma Subsequence_blocks {A B : Type} (f g : nat -> A -> list B)
      (l : list A) :
  (forall i x, In x l -> Subsequence (f i x) (g i x)) ->
  forall k,
    Subsequence (concat (Array.mapiFrom k f l))
                (concat (Array.mapiFrom k g l)).
Proof.
  induction l as [|x l IH]; intros Hfg k; simpl; [constructor|].
  apply Subsequence_app.
  - apply Hfg. now left.
  - apply IH. intros i y Hy. apply Hfg. now right.
Qed.

Lemma buildTree_deeper (localeCompare : string -> string -> comparison)
      (maxDepth maxDepth' : Z) (n : nat) :
  (maxDepth <= maxDepth')%Z ->
  forall dir currentDepth prefix,
    (maxDepth' + 1 - currentDepth <= Z.of_nat n)%Z ->
    Subsequence (buildTree localeCompare dir currentDepth maxDepth prefix)
                (buildTree localeCompare dir currentDepth maxDepth' prefix).
Proof.
  intros Hle. induction n as [|n IH]; intros dir currentDepth prefix Hn;
    rewrite (buildTree_level _ dir currentDepth maxDepth),
            (buildTree_level _ dir currentDepth maxDepth').
  - destruct (Z.gtb_spec currentDepth maxDepth); [apply Subsequence_nil | lia].
  - destruct (Z.gtb_spec currentDepth maxDepth) as [|Hin];
      [apply Subsequence_nil|].
    destruct (Z.gtb_spec currentDepth maxDepth'); [lia|].
    destruct (Fs.readdir (Some dir)) as [entries|]; [|apply Subsequence_refl].
    cbv zeta. apply Subsequence_blocks. intros i e _. unfold treeBlock.
    constructor.
    destruct (Dirent.isDirectory e); simpl andb; [|constructor].
    destruct (Z.ltb_spec currentDepth maxDepth);
      [|apply Subsequence_nil].
    destruct (Z.ltb_spec currentDepth maxDepth'); [|lia].
    apply IH. lia.
Qed.

(** Raising the depth limit only adds lines: the tree built with a
    smaller limit is the tree built with a larger one with some lines left
    out, the others unchanged and in the same order. *)
Theorem buildTree_grows_with_depth
        (localeCompare : string -> string -> comparison) (dir : node)
        (currentDepth maxDepth maxDepth' : Z) (prefix : string) :
  (maxDepth <= maxDepth')%Z ->
  Subsequence (buildTree localeCompare dir currentDepth maxDepth prefix)
              (buildTree localeCompare dir currentDepth maxDepth' prefix).
Proof.
  intros Hle.
  apply (buildTree_deeper localeCompare maxDepth maxDepth'
           (Z.to_nat (maxDepth' + 1 - currentDepth)) Hle).
  lia.
Qed.

Lemma buildTree_grows_with_depth_witness :
  Subsequence (buildTree codeUnitCompare sampleRepo 1 1 "")
              (buildTree codeUnitCompare sampleRepo 1 3 "").
Proof.
  apply (buildTree_grows_with_depth codeUnitCompare sampleRepo 1 1 3 "").
  lia.
Defined.

(** ** From a search result back to the file *)

Lemma plain_truthy (l : list string) :
  Forall (fun x => plainName x = true) l -> filter Js.truthy l = l.
Proof.
  intros Hl. apply filter_every. eapply Forall_impl; [|exact Hl].
  intros a Ha. apply plainName_facts in Ha as (Hempty & _).
  now destruct a.
Qed.

Lemma plain_noSlash (l : list string) :
  Forall (fun x => plainName x = true) l ->
  Forall (fun x => noSlash x = true) l.
Proof.
  apply Forall_impl. intros a Ha. now apply plainName_facts in Ha.
Qed.

Lemma segments_join (ss : list string) :
  Forall (fun x => plainName x = true) ss ->
  Path.segments ("/" +:+ Js.join "/" ss) = ss.
Proof.
  intros Hss. unfold Path.segments.
  change (Js.split "/" ("/" +:+ Js.join "/" ss))
    with ("" :: Js.split "/" (Js.join "/" ss)).
  cbn [filter Js.truthy]. destruct ss as [|s ss]; [reflexivity|].
  rewrite split_join; [now apply plain_truthy | discriminate|].
  now apply plain_noSlash.
Qed.

Lemma resolve_resolved (cwd : string) (ss : list string) :
  Path.isAbsolute cwd = true ->
  Forall (fun x => plainName x = true) ss ->
  Path.resolve cwd ["/" +:+ Js.join "/" ss] = "/" +:+ Js.join "/" ss.
Proof.
  intros Hcwd Hss.
  change (Path.resolve cwd ["/" +:+ Js.join "/" ss])
    with (Path.resolve cwd ["/" +:+ Js.join "/" ss; ""]).
  rewrite resolve_below by (assumption || reflexivity).
  simpl. now rewrite rev_involutive.
Qed.

Lemma validatePath_below (cwd : string) (segs names : list string) :
  Path.isAbsolute cwd = true ->
  Forall (fun x => plainName x = true) segs -> segs <> [] ->
  Forall (fun x => plainName x = true) names -> names <> [] ->
  validatePath cwd ("/" +:+ Js.join "/" segs) (Js.join "/" names)
  = inr ("/" +:+ Js.join "/" (segs ++ names)).
Proof.
  intros Hcwd Hsegs Hsegs_ne Hnames Hnames_ne.
  destruct (validatePath_decides cwd ("/" +:+ Js.join "/" segs)
              (Js.join "/" names)) as [[_ Hv] | [Hout _]].
  - rewrite Hv, resolve_resolved, resolve_names by assumption. reflexivity.
  - exfalso. apply Hout. right. exists (Js.join "/" names).
    rewrite resolve_resolved, resolve_names, join_app by assumption.
    unfold Path.sep. now rewrite !append_assoc.
Qed.

Lemma lastChar_append (a b : string) :
  Js.truthy b = true -> Js.lastChar (a +:+ b) = Js.lastChar b.
Proof.
  intros Hb. induction a as [|c a IH]; [reflexivity|].
  change (String c a +:+ b) with (String c (a +:+ b)).
  cbn [Js.lastChar]. rewrite IH.
  destruct (a +:+ b) eqn:Hab; [|reflexivity].
  destruct a; [simpl in Hab; now subst b | discriminate].
Qed.

Lemma lastChar_noSlash (s : string) :
  noSlash s = true -> Js.lastChar s <> Some "/"%char.
Proof.
  induction s as [|c s IH]; [discriminate|]. simpl.
  intros H. apply andb_true_iff in H as [Hc Hs]. apply negb_true_iff in Hc.
  destruct s as [|d s].
  - intros [= ->]. discriminate.
  - now apply IH.
Qed.

(** Joining a resolved directory path and the name of an entry. *)
Lemma join_entry (ss : list string) (name : string) :
  Forall (fun x => plainName x = true) ss -> plainName name = true ->
  Path.join ["/" +:+ Js.join "/" ss; name]
  = "/" +:+ Js.join "/" (ss ++ [name]).
Proof.
  intros Hss Hname.
  destruct (plainName_facts name Hname) as (Hempty & _ & _ & Hslash).
  assert (Htruthy : Js.truthy name = true) by now destruct name.
  assert (Hall : Forall (fun x => plainName x = true) (ss ++ [name])).
  { apply Forall_app. split; [assumption | now constructor]. }
  destruct (join_plain_head (ss ++ [name])) as (c & s & Hjoin & Hc);
    [now destruct ss | assumption |].
  unfold Path.join. cbn [filter]. rewrite Htruthy.
  change (Js.truthy ("/" +:+ Js.join "/" ss)) with true. cbv iota.
  change (Js.join "/" ["/" +:+ Js.join "/" ss; name])
    with (String "/" (Js.join "/" ss +:+ String "/" name)).
  cbn [String.eqb]. unfold Path.normalize. cbn [String.eqb Path.isAbsolute].
  assert (Hlast : Js.lastChar
                    (String "/" (Js.join "/" ss +:+ String "/" name))
                  = Js.lastChar name).
  { change (String "/" (Js.join "/" ss +:+ String "/" name))
      with (("/" +:+ Js.join "/" ss) +:+ String "/" name).
    rewrite lastChar_append by reflexivity.
    destruct name; [discriminate | reflexivity]. }
  rewrite Hlast. clear Hlast.
  assert (Hnorm : Path.normalizeString
                    (String "/" (Js.join "/" ss +:+ String "/" name)) false
                  = Js.join "/" (ss ++ [name])).
  { unfold Path.normalizeString. f_equal.
    change (Js.split "/" (String "/" (Js.join "/" ss +:+ String "/" name)))
      with ("" :: Js.split "/" (Js.join "/" ss +:+ String "/" name)).
    rewrite split_append. cbn [Path.normalizeSegments String.eqb orb].
    rewrite normalizeSegments_app, (normalize_join ss Hss).
    rewrite (split_of_noSlash name Hslash).
    rewrite (normalizeSegments_plain false [name]) by now constructor.
    now rewrite rev_involutive. }
  cbn [negb]. rewrite Hnorm, Hjoin. cbn [String.eqb].
  destruct (Js.lastChar name) as [d|] eqn:Hlast; [|reflexivity].
  destruct (Ascii.eqb_spec d "/") as [->|Hd].
  - now elim (lastChar_noSlash name Hslash).
  - destruct d as [[] [] [] [] [] [] [] []]; try reflexivity. now elim Hd.
Qed.

Lemma dropCommon_prefix (segs l : list string) :
  Path.dropCommon segs (segs ++ l) = ([], l).
Proof.
  induction segs as [|s segs IH]; simpl.
  - now destruct l.
  - now rewrite String.eqb_refl.
Qed.

(** The path of something below the root, relative to the root. *)
Lemma relative_below (cwd : string) (segs names : list string) :
  Path.isAbsolute cwd = true ->
  Forall (fun x => plainName x = true) segs ->
  Forall (fun x => plainName x = true) names -> names <> [] ->
  Path.relative cwd ("/" +:+ Js.join "/" segs)
                ("/" +:+ Js.join "/" (segs ++ names))
  = Js.join "/" names.
Proof.
  intros Hcwd Hsegs Hnames Hne.
  assert (Hall : Forall (fun x => plainName x = true) (segs ++ names))
    by (apply Forall_app; now split).
  assert (Hdiff : ("/" +:+ Js.join "/" segs
                   =? "/" +:+ Js.join "/" (segs ++ names)) = false).
  { apply String.eqb_neq. intros Heq. apply (f_equal Path.segments) in Heq.
    rewrite !segments_join in Heq by assumption.
    apply Hne. apply (app_inv_head segs). now rewrite app_nil_r. }
  unfold Path.relative. rewrite Hdiff, !resolve_resolved by assumption.
  rewrite Hdiff, !segments_join by assumption.
  now rewrite dropCommon_prefix.
Qed.

Lemma follow_follow :
  forall n m, Fs.follow n = Some m -> Fs.follow m = Some m.
Proof.
  fix IH 1. intros [sz c | sz l | [t|] | sz] m; simpl; intros H;
    try (injection H as <-; reflexivity).
  - exact (IH t m H).
  - discriminate.
Qed.

Lemma walk_app (a b : list string) :
  forall n,
    Fs.walk n (a ++ b)
    = match Fs.walk n a with
      | Some m => Fs.walk m b
      | None => None
      end.
Proof.
  induction a as [|s a IH]; intros n.
  - cbn [app Fs.walk]. destruct (Fs.follow n) as [m|] eqn:Hn.
    + pose proof (follow_follow n m Hn) as Hm.
      destruct b as [|s b]; cbn [Fs.walk]; now rewrite Hn, Hm.
    + destruct b; cbn [Fs.walk]; now rewrite Hn.
  - cbn [app Fs.walk].
    destruct (Fs.follow n) as [[sz c | sz [l|] | t | sz]|]; try reflexivity.
    destruct (Fs.child s l); [apply IH | reflexivity].
Qed.

Lemma child_In (name : string) (c : node) (l : list (string * node)) :
  NoDup (map fst l) -> In (name, c) l -> Fs.child name l = Some c.
Proof.
  induction l as [|[n d] l IH]; simpl; intros Hnodup Hin; [contradiction|].
  inversion Hnodup as [|? ? Hn Hl]; subst.
  destruct Hin as [[= -> ->] | Hin].
  - now rewrite String.eqb_refl.
  - destruct (String.eqb_spec n name) as [->|Hne]; [|now apply IH].
    elim Hn. now apply (in_map fst l (name, c)).
Qed.

Lemma fileBelow_found (dir : node) (dirPath name fullPath : string) :
  FileBelow dir dirPath name fullPath ->
  exists child, FoundEntry dir dirPath name child fullPath.
Proof.
  induction 1 as [sz entries dirPath name child Hin Hhidden Hdir
                 |sz entries dirPath sub subdir name fullPath
                    Hin Hhidden Hdir Hbelow IH].
  - exists child. now constructor.
  - destruct IH as [child Hentry]. exists child.
    now apply (FoundDeeper sz entries dirPath sub subdir).
Qed.

Lemma foundEntry_not_directory
      (dir : node) (dirPath name : string) (child : node) (fullPath : string) :
  FoundEntry dir dirPath name child fullPath ->
  Dirent.isDirectory (name, child) = false.
Proof. induction 1; assumption. Qed.

Lemma last_app_nonempty {A : Type} (a b : list A) (d : A) :
  b <> [] -> last (a ++ b) d = last b d.
Proof.
  intros Hb. induction a as [|x a IH]; [reflexivity|].
  cbn [app last]. rewrite IH.
  destruct (a ++ b) eqn:Hab; [|reflexivity].
  apply app_eq_nil in Hab as [_ Hnil]. now elim Hb.
Qed.

Lemma foundEntry_path
      (dir : node) (dirPath name : string) (child : node) (fullPath : string) :
  FoundEntry dir dirPath name child fullPath ->
  forall ss,
    WellNamed dir ->
    Forall (fun x => plainName x = true) ss ->
    dirPath = "/" +:+ Js.join "/" ss ->
    exists names,
      names <> []
      /\ Forall (fun x => plainName x = true) names
      /\ fullPath = "/" +:+ Js.join "/" (ss ++ names)
      /\ Fs.walk dir names = Fs.follow child
      /\ last names "" = name.
Proof.
  induction 1 as [sz entries dirPath name child Hin Hhidden Hdir
                 |sz entries dirPath sub subdir name child fullPath
                    Hin Hhidden Hdir Hbelow IH];
    intros ss Hwell Hss ->;
    inversion Hwell as [| | | |? ? Hnodup Hentries]; subst;
    rewrite Forall_forall in Hentries;
    destruct (Hentries _ Hin) as [Hplain Hchild]; simpl in Hplain, Hchild.
  - exists [name]. split; [discriminate|].
    split; [now constructor|]. split; [now apply join_entry|].
    split; [|reflexivity].
    cbn [Fs.walk Fs.follow]. now rewrite (child_In name child entries).
  - destruct (IH (ss ++ [sub]) Hchild)
      as (names & Hne & Hnames & -> & Hwalk & Hlast).
    + apply Forall_app. split; [assumption | now constructor].
    + now apply join_entry.
    + exists (sub :: names). split; [discriminate|].
      split; [now constructor|]. split; [now rewrite <- app_assoc|].
      split.
      * cbn [Fs.walk Fs.follow]. now rewrite (child_In sub subdir entries).
      * rewrite <- Hlast. now destruct names.
Qed.

(** Every path the findFiles operation returns can be handed back to
    the node and leads to the entry that was found.  For each returned
    path there is an entry [(name, child)] listed below the start
    directory, not a directory and not hidden, whose name matches the
    pattern and whose full path the walk computed as [fullPath]; the
    returned path is [fullPath] relative to the root; it is not empty; the
    sandbox check accepts it and resolves it to that same [fullPath]; the
    filesystem holds at [fullPath] that very entry (what it links to, when
    it is a link); and the last segment of [fullPath] is [name].  This
    needs a root other than the filesystem root, and directories whose
    names are plain and distinct. *)
Theorem findFiles_results_resolve_back
        (host : Host.t) (params : Params.t) (rootStats : Stats.t)
        (startPath : string) (dir : node) :
  let cwd := Host.cwd host in
  let resolvedRoot := Path.resolve cwd [Params.rootPath params] in
  let target := Js.orElse (Params.path params) "." in
  Path.isAbsolute cwd = true ->
  resolvedRoot <> "/" ->
  Js.truthy (Params.rootPath params) = true ->
  getStats (Host.fs host) resolvedRoot = Some rootStats ->
  Stats.isDirectory rootStats = true ->
  Params.operation params = "findFiles" ->
  validatePath cwd resolvedRoot target = inr startPath ->
  Fs.nodeAt (Host.fs host) startPath = Some dir ->
  WellNamed dir ->
  exists files regex,
    execute host params
    = inr (FindFiles (Params.namePattern params) target
             (Z.of_nat (length files)) files)
    /\ globToRegex (Params.namePattern params) = Some regex
    /\ forall rel,
         In rel files ->
         exists fullPath name child,
           FoundEntry dir startPath name child fullPath
           /\ Dirent.isDirectory (name, child) = false
           /\ RegExp.test regex name = true
           /\ rel = Path.relative cwd resolvedRoot fullPath
           /\ Js.truthy rel = true
           /\ validatePath cwd resolvedRoot rel = inr fullPath
           /\ Fs.nodeAt (Host.fs host) fullPath = Fs.follow child
           /\ Path.basename fullPath = name.
Proof.
  intros cwd resolvedRoot target Hcwd Hslash Hroot Hstat Hdir Hop Hvalid
         Hnode Hwell.
  do 2 eexists. split; [|split].
  - now apply (findFiles_operation host params rootStats startPath dir).
  - apply globToRegex_compiles.
  - intros rel Hrel.
    assert (Hmatching : In rel (matchingFiles cwd dir startPath
                                  (RegExp.mk (RegExp.Begin
                                     :: globTerms (Params.namePattern params)
                                     ++ [RegExp.End]) true)
                                  resolvedRoot)).
    { rewrite <- (firstn_skipn 1000). apply in_or_app. now left. }
    apply matching_fileBelow in Hmatching
      as (name & fullPath & Hbelow & Htest & Hrel_eq).
    destruct (fileBelow_found _ _ _ _ Hbelow) as [child Hentry].
    exists fullPath, name, child.
    split; [exact Hentry|].
    split; [exact (foundEntry_not_directory _ _ _ _ _ Hentry)|].
    split; [exact Htest|]. split; [exact Hrel_eq|]. subst rel.
    destruct (resolve_shape cwd [Params.rootPath params] Hcwd)
      as (segs & Hshape & Hsegs).
    fold resolvedRoot in Hshape.
    assert (Hsegs_ne : segs <> []) by (intros ->; now apply Hslash).
    assert (Hstart : exists below,
               startPath = "/" +:+ Js.join "/" (segs ++ below)
               /\ Forall (fun x => plainName x = true) below).
    { destruct (validatePath_result_below_root _ _ _ _ Hvalid)
        as [below Hbelow_root].
      assert (Hresolved : exists ss,
                 startPath = "/" +:+ Js.join "/" ss
                 /\ Forall (fun x => plainName x = true) ss).
      { unfold validatePath in Hvalid.
        destruct (negb _ && negb _); [discriminate|].
        injection Hvalid as <-. now apply resolve_shape. }
      destruct Hresolved as (ss & -> & Hss).
      rewrite Hshape, resolve_resolved, !segments_join in Hbelow_root
        by assumption.
      subst ss. exists below. split; [reflexivity|].
      now apply Forall_app in Hss. }
    destruct Hstart as (below & Hstart & Hbelow_plain).
    assert (Hss : Forall (fun x => plainName x = true) (segs ++ below))
      by (apply Forall_app; now split).
    destruct (foundEntry_path _ _ _ _ _ Hentry (segs ++ below) Hwell Hss Hstart)
      as (names & Hne & Hnames & Hfull & Hwalk & Hlast).
    assert (Hdown : Forall (fun x => plainName x = true) (below ++ names))
      by (apply Forall_app; now split).
    assert (Hdown_ne : below ++ names <> [])
      by (intros Hnil; apply app_eq_nil in Hnil as [_ Hnil]; now apply Hne).
    assert (Hall : Forall (fun x => plainName x = true)
                          ((segs ++ below) ++ names))
      by (apply Forall_app; now split).
    rewrite Hfull, Hshape, <- app_assoc, relative_below by assumption.
    split; [|split; [|split]].
    + destruct (join_plain_head _ Hdown_ne Hdown) as (c & s & -> & _).
      reflexivity.
    + now apply validatePath_below.
    + unfold Fs.nodeAt in *. rewrite Hstart, segments_join in Hnode
        by assumption.
      rewrite app_assoc, segments_join by assumption.
      now rewrite walk_app, Hnode.
    + unfold Path.basename. rewrite app_assoc, segments_join by assumption.
      now rewrite last_app_nonempty.
Qed.

Lemma sampleRepo_wellNamed : WellNamed sampleRepo.
Proof.
  unfold sampleRepo, sampleFile.
  repeat (first [ apply WellNamedFile | apply WellNamedUnreadable
                | apply WellNamedDir | apply Forall_cons | apply Forall_nil
                | apply NoDup_cons | apply NoDup_nil
                | split; [reflexivity|] ]);
    simpl; intuition discriminate.
Qed.

Lemma findFiles_results_resolve_back_witness :
  exists files regex,
    execute sampleHost (sampleParams "findFiles" "")
    = inr (FindFiles "*" "." (Z.of_nat (length files)) files)
    /\ globToRegex "*" = Some regex
    /\ forall rel,
         In rel files ->
         exists fullPath name child,
           FoundEntry sampleRepo "/srv/repo" name child fullPath
           /\ Dirent.isDirectory (name, child) = false
           /\ RegExp.test regex name = true
           /\ rel = Path.relative "/home/node" "/srv/repo" fullPath
           /\ Js.truthy rel = true
           /\ validatePath "/home/node" "/srv/repo" rel = inr fullPath
           /\ Fs.nodeAt sampleFs fullPath = Fs.follow child
           /\ Path.basename fullPath = name.
Proof.
  apply (findFiles_results_resolve_back sampleHost
           (sampleParams "findFiles" "") (Stats.mk false true false 4096)
           "/srv/repo" sampleRepo);
    try reflexivity.
  - discriminate.
  - exact sampleRepo_wellNamed.
Defined.

(** ** The tree operation's text *)

(** The tree operation clamps the depth limit to 1..10; its first line
    is the path as given, or the base name of the root for an empty path,
    with a separator appended; the other lines are the walker's; and the
    text is all lines joined by line feeds, with one more line feed at the
    end when the directory shows no entry. *)
Theorem tree_text_joins_lines
      (host : Host.t) (params : Params.t) (rootStats : Stats.t)
      (fullPath : string) (entries : list Dirent.t) :
  let cwd := Host.cwd host in
  let resolvedRoot := Path.resolve cwd [Params.rootPath params] in
  let target := Js.orElse (Params.path params) "." in
  let limit := Z.max 1 (Z.min 10 (Params.maxDepth params)) in
  let rootLine :=
    Js.orElse (Params.path params) (Path.basename resolvedRoot) +:+ "/" in
  Js.truthy (Params.rootPath params) = true ->
  getStats (Host.fs host) resolvedRoot = Some rootStats ->
  Stats.isDirectory rootStats = true ->
  Params.operation params = "tree" ->
  validatePath cwd resolvedRoot target = inr fullPath ->
  Fs.readdirSync (Host.fs host) fullPath = Some entries ->
  exists dir lines,
    Fs.nodeAt (Host.fs host) fullPath = Some dir
    /\ lines = buildTree (Host.localeCompare host) dir 1 limit ""
    /\ (1 <= limit <= 10)%Z
    /\ execute host params
       = inr (Tree target limit
                (match lines with
                 | [] => rootLine +:+ newline
                 | _ => Js.join newline (rootLine :: lines)
                 end)
                (rootLine :: lines)).
Proof.
  intros cwd resolvedRoot target limit rootLine
         Hroot Hstat Hdir Hop Hvalid Hread.
  destruct (readdirSync_stat _ _ _ Hread) as [sz Hdstat].
  unfold Fs.readdirSync in Hread.
  destruct (Fs.nodeAt (Host.fs host) fullPath) as [dir|] eqn:Hnode;
    [|discriminate].
  exists dir. eexists. split; [reflexivity|]. split; [reflexivity|].
  split; [unfold limit; lia|].
  unfold execute. rewrite Hroot. simpl negb. cbv iota.
  fold cwd. fold resolvedRoot. rewrite Hstat, Hdir, Hop. simpl.
  unfold treeCase. fold cwd. fold target. fold limit.
  rewrite Hvalid, Hdstat. simpl. rewrite Hnode.
  f_equal. f_equal. unfold rootLine.
  destruct (buildTree (Host.localeCompare host) dir 1 limit "") as [|l ls].
  - now rewrite !append_assoc.
  - unfold Js.join.
    change (String.concat newline (?a :: l :: ls))
      with (a +:+ newline +:+ String.concat newline (l :: ls)).
    now rewrite !append_assoc.
Qed.

Lemma tree_text_joins_lines_witness :
  exists dir lines,
    Fs.nodeAt sampleFs "/srv/repo/docs" = Some dir
    /\ lines = buildTree codeUnitCompare dir 1 3 ""
    /\ (1 <= 3 <= 10)%Z
    /\ execute sampleHost (sampleParams "tree" "docs")
       = inr (Tree "docs" 3
                (match lines with
                 | [] => "docs/" +:+ newline
                 | _ => Js.join newline ("docs/"%string :: lines)
                 end)
                ("docs/"%string :: lines)).
Proof.
  apply (tree_text_joins_lines sampleHost (sampleParams "tree" "docs")
           (Stats.mk false true false 4096) "/srv/repo/docs"
           [ ("api.md", sampleFile "# API"); ("README.md", sampleFile "# Mock") ]);
    reflexivity.
Defined.
